(** * WinGSM Backup Manager: scheduler, job executor, retention and restore

    A shallow embedding of the backup orchestration core of the
    application (wingsm_backup/models.py and the services
    scheduler_service.py, backup_service.py, restore_service.py), with
    the properties of its specification stated and settled over it.

    Conventions.
    - A Python [str] is a [string]; its methods are in [PyStr].
    - A [pathlib.Path] handled by the restore service is the list of its
      parts ([PyPath]).
    - Collaborators whose code lives outside the services (the file
      system, the clock, the cloud HTTP endpoints, the UI callback) are
      fields of an environment record; a call that can raise returns an
      [Outcome].
    - Every effectful function returns, next to its value, the list of
      effects it performed, in program order. *)

From Stdlib Require Import Ascii String DecimalString QArith Lqa Permutation Sorted.
From stdpp Require Import gmap strings list fin_maps.

(** ** Python strings *)

Module PyStr.

(** [s.startswith(p)] *)
Fixpoint startswith (p s : string) : bool :=
  match p, s with
  | EmptyString, _ => true
  | String a p', String b s' => if Ascii.eqb a b then startswith p' s' else false
  | String _ _, EmptyString => false
  end.

(** [s.endswith(p)] *)
Fixpoint endswith_aux (p s : string) : bool :=
  if (String.length s =? String.length p)%nat then String.eqb s p
  else match s with
       | EmptyString => false
       | String _ s' => endswith_aux p s'
       end.

Definition endswith (s p : string) : bool := endswith_aux p s.

(** [s.lower()] on the ASCII range. *)
Definition lower_ascii (c : ascii) : ascii :=
  let n := nat_of_ascii c in
  if ((65 <=? n) && (n <=? 90))%nat then ascii_of_nat (n + 32) else c.

Fixpoint lower (s : string) : string :=
  match s with
  | EmptyString => EmptyString
  | String c s' => String (lower_ascii c) (lower s')
  end.

(** [s.replace(sub, "")] for a non-empty [sub]: the occurrences are
    found from the left and do not overlap. [skip] counts the
    characters of the current occurrence that are still to be dropped. *)
Fixpoint remove_sub_aux (sub : string) (skip : nat) (s : string) : string :=
  match s with
  | EmptyString => EmptyString
  | String c s' =>
      match skip with
      | S k => remove_sub_aux sub k s'
      | O => if startswith sub s
             then remove_sub_aux sub (String.length sub - 1) s'
             else String c (remove_sub_aux sub 0 s')
      end
  end.

Definition remove_sub (sub s : string) : string := remove_sub_aux sub 0 s.

(** [s.replace(c, "")] for a single character. *)
Fixpoint remove_char (c : ascii) (s : string) : string :=
  match s with
  | EmptyString => EmptyString
  | String a s' => if Ascii.eqb a c then remove_char c s' else String a (remove_char c s')
  end.

(** [s.split(sep)] for a single character: never the empty list. *)
Fixpoint split (sep : ascii) (s : string) : list string :=
  match s with
  | EmptyString => [EmptyString]
  | String c s' =>
      if Ascii.eqb c sep then EmptyString :: split sep s'
      else match split sep s' with
           | [] => [String c EmptyString]
           | w :: ws => String c w :: ws
           end
  end.

(** [sep.join(parts)] *)
Fixpoint join (sep : string) (parts : list string) : string :=
  match parts with
  | [] => EmptyString
  | [w] => w
  | w :: ws => w +:+ sep +:+ join sep ws
  end.

(** [str(n)] for a natural number. *)
Definition str (n : nat) : string := NilEmpty.string_of_uint (Nat.to_uint n).

(** [int(s)] for a string of ASCII digits; [None] stands for ValueError. *)
Definition int (s : string) : option nat :=
  match s with
  | EmptyString => None
  | _ => Nat.of_uint <$> NilEmpty.uint_of_string s
  end.

(** Truthiness of a string: [bool(s)]. *)
Definition truthy (s : string) : bool :=
  match s with EmptyString => false | _ => true end.

End PyStr.

(** ** Data model (models.py) *)

Inductive ScheduleType := DAILY | WEEKLY | INTERVAL.
Inductive CloudBackupType := NONE | ONEDRIVE | GOOGLE_CLOUD.
Inductive BackupStatus := PENDING | RUNNING | COMPLETED | FAILED | CANCELLED.

(** [datetime.time]: the fields the scheduler reads. *)
Record time := mk_time { hour : nat; minute : nat; second : nat }.

Record ServerConfig := mk_ServerConfig {
  server_id : string;
  server_name : string;
  game_type : string;
  server_path : string;
  save_game_path : string;
  enabled : bool
}.

Record BackupSchedule := mk_BackupSchedule {
  schedule_id : string;
  name : string;
  server_ids : list string;
  schedule_type : ScheduleType;
  sched_time : time;
  interval_minutes : nat;
  days_of_week : list nat;            (* 0=Monday, 6=Sunday *)
  sched_enabled : bool;
  backup_path : string;
  retention_days : nat;
  enable_cloud_backup : bool;
  cloud_backup_type : CloudBackupType;
  cloud_backup_path : string
}.

(** [BackupSchedule()]: every field at its default; the default of
    [time] is the wall clock at construction. *)
Definition BackupSchedule_default (now_time : time) : BackupSchedule :=
  {| schedule_id := ""; name := ""; server_ids := [];
     schedule_type := DAILY; sched_time := now_time;
     interval_minutes := 60; days_of_week := [];
     sched_enabled := true; backup_path := ""; retention_days := 7;
     enable_cloud_backup := false; cloud_backup_type := NONE;
     cloud_backup_path := "WinGSMBackups" |}.

Record ServerBackupResult := mk_ServerBackupResult {
  r_server_id : string;
  r_server_name : string;
  success : bool;
  r_backup_path : string;
  r_cloud_backup_path : string;
  cloud_backup_success : bool;
  error_message : string;
  backup_size_bytes : nat
}.

(** [ServerBackupResult(server_id=.., server_name=..)] *)
Definition ServerBackupResult_new (sid sname : string) : ServerBackupResult :=
  {| r_server_id := sid; r_server_name := sname; success := false;
     r_backup_path := ""; r_cloud_backup_path := "";
     cloud_backup_success := false; error_message := "";
     backup_size_bytes := 0 |}.

Record BackupJob := mk_BackupJob {
  job_id : string;
  job_schedule_id : string;
  start_time : option string;
  end_time : option string;
  status : BackupStatus;
  message : string;
  server_results : list ServerBackupResult
}.

#[global] Instance ScheduleType_eq_dec : EqDecision ScheduleType.
Proof. solve_decision. Defined.
#[global] Instance CloudBackupType_eq_dec : EqDecision CloudBackupType.
Proof. solve_decision. Defined.
#[global] Instance BackupStatus_eq_dec : EqDecision BackupStatus.
Proof. solve_decision. Defined.

(** A call into a collaborator either returns or raises; the payload of
    [Raised] is [str(ex)]. *)
Inductive Outcome (A : Type) :=
  | Returned (a : A)
  | Raised (msg : string).
Arguments Returned {A} a.
Arguments Raised {A} msg.

(** ** The APScheduler interface used by the scheduler service

    The library is not part of the repository. What [add_schedule]
    relies on is modelled here from its documented behaviour, which the
    source restates in its own comment ("APScheduler uses 0-6 for
    Monday-Sunday"): a cron [day_of_week] expression is a
    comma-separated list, each number of which must lie in 0..6 with
    0 = Monday and 6 = Sunday, and a job store holds at most one job per
    id, [add_job(..., replace_existing=True)] replacing the stored job of
    the same id. *)

Module APScheduler.

Record CronFields := mk_CronFields {
  cf_day_of_week : option (list nat);   (* None: the default, every day *)
  cf_hour : nat;
  cf_minute : nat
}.

Inductive Trigger :=
  | Cron (c : CronFields)
  | Interval (minutes : nat).

(** One number of a [day_of_week] expression: compiled, then checked
    against the range of the field. *)
Definition compile_weekday (expr : string) : Outcome nat :=
  match PyStr.int expr with
  | None => Raised ("Unrecognized expression " +:+ expr +:+ " for field day_of_week")
  | Some v =>
      if (v <=? 6)%nat then Returned v
      else Raised ("Error validating expression " +:+ expr +:+
                   ": the last value (" +:+ PyStr.str v +:+
                   ") is higher than the maximum value (6)")
  end.

Fixpoint compile_weekdays (exprs : list string) : Outcome (list nat) :=
  match exprs with
  | [] => Returned []
  | e :: es =>
      match compile_weekday e with
      | Raised m => Raised m
      | Returned v =>
          match compile_weekdays es with
          | Raised m => Raised m
          | Returned vs => Returned (v :: vs)
          end
      end
  end.

(** [CronTrigger(day_of_week=.., hour=.., minute=..)]; raises
    ValueError on a value outside its field's range. *)
Definition CronTrigger (day_of_week : option string) (h m : nat) : Outcome Trigger :=
  if negb (h <=? 23)%nat then Raised "hour out of range"
  else if negb (m <=? 59)%nat then Raised "minute out of range"
  else match day_of_week with
       | None => Returned (Cron (mk_CronFields None h m))
       | Some expr =>
           match compile_weekdays (PyStr.split "," expr) with
           | Raised msg => Raised msg
           | Returned ds => Returned (Cron (mk_CronFields (Some ds) h m))
           end
       end.

(** [IntervalTrigger(minutes=..)] *)
Definition IntervalTrigger (minutes : nat) : Outcome Trigger :=
  Returned (Interval minutes).

(** Whether a cron trigger fires at [h]:[m] of a day whose weekday is
    [wd], counted as [datetime.weekday()] does: 0 = Monday .. 6 = Sunday. *)
Definition cron_fires_on (c : CronFields) (wd h m : nat) : bool :=
  match cf_day_of_week c with
  | None => true
  | Some ds => existsb (Nat.eqb wd) ds
  end && (h =? cf_hour c)%nat && (m =? cf_minute c)%nat.

(** The weekdays (0 = Monday .. 6 = Sunday) on which a cron trigger fires. *)
Definition fire_weekdays (c : CronFields) : list nat :=
  filter (fun wd => cron_fires_on c wd (cf_hour c) (cf_minute c)) (seq 0 7).

Record Job := mk_Job {
  id : string;
  trigger : Trigger;
  args : string            (* the schedule id handed to the job function *)
}.

Record BackgroundScheduler := mk_BackgroundScheduler {
  running : bool;
  pending_jobs : list Job;  (* added while stopped, stored by [start] *)
  jobstore : list Job
}.

Definition BackgroundScheduler_new : BackgroundScheduler :=
  mk_BackgroundScheduler false [] [].

Definition has_job (jid : string) (store : list Job) : bool :=
  existsb (fun j => String.eqb (id j) jid) store.

(** The memory job store: [add_job] raises ConflictingIdError on a known
    id, [update_job] swaps the stored job of that id for the new one. *)
Definition store_add_job (store : list Job) (j : Job) : option (list Job) :=
  if has_job (id j) store then None else Some (store ++ [j]).

Definition store_update_job (store : list Job) (j : Job) : list Job :=
  map (fun old => if String.eqb (id old) (id j) then j else old) store.

(** [_real_add_job] with [replace_existing=True] *)
Definition real_add_job (store : list Job) (j : Job) : list Job :=
  match store_add_job store j with
  | Some store' => store'
  | None => store_update_job store j
  end.

(** [scheduler.add_job(func, trigger=.., id=.., args=.., replace_existing=True)] *)
Definition add_job (sch : BackgroundScheduler) (j : Job) : BackgroundScheduler :=
  if running sch
  then mk_BackgroundScheduler true (pending_jobs sch) (real_add_job (jobstore sch) j)
  else mk_BackgroundScheduler false (pending_jobs sch ++ [j]) (jobstore sch).

(** [scheduler.start()], called on a stopped scheduler. *)
Definition start (sch : BackgroundScheduler) : BackgroundScheduler :=
  mk_BackgroundScheduler true [] (fold_left real_add_job (pending_jobs sch) (jobstore sch)).

(** [scheduler.shutdown()]: the scheduler stops and shuts its job
    stores down; the memory job store answers [shutdown()] with
    [remove_all_jobs()]. *)
Definition shutdown (sch : BackgroundScheduler) : BackgroundScheduler :=
  mk_BackgroundScheduler false (pending_jobs sch) [].

(** [del pending_jobs[i]] for the first pending job of the id. *)
Fixpoint remove_first_pending (jid : string) (pending : list Job) : option (list Job) :=
  match pending with
  | [] => None
  | j :: rest =>
      if String.eqb (id j) jid then Some rest
      else match remove_first_pending jid rest with
           | Some rest' => Some (j :: rest')
           | None => None
           end
  end.

(** [scheduler.remove_job(job_id)]. A stopped scheduler looks among its
    pending jobs only and deletes the first one of that id; a running
    one removes the job from its store. JobLookupError when nothing was
    found. *)
Definition remove_job (sch : BackgroundScheduler) (jid : string) : Outcome BackgroundScheduler :=
  if running sch then
    if has_job jid (jobstore sch)
    then Returned (mk_BackgroundScheduler true (pending_jobs sch)
                     (filter (fun j => negb (String.eqb (id j) jid)) (jobstore sch)))
    else Raised ("No job by the id of " +:+ jid +:+ " was found")
  else
    match remove_first_pending jid (pending_jobs sch) with
    | Some pending => Returned (mk_BackgroundScheduler false pending (jobstore sch))
    | None => Raised ("No job by the id of " +:+ jid +:+ " was found")
    end.

(** The triggers armed for a job id: the jobs of the store that carry it. *)
Definition active_triggers (sch : BackgroundScheduler) (jid : string) : list Trigger :=
  map trigger (filter (fun j => String.eqb (id j) jid) (jobstore sch)).

End APScheduler.

(** ** Effects and environment of a backup job *)

Inductive CloudBackend := OneDrive | GoogleCloud.

Inductive Effect :=
  | EStop (sid : string)                       (* windowsgsm_service.stop_server *)
  | ESleep (seconds : nat)                     (* asyncio.sleep *)
  | EStart (sid : string)                      (* windowsgsm_service.start_server *)
  | EArchive (source zip_path : string)        (* the zip of a save directory is written *)
  | EUpload (backend : CloudBackend) (local_path remote_path : string)
  | ECleanup (root : string) (days : nat)      (* backup_service.cleanup_old_backups *)
  | ECallback (job : BackupJob).               (* backup_completed_callback(job) *)

(** What the services read from the world during one job.

    [is_server_running], [stop_server] and [start_server] are the
    methods of WindowsGSMService: each wraps its whole body in
    [try/except Exception] and returns a [bool], so none of them raises.
    The cloud uploads can raise (RuntimeError when the service is not
    ready, FileNotFoundError, network errors).

    [path_str [a; b; ..]] is [str(Path(a) / b / ..)]: how the segments
    are joined (separator, a drive or root in a later segment) is the
    platform's business; the text of a path is never empty (the empty
    path prints as "."), which is the law [path_str_truthy]. The three
    steps of an archive, [mkdir], the writing of the zip file and
    [stat], each return or raise. *)
Record Env := mk_Env {
  is_server_running : string -> bool;
  stop_server : string -> bool;
  start_server : string -> bool;
  path_exists : string -> bool;                       (* Path(p).exists() *)
  strftime_now : ServerConfig -> string;              (* the clock when this server's archive starts *)
  path_str : list string -> string;
  path_str_truthy : forall parts, PyStr.truthy (path_str parts) = true;
  mkdir : string -> Outcome unit;                     (* backup_dir.mkdir(parents=True, exist_ok=True) *)
  write_zip : string -> string -> Outcome unit;       (* lines 43-49: the files of a directory, zipped *)
  stat_size : string -> Outcome nat;                  (* zip_path.stat().st_size *)
  onedrive_is_authenticated : bool;
  onedrive_upload_backup : string -> string -> Outcome bool;
  google_is_initialized : bool;
  google_upload_backup : string -> string -> Outcome bool;
  config_servers : list ServerConfig;                 (* ConfigManager().get_config().servers *)
  uuid4 : string;
  now_iso : string;
  now_time : time;
  backup_completed_callback : option (BackupJob -> Outcome unit)
}.

(** ** The backup service (backup_service.py) *)

Module BackupService.

(** [str(backup_dir)] and [str(zip_path)]: the directory and the archive
    of a server, [backup_root_path/server_id/timestamp/] and
    [<server_name>_<timestamp>.zip] in it. *)
Definition archive_dir (env : Env) (server : ServerConfig) (backup_root_path : string) : string :=
  path_str env [backup_root_path; server_id server; strftime_now env server].

Definition archive_path (env : Env) (server : ServerConfig) (backup_root_path : string) : string :=
  let timestamp := strftime_now env server in
  path_str env [backup_root_path; server_id server; timestamp;
                server_name server +:+ "_" +:+ timestamp +:+ ".zip"].

(** [result.success = False; result.error_message = msg] *)
Definition failed (result : ServerBackupResult) (msg : string) : ServerBackupResult :=
  {| r_server_id := r_server_id result; r_server_name := r_server_name result;
     success := false;
     r_backup_path := r_backup_path result;
     r_cloud_backup_path := r_cloud_backup_path result;
     cloud_backup_success := cloud_backup_success result;
     error_message := msg;
     backup_size_bytes := backup_size_bytes result |}.

(** [result.backup_path = path] *)
Definition with_backup_path (result : ServerBackupResult) (path : string) : ServerBackupResult :=
  {| r_server_id := r_server_id result; r_server_name := r_server_name result;
     success := success result;
     r_backup_path := path;
     r_cloud_backup_path := r_cloud_backup_path result;
     cloud_backup_success := cloud_backup_success result;
     error_message := error_message result;
     backup_size_bytes := backup_size_bytes result |}.

(** [backup_server(server, backup_root_path)]. Everything after the
    construction of [result] is inside [try/except Exception], so the
    method always returns a result. The path of the archive is stored
    in the result (line 51) before its size is read (line 52): when
    [stat] raises, the failed result still names the archive. *)
Definition backup_server (env : Env) (server : ServerConfig) (backup_root_path : string)
  : ServerBackupResult * list Effect :=
  let result := ServerBackupResult_new (server_id server) (server_name server) in
  if negb (path_exists env (save_game_path server)) then
    (failed result "Savegame path not found or invalid", [])
  else
    let zip_path := archive_path env server backup_root_path in
    match mkdir env (archive_dir env server backup_root_path) with
    | Raised msg => (failed result msg, [])
    | Returned _ =>
        match write_zip env (save_game_path server) zip_path with
        | Raised msg => (failed result msg, [EArchive (save_game_path server) zip_path])
        | Returned _ =>
            let result := with_backup_path result zip_path in
            match stat_size env zip_path with
            | Raised msg => (failed result msg, [EArchive (save_game_path server) zip_path])
            | Returned size =>
                ({| r_server_id := r_server_id result; r_server_name := r_server_name result;
                    success := true;
                    r_backup_path := r_backup_path result;
                    r_cloud_backup_path := r_cloud_backup_path result;
                    cloud_backup_success := cloud_backup_success result;
                    error_message := error_message result;
                    backup_size_bytes := size |},
                 [EArchive (save_game_path server) zip_path])
            end
        end
    end.

(** The backup tree seen by [cleanup_old_backups]: the entries of the
    root and, for a directory, its own entries, each list in the order
    in which [iterdir()] yields it. A snapshot directory carries its
    [st_mtime] (seconds, as an exact number) and whether the inner [try]
    goes through on it: [rmtree_ok] is [false] when [shutil.rmtree]
    (or [stat]) raises there. An unreadable entry is one on which
    [is_dir()] raises, or a directory whose [iterdir()] raises
    (PermissionError and the like): both calls stand outside the inner
    [try]. *)
Inductive SnapshotEntry :=
  | SnapFile (fname : string)
  | SnapDir (dname : string) (st_mtime : Q) (rmtree_ok : bool)
  | SnapUnreadable (name : string).

Inductive RootEntry :=
  | RootFile (fname : string)
  | ServerDir (dname : string) (entries : list SnapshotEntry)
  | RootUnreadable (name : string).

(** [backup_dir.stat().st_mtime < cutoff_date] *)
Definition older_than (mtime cutoff : Q) : bool := negb (Qle_bool cutoff mtime).

(** The inner loop body: whether [backup_dir] is still there afterwards. *)
Definition survives (cutoff_date : Q) (e : SnapshotEntry) : bool :=
  match e with
  | SnapFile _ => true                              (* not a directory: continue *)
  | SnapDir _ mtime ok =>
      if older_than mtime cutoff_date
      then negb ok                                  (* rmtree; a failure is swallowed *)
      else true
  | SnapUnreadable _ => true
  end.

(** The inner loop (lines 74-83) over the entries of one server
    directory: what is left of them, and whether an exception left the
    loop. The exception of an unreadable entry is not caught by the
    inner handler: the entries after it are not visited. *)
Fixpoint sweep_server_dir (cutoff_date : Q) (entries : list SnapshotEntry)
  : list SnapshotEntry * bool :=
  match entries with
  | [] => ([], false)
  | SnapUnreadable n :: rest => (SnapUnreadable n :: rest, true)
  | e :: rest =>
      let '(rest', raised) := sweep_server_dir cutoff_date rest in
      (if survives cutoff_date e then e :: rest' else rest', raised)
  end.

(** The outer loop (lines 70-83): it ends with the list, or at the first
    exception, which the outer handler (line 85) swallows; the entries
    after that point are left as they are. *)
Fixpoint sweep_root (cutoff_date : Q) (entries : list RootEntry) : list RootEntry :=
  match entries with
  | [] => []
  | RootFile f :: rest => RootFile f :: sweep_root cutoff_date rest   (* continue *)
  | ServerDir d snaps :: rest =>
      let '(snaps', raised) := sweep_server_dir cutoff_date snaps in
      ServerDir d snaps' :: (if raised then rest else sweep_root cutoff_date rest)
  | RootUnreadable n :: rest => RootUnreadable n :: rest
  end.

(** [cleanup_old_backups(backup_root_path, retention_days)] on the tree
    found at the root, with [now] the value of
    [datetime.now().timestamp()]. The root is [None] when there is
    nothing to sweep: it does not exist, or [exists()] or [iterdir()]
    raises on it and the outer handler ends the call. *)
Definition cleanup_old_backups (now : Q) (root : option (list RootEntry)) (retention_days : nat)
  : option (list RootEntry) :=
  match root with
  | None => None
  | Some entries =>
      let cutoff_date := (now - inject_Z (Z.of_nat retention_days * 24 * 60 * 60))%Q in
      Some (sweep_root cutoff_date entries)
  end.

End BackupService.

(** ** The scheduler service (scheduler_service.py) *)

Module SchedulerService.

Import APScheduler.

(** The mutable attributes of a [SchedulerService]. *)
Record State := mk_State {
  scheduler : BackgroundScheduler;
  schedules : list BackupSchedule
}.

Definition init : State := mk_State BackgroundScheduler_new [].

Definition start (st : State) : State :=
  if running (scheduler st) then st
  else mk_State (APScheduler.start (scheduler st)) (schedules st).

Definition stop (st : State) : State :=
  if running (scheduler st)
  then mk_State (APScheduler.shutdown (scheduler st)) (schedules st)
  else st.

(** The trigger [add_schedule] builds for an enabled schedule. *)
Definition make_trigger (schedule : BackupSchedule) : Outcome Trigger :=
  match schedule_type schedule with
  | DAILY =>
      CronTrigger None (hour (sched_time schedule)) (minute (sched_time schedule))
  | WEEKLY =>
      let days := map (fun d => d + 1) (days_of_week schedule) in
      CronTrigger (Some (PyStr.join "," (map PyStr.str days)))
                  (hour (sched_time schedule)) (minute (sched_time schedule))
  | INTERVAL =>
      IntervalTrigger (interval_minutes schedule)
  end.

(** [add_schedule(schedule)]: the state it leaves, and whether it
    returned or raised (the ValueError of a refused trigger, after the
    schedule has been appended). *)
Definition add_schedule (schedule : BackupSchedule) (st : State) : State * Outcome unit :=
  let st1 := mk_State (scheduler st) (schedules st ++ [schedule]) in
  if negb (sched_enabled schedule) then (st1, Returned tt)
  else
    let job_id := "backup_" +:+ schedule_id schedule in
    match make_trigger schedule with
    | Raised msg => (st1, Raised msg)
    | Returned trigger =>
        (mk_State (add_job (scheduler st1) (mk_Job job_id trigger (schedule_id schedule)))
                  (schedules st1),
         Returned tt)
    end.

Definition remove_schedule (sid : string) (st : State) : State :=
  let kept := filter (fun s => negb (String.eqb (schedule_id s) sid)) (schedules st) in
  match remove_job (scheduler st) ("backup_" +:+ sid) with
  | Returned sch => mk_State sch kept
  | Raised _ => mk_State (scheduler st) kept
  end.

(** [get_schedule(schedule_id)]: the first schedule of the list with
    that id. *)
Fixpoint get_schedule_in (sid : string) (l : list BackupSchedule) : option BackupSchedule :=
  match l with
  | [] => None
  | schedule :: rest =>
      if String.eqb (schedule_id schedule) sid then Some schedule
      else get_schedule_in sid rest
  end.

Definition get_schedule (sid : string) (st : State) : option BackupSchedule :=
  get_schedule_in sid (schedules st).

Definition get_all_schedules (st : State) : list BackupSchedule := schedules st.

(** The cloud step of one server (lines 161-193): [result] is the object
    already appended to [job.server_results]; the step assigns to its
    fields, or leaves it alone. An exception of the upload is caught. *)
Definition set_cloud (result : ServerBackupResult) (cloud_path : string) (ok : bool)
  : ServerBackupResult :=
  {| r_server_id := r_server_id result; r_server_name := r_server_name result;
     success := success result; r_backup_path := r_backup_path result;
     r_cloud_backup_path := cloud_path; cloud_backup_success := ok;
     error_message := error_message result;
     backup_size_bytes := backup_size_bytes result |}.

Definition set_cloud_failed (result : ServerBackupResult) : ServerBackupResult :=
  set_cloud result (r_cloud_backup_path result) false.

Definition cloud_upload (env : Env) (schedule : BackupSchedule) (server : ServerConfig)
    (result : ServerBackupResult) : ServerBackupResult * list Effect :=
  match cloud_backup_type schedule with
  | ONEDRIVE =>
      if onedrive_is_authenticated env then
        let cloud_path :=
          if PyStr.truthy (cloud_backup_path schedule) then cloud_backup_path schedule
          else "WinGSMBackups/" +:+ server_id server in
        match onedrive_upload_backup env (r_backup_path result) cloud_path with
        | Returned cloud_success =>
            (set_cloud result cloud_path cloud_success,
             [EUpload OneDrive (r_backup_path result) cloud_path])
        | Raised _ =>
            (set_cloud_failed result, [EUpload OneDrive (r_backup_path result) cloud_path])
        end
      else (result, [])
  | GOOGLE_CLOUD =>
      if google_is_initialized env then
        let cloud_path :=
          if PyStr.truthy (cloud_backup_path schedule)
          then cloud_backup_path schedule +:+ "/" +:+ server_id server
          else server_id server in
        match google_upload_backup env (r_backup_path result) cloud_path with
        | Returned cloud_success =>
            (set_cloud result cloud_path cloud_success,
             [EUpload GoogleCloud (r_backup_path result) cloud_path])
        | Raised _ =>
            (set_cloud_failed result, [EUpload GoogleCloud (r_backup_path result) cloud_path])
        end
      else (result, [])
  | NONE => (result, [])
  end.

(** [job.server_results[-1] = f(job.server_results[-1])]: the cloud step
    writes through the reference [result], which is the last element of
    the list. *)
Definition update_last {A} (f : A -> A) (l : list A) : list A :=
  match l with
  | [] => []
  | _ => alter f (length l - 1) l
  end.

(** The body of the loop over [enabled_servers] for one server, on the
    list [job.server_results]. No call of the body raises (see [Env] and
    [BackupService.backup_server]), so the handler of line 199 never
    runs and the body appends exactly one result. *)
Definition backup_one (env : Env) (schedule : BackupSchedule)
    (acc : list ServerBackupResult * list Effect) (server : ServerConfig)
  : list ServerBackupResult * list Effect :=
  let '(results, effects) := acc in
  let e_stop :=
    if is_server_running env (server_id server)
    then [EStop (server_id server); ESleep 5] else [] in
  let '(result, e_backup) := BackupService.backup_server env server (backup_path schedule) in
  let results1 := results ++ [result] in
  let '(results2, e_cloud) :=
    if success result && enable_cloud_backup schedule && PyStr.truthy (r_backup_path result)
    then let '(result', e) := cloud_upload env schedule server result in
         (update_last (fun _ => result') results1, e)
    else (results1, []) in
  let e_start := if success result then [EStart (server_id server)] else [] in
  (results2, effects ++ e_stop ++ e_backup ++ e_cloud ++ e_start).

Definition enabled_servers (schedule : BackupSchedule) (servers : list ServerConfig)
  : list ServerConfig :=
  filter (fun s => bool_decide (server_id s ∈ server_ids schedule) && enabled s) servers.

(** Lines 117-119: the schedule of the job, or the fallback. *)
Definition resolve_schedule (env : Env) (st : State) (sid : string) : BackupSchedule :=
  match get_schedule sid st with
  | Some s => s
  | None => BackupSchedule_default (now_time env)      (* Fallback *)
  end.

(** Lines 121-126: the servers given, or those of the configuration. *)
Definition resolve_servers (env : Env) (servers : option (list ServerConfig))
  : list ServerConfig :=
  match servers with
  | Some l => l
  | None => config_servers env
  end.

(** [execute_backup_async(schedule_id, servers)]: the job it returns and
    the effects it performed. The handler of line 224 runs when the
    completion callback raises ([cleanup_old_backups] swallows its own
    exceptions). *)
Definition execute_backup_async (env : Env) (st : State) (sid : string)
    (servers : option (list ServerConfig)) : BackupJob * list Effect :=
  let schedule := resolve_schedule env st sid in
  let servers := resolve_servers env servers in
  let '(results, effects) :=
    fold_left (backup_one env schedule) (enabled_servers schedule servers) ([], []) in
  let job :=
    {| job_id := uuid4 env; job_schedule_id := sid;
       start_time := Some (now_iso env); end_time := Some (now_iso env);
       status := if forallb success results then COMPLETED else FAILED;
       message := ""; server_results := results |} in
  let e_cleanup := [ECleanup (backup_path schedule) (retention_days schedule)] in
  match backup_completed_callback env with
  | None => (job, effects ++ e_cleanup)
  | Some callback =>
      match callback job with
      | Returned _ => (job, effects ++ e_cleanup ++ [ECallback job])
      | Raised msg =>
          ({| job_id := job_id job; job_schedule_id := job_schedule_id job;
              start_time := start_time job; end_time := Some (now_iso env);
              status := FAILED; message := msg;
              server_results := server_results job |},
           effects ++ e_cleanup ++ [ECallback job])
      end
  end.

End SchedulerService.

(** ** [datetime] and [datetime.strptime]

    The standard library's parser is modelled for the field directives
    the restore service uses. A format is compiled to a regular
    expression whose fields are alternations tried from the left
    ([%m] is [1[0-2]|0[1-9]|[1-9]], and so on), the expression is matched
    at the start of the text with backtracking, the first match must
    cover the whole text, and the values must make a valid [datetime].
    Every failure is a ValueError. Text is ASCII. *)

Module Datetime.

Record datetime := mk_datetime {
  year : nat; month : nat; day : nat;
  dt_hour : nat; dt_minute : nat; dt_second : nat
}.

#[global] Instance datetime_eq_dec : EqDecision datetime.
Proof. solve_decision. Defined.

(** [datetime.min] *)
Definition min : datetime := mk_datetime 1 1 1 0 0 0.

Definition is_leap (y : nat) : bool :=
  ((y mod 4 =? 0) && (negb (y mod 100 =? 0) || (y mod 400 =? 0)))%nat.

Definition days_in_month (y m : nat) : nat :=
  match m with
  | 2 => if is_leap y then 29 else 28
  | 4 | 6 | 9 | 11 => 30
  | _ => 31
  end.

(** The range checks of the [datetime] constructor. *)
Definition valid (d : datetime) : bool :=
  ((1 <=? year d) && (year d <=? 99 * 101) &&
   (1 <=? month d) && (month d <=? 12) &&
   (1 <=? day d) && (day d <=? days_in_month (year d) (month d)) &&
   (dt_hour d <=? 23) && (dt_minute d <=? 59) && (dt_second d <=? 59))%nat.

(** Comparison of naive datetimes: field by field, most significant first. *)
Definition fields (d : datetime) : list nat :=
  [year d; month d; day d; dt_hour d; dt_minute d; dt_second d].

Fixpoint lex_compare (a b : list nat) : comparison :=
  match a, b with
  | [], [] => Eq
  | [], _ :: _ => Lt
  | _ :: _, [] => Gt
  | x :: a', y :: b' =>
      match Nat.compare x y with
      | Eq => lex_compare a' b'
      | c => c
      end
  end.

Definition compare (a b : datetime) : comparison := lex_compare (fields a) (fields b).

Definition ltb (a b : datetime) : bool :=
  match compare a b with Lt => true | _ => false end.

(** A character class of the compiled expression. *)
Definition CharClass := ascii -> bool.

Definition between (lo hi : ascii) : CharClass :=
  fun c => ((nat_of_ascii lo <=? nat_of_ascii c) && (nat_of_ascii c <=? nat_of_ascii hi))%nat.

Definition exactly (a : ascii) : CharClass := Ascii.eqb a.

Definition digit : CharClass := between "0" "9".

Inductive Item :=
  | Lit (c : ascii)
  | Field (alternatives : list (list CharClass)).

Definition re_Y : Item := Field [[digit; digit; digit; digit]].
Definition re_m : Item :=
  Field [[exactly "1"; between "0" "2"]; [exactly "0"; between "1" "9"]; [between "1" "9"]].
Definition re_d : Item :=
  Field [[exactly "3"; between "0" "1"]; [between "1" "2"; digit];
         [exactly "0"; between "1" "9"]; [between "1" "9"]; [exactly " "; between "1" "9"]].
Definition re_H : Item :=
  Field [[exactly "2"; between "0" "3"]; [between "0" "1"; digit]; [digit]].
Definition re_M : Item := Field [[between "0" "5"; digit]; [digit]].
Definition re_S : Item :=
  Field [[exactly "6"; between "0" "1"]; [between "0" "5"; digit]; [digit]].

(** "%Y-%m-%d_%H-%M-%S" *)
Definition format_dashed : list Item :=
  [re_Y; Lit "-"; re_m; Lit "-"; re_d; Lit "_"; re_H; Lit "-"; re_M; Lit "-"; re_S].

(** "%Y%m%d_%H%M%S" *)
Definition format_compact : list Item :=
  [re_Y; re_m; re_d; Lit "_"; re_H; re_M; re_S].

(** One alternative against the start of the text: the value read (the
    digits, a blank counting for nothing) and the rest of the text. *)
Fixpoint match_class_seq (cs : list CharClass) (acc : nat) (s : string) : option (nat * string) :=
  match cs with
  | [] => Some (acc, s)
  | cl :: cs' =>
      match s with
      | EmptyString => None
      | String c s' =>
          if cl c
          then match_class_seq cs'
                 (if digit c then 10 * acc + (nat_of_ascii c - 48) else acc) s'
          else None
      end
  end.

(** All the ways the items match a prefix of the text, in the order the
    backtracking matcher finds them. *)
Fixpoint match_items (items : list Item) (s : string) : list (list nat * string) :=
  match items with
  | [] => [([], s)]
  | Lit c :: items' =>
      match s with
      | String a s' => if Ascii.eqb a c then match_items items' s' else []
      | EmptyString => []
      end
  | Field alts :: items' =>
      flat_map
        (fun alt =>
           match match_class_seq alt 0 s with
           | Some (v, rest) =>
               map (fun '(vs, r) => (v :: vs, r)) (match_items items' rest)
           | None => []
           end)
        alts
  end.

(** [datetime.strptime(text, format)] for a format that reads year,
    month, day, hour, minute and second in this order. *)
Definition strptime (text : string) (format : list Item) : Outcome datetime :=
  match match_items format text with
  | [] => Raised "time data does not match format"
  | (vs, rest) :: _ =>
      match rest with
      | String _ _ => Raised "unconverted data remains"
      | EmptyString =>
          match vs with
          | [y; m; d; hh; mm; ss] =>
              let dt := mk_datetime y m d hh mm ss in
              if valid dt then Returned dt else Raised "value out of range"
          | _ => Raised "time data does not match format"
          end
      end
  end.

End Datetime.

(** ** Paths of the restore service *)

Module PyPath.

(** [p.parent], [p.name] and [p / s] on the parts of a path. How a path
    prints ([str(p)]: the separator, the drive, the root) depends on the
    platform, and is left to the environment of a restore. *)
Definition parent (p : list string) : list string := List.removelast p.
Definition name (p : list string) : string := List.last p "".
Definition div (p : list string) (s : string) : list string := p ++ [s].

End PyPath.

(** ** The restore service (restore_service.py) *)

Module RestoreService.

Import Datetime.

Record BackupInfo := mk_BackupInfo {
  filepath : list string;
  bi_server_id : string;
  bi_server_name : string;
  timestamp : option datetime;
  size_bytes : nat
}.

(** [try: return strptime(..) except ValueError: pass], then the rest. *)
Definition try_strptime (text : string) (format : list Item)
    (otherwise : option datetime) : option datetime :=
  match strptime text format with
  | Returned dt => Some dt
  | Raised _ => otherwise
  end.

(** Lines 26-30: the text handed to [strptime], made of the last two
    tokens of the name once every ".zip" is removed; [None] when there
    are fewer than three tokens. *)
Definition timestamp_text (filename : string) : option string :=
  let parts := PyStr.split "_" (PyStr.remove_sub ".zip" filename) in
  if (3 <=? length parts)%nat then
    let date_str := nth (length parts - 2) parts "" in
    let time_str := nth (length parts - 1) parts "" in
    Some (date_str +:+ "_" +:+ time_str)
  else None.

(** The body of [_extract_timestamp] inside its outer [try]. *)
Definition extract_timestamp_body (filename : string) : Outcome (option datetime) :=
  match timestamp_text filename with
  | Some timestamp_str =>
      Returned
        (try_strptime timestamp_str format_dashed
          (try_strptime timestamp_str format_compact
            (try_strptime (PyStr.remove_char "-" timestamp_str) format_compact
              None)))
  | None => Returned None
  end.

(** [BackupInfo._extract_timestamp(filename)]: the outer handler turns
    any exception of the body into [None]. *)
Definition _extract_timestamp (filename : string) : Outcome (option datetime) :=
  match extract_timestamp_body filename with
  | Returned r => Returned r
  | Raised _ => Returned None
  end.

(** A node of the backup tree scanned by [discover_backups]: its name,
    what [stat().st_size] gives, and for a directory its entries in
    listing order. *)
#[warnings="-register-all"]
Inductive Node :=
  | File (fname : string) (st_size : Outcome nat)
  | Dir (dname : string) (st_size : Outcome nat) (children : list Node).

Definition node_name (n : Node) : string :=
  match n with File f _ => f | Dir d _ _ => d end.

Definition node_size (n : Node) : Outcome nat :=
  match n with File _ s => s | Dir _ s _ => s end.

(** [BackupInfo(filepath, server_id, server_name)] *)
Definition BackupInfo_new (dir : list string) (n : Node) (sid sname : string)
  : Outcome BackupInfo :=
  match _extract_timestamp (node_name n) with
  | Raised m => Raised m
  | Returned ts =>
      match node_size n with
      | Raised m => Raised m
      | Returned size => Returned (mk_BackupInfo (PyPath.div dir (node_name n)) sid sname ts size)
      end
  end.

(** [for backup_file in d.glob("*.zip"): try: backups.append(BackupInfo(..))
    except Exception: continue]. Which names the pattern matches depends
    on the platform (case), so the test is a parameter. *)
Definition collect (glob_zip : string -> bool) (dir : list string) (entries : list Node)
    (sid sname : string) : list BackupInfo :=
  flat_map
    (fun n =>
       if glob_zip (node_name n)
       then match BackupInfo_new dir n sid sname with
            | Returned b => [b]
            | Raised _ => []
            end
       else [])
    entries.

(** [{s.server_id: s.server_name for s in servers}] *)
Definition server_map (servers : list ServerConfig) : gmap string string :=
  fold_left (fun m s => <[server_id s := server_name s]> m) servers ∅.

(** The sort key: [b.timestamp if b.timestamp else datetime.min]; a
    [datetime] is always truthy. *)
Definition sort_key (b : BackupInfo) : datetime :=
  match timestamp b with
  | Some t => t
  | None => Datetime.min
  end.

(** [list.sort(key=.., reverse=True)]: descending by key, elements of
    equal key in their original order. *)
Fixpoint insert_desc {A} (key : A -> datetime) (x : A) (l : list A) : list A :=
  match l with
  | [] => [x]
  | y :: l' =>
      if Datetime.ltb (key x) (key y) then y :: insert_desc key x l'
      else x :: y :: l'
  end.

Definition sort_desc {A} (key : A -> datetime) (l : list A) : list A :=
  foldr (insert_desc key) [] l.

(** The scan of [discover_backups], before the sort. *)
Definition scan (glob_zip : string -> bool) (backup_dir : list string)
    (tree : list Node) (servers : list ServerConfig) : list BackupInfo :=
  flat_map
    (fun server_dir =>
       match server_dir with
       | File _ _ => []
       | Dir sid _ entries =>
           let sname := default ("Server " +:+ sid) (server_map servers !! sid) in
           let here := PyPath.div backup_dir sid in
           collect glob_zip here entries sid sname ++
           flat_map
             (fun subdir =>
                match subdir with
                | File _ _ => []
                | Dir d _ sub => collect glob_zip (PyPath.div here d) sub sid sname
                end)
             entries
       end)
    tree.

(** [discover_backups(backup_path, servers)]; [tree] is [None] when the
    backup directory does not exist. *)
Definition discover_backups (glob_zip : string -> bool) (backup_dir : list string)
    (tree : option (list Node)) (servers : list ServerConfig) : list BackupInfo :=
  match tree with
  | None => []
  | Some entries => sort_desc sort_key (scan glob_zip backup_dir entries servers)
  end.

(** *** Restoring *)

(** What opening a file as a zip archive gives. *)
Inductive ZipContent :=
  | ZipEntries (members : list (string * string))   (* name and data, in archive order *)
  | BadZipFile
  | Unreadable (msg : string).

(** The file system of a restore: a file with what it holds as an
    archive, or a directory with the files below it by relative name. *)
Inductive FsNode :=
  | FsFile (zip : ZipContent)
  | FsDir (files : gmap string string).

Inductive ExtractResult := Extracted | PermissionError | ExtractError (msg : string).

(** The OSErrors whose text reaches a message. *)
Inductive OsError := FileExistsError | NotADirectoryError | IsADirectoryError.

(** What a restore reads from the world.

    [path_text p] is [str(p)] and [strerror e p] is [str(e)] for the
    OSError [e] raised on [p]: both depend on the platform.

    [arcname name] is the relative path under which [ZipFile.extract]
    stores the entry [name] in the destination: the library drops the
    drive, the root and the parts "", "." and ".." of the name (and, on
    Windows, trailing dots and the characters a file name cannot hold),
    so the file written for an entry need not carry the entry's name.

    [extract_result name] is what the attempt to store the entry does:
    it returns, or raises PermissionError or another exception.
    [print_error text] is the exception that [print(text)] raises, if
    it raises (a closed or missing console, a name that the console
    cannot encode). *)
Record RestoreEnv := mk_RestoreEnv {
  backup_timestamp : string;                      (* now, as "%Y%m%d_%H%M%S" *)
  path_text : list string -> string;
  strerror : OsError -> list string -> string;
  copytree_error : option (gmap string string * string);
                                                  (* an I/O error: what was copied so far, and str(e) *)
  arcname : string -> string;
  extract_result : string -> ExtractResult;
  print_error : string -> option string
}.

Inductive RestoreEffect :=
  | RCopytree (src dst : list string)
  | RExtract (member : string).

(** [shutil.copytree(src, dst)] from a directory: refuses an existing
    [dst]; an I/O error leaves a partial copy behind. *)
Definition copytree (env : RestoreEnv) (fs : gmap (list string) FsNode)
    (src dst : list string) (files : gmap string string)
  : gmap (list string) FsNode * Outcome unit :=
  match fs !! dst with
  | Some _ => (fs, Raised (strerror env FileExistsError dst))
  | None =>
      match copytree_error env with
      | Some (partial, msg) => (<[dst := FsDir partial]> fs, Raised msg)
      | None => (<[dst := FsDir files]> fs, Returned tt)
      end
  end.

Definition skip_extensions : list string := [".exe"; ".dll"; ".bat"; ".cmd"].

Definition skipped_by_extension (file_name : string) : bool :=
  existsb (fun ext => PyStr.endswith (PyStr.lower file_name) ext) skip_extensions.

Record Counts := mk_Counts {
  extracted_count : nat;
  skipped_count : nat;
  error_count : nat
}.

(** [ZipInfo.is_dir()]: the name of a directory entry ends with a slash. *)
Definition is_dir (file_name : string) : bool := PyStr.endswith file_name "/".

(** [zip_ref.getinfo(name)]: of several entries of one name the archive
    index keeps the last; its data is what [extract(name)] writes. *)
Definition member_data (members : list (string * string)) (file_name : string) : string :=
  match last (filter (fun m => String.eqb m.1 file_name) members) with
  | Some m => m.2
  | None => ""
  end.

(** What a successful [extract] leaves in the destination: for a
    directory entry a directory is made and no file is written; for any
    other entry its data is written at [arcname]. *)
Definition store (env : RestoreEnv) (members : list (string * string)) (file_name : string)
    (files : gmap string string) : gmap string string :=
  if is_dir file_name then files
  else <[arcname env file_name := member_data members file_name]> files.

(** [zip_ref.extract(file_name, dest_path)] *)
Definition extract (env : RestoreEnv) (fs : gmap (list string) FsNode) (dest : list string)
    (members : list (string * string)) (file_name : string)
  : gmap (list string) FsNode * ExtractResult :=
  match fs !! dest with
  | Some (FsDir files) =>
      match extract_result env file_name with
      | Extracted => (<[dest := FsDir (store env members file_name files)]> fs, Extracted)
      | other => (fs, other)
      end
  | _ => (fs, ExtractError (strerror env NotADirectoryError dest))
  end.

(** The text of line 195. *)
Definition warning (file_name msg : string) : string :=
  "Warning: Failed to extract " +:+ file_name +:+ ": " +:+ msg.

(** The loop over [file_list] (lines 180-195): the state it leaves, and
    the exception that left it, if one did. The only call of the loop
    that stands outside a handler is the [print] of line 195. *)
Fixpoint extract_all (env : RestoreEnv) (dest : list string)
    (members : list (string * string)) (file_list : list string)
    (st : gmap (list string) FsNode * Counts * list RestoreEffect)
  : gmap (list string) FsNode * Counts * list RestoreEffect * option string :=
  match file_list with
  | [] => (st, None)
  | file_name :: rest =>
      let '(fs, c, effects) := st in
      if skipped_by_extension file_name then
        extract_all env dest members rest
          (fs, mk_Counts (extracted_count c) (skipped_count c + 1) (error_count c), effects)
      else
        match extract env fs dest members file_name with
        | (fs', Extracted) =>
            extract_all env dest members rest
              (fs', mk_Counts (extracted_count c + 1) (skipped_count c) (error_count c),
               effects ++ [RExtract file_name])
        | (fs', PermissionError) =>
            extract_all env dest members rest
              (fs', mk_Counts (extracted_count c) (skipped_count c + 1) (error_count c), effects)
        | (fs', ExtractError msg) =>
            let st' :=
              (fs', mk_Counts (extracted_count c) (skipped_count c) (error_count c + 1),
               effects) in
            match print_error env (warning file_name msg) with
            | Some e => (st', Some e)
            | None => extract_all env dest members rest st'
            end
        end
  end.

Definition newline : string := String (ascii_of_nat 10) EmptyString.

Definition success_message (env : RestoreEnv) (c : Counts) (dest : list string) : string :=
  let message :=
    "Successfully restored " +:+ PyStr.str (extracted_count c) +:+ " file(s) to " +:+
    path_text env dest in
  let message :=
    if (0 <? skipped_count c)%nat
    then message +:+ newline +:+ PyStr.str (skipped_count c) +:+
         " file(s) skipped (executables/locked files)"
    else message in
  if (0 <? error_count c)%nat
  then message +:+ newline +:+ PyStr.str (error_count c) +:+ " file(s) failed to extract"
  else message.

(** The extraction part of [restore_backup] (lines 166-211), on what is
    found at the path of the archive. *)
Definition extract_backup (env : RestoreEnv) (fs : gmap (list string) FsNode)
    (backup_file : list string) (archive : FsNode) (dest : list string)
    (effects : list RestoreEffect)
  : (bool * string) * gmap (list string) FsNode * list RestoreEffect :=
  match archive with
  | FsFile (ZipEntries members) =>
      match extract_all env dest members (map fst members) (fs, mk_Counts 0 0 0, effects) with
      | (fs', c, effects', Some e) =>
          ((false, "Failed to extract backup: " +:+ e), fs', effects')
      | (fs', c, effects', None) =>
          if (extracted_count c =? 0)%nat
          then ((false, "No files were extracted from the backup"), fs', effects')
          else ((true, success_message env c dest), fs', effects')
      end
  | FsFile BadZipFile => ((false, "Backup file is corrupted or invalid"), fs, effects)
  | FsFile (Unreadable msg) => ((false, "Failed to extract backup: " +:+ msg), fs, effects)
  | FsDir _ =>
      ((false, "Failed to extract backup: " +:+ strerror env IsADirectoryError backup_file),
       fs, effects)
  end.

(** [restore_backup(backup_info, destination_path, create_backup)]: the
    pair it returns, the file system it leaves, and its effects. *)
Definition restore_backup (env : RestoreEnv) (fs : gmap (list string) FsNode)
    (backup_info : BackupInfo) (dest_path : list string) (create_backup : bool)
  : (bool * string) * gmap (list string) FsNode * list RestoreEffect :=
  match fs !! filepath backup_info with
  | None =>
      ((false, "Backup file not found: " +:+ path_text env (filepath backup_info)), fs, [])
  | Some archive =>
      match fs !! dest_path with
      | None =>
          ((false, "Destination path does not exist: " +:+ path_text env dest_path), fs, [])
      | Some (FsFile _) =>
          if create_backup
          then ((false, "Restore failed: " +:+ strerror env NotADirectoryError dest_path),
                fs, [])                                       (* iterdir() raises *)
          else extract_backup env fs (filepath backup_info) archive dest_path []
      | Some (FsDir files) =>
          if create_backup && negb (bool_decide (files = ∅)) then
            let backup_dest :=
              PyPath.div (PyPath.parent dest_path)
                (PyPath.name dest_path +:+ "_backup_" +:+ backup_timestamp env) in
            match copytree env fs dest_path backup_dest files with
            | (fs', Raised e) =>
                ((false, "Failed to create backup of existing files: " +:+ e), fs',
                 [RCopytree dest_path backup_dest])
            | (fs', Returned _) =>
                extract_backup env fs' (filepath backup_info) archive dest_path
                  [RCopytree dest_path backup_dest]
            end
          else extract_backup env fs (filepath backup_info) archive dest_path []
      end
  end.

End RestoreService.

(** ** Derived notions used by the statements *)

Module JobFacts.

Import SchedulerService.

(** A call returned. *)
Definition returns {A} (o : Outcome A) : bool :=
  match o with
  | Returned _ => true
  | Raised _ => false
  end.

(** The archive step of a server succeeds: its save path exists, the
    backup directory is made, the archive is written and its size is
    read. *)
Definition archive_ok (env : Env) (schedule : BackupSchedule) (server : ServerConfig) : bool :=
  path_exists env (save_game_path server) &&
  returns (mkdir env (BackupService.archive_dir env server (backup_path schedule))) &&
  returns (write_zip env (save_game_path server)
             (BackupService.archive_path env server (backup_path schedule))) &&
  returns (stat_size env (BackupService.archive_path env server (backup_path schedule))).

(** The cloud step of a server delivers the archive: the schedule names
    a backend, the backend is ready, and the upload returns [True]. *)
Definition cloud_upload_ok (env : Env) (schedule : BackupSchedule) (server : ServerConfig) : bool :=
  let zip := BackupService.archive_path env server (backup_path schedule) in
  match cloud_backup_type schedule with
  | ONEDRIVE =>
      onedrive_is_authenticated env &&
      match onedrive_upload_backup env zip
              (if PyStr.truthy (cloud_backup_path schedule) then cloud_backup_path schedule
               else "WinGSMBackups/" +:+ server_id server) with
      | Returned b => b
      | Raised _ => false
      end
  | GOOGLE_CLOUD =>
      google_is_initialized env &&
      match google_upload_backup env zip
              (if PyStr.truthy (cloud_backup_path schedule)
               then cloud_backup_path schedule +:+ "/" +:+ server_id server
               else server_id server) with
      | Returned b => b
      | Raised _ => false
      end
  | NONE => false
  end.

(** The completion callback, when one is registered, returns. *)
Definition callback_ok (env : Env) : Prop :=
  match backup_completed_callback env with
  | None => True
  | Some callback => forall job, callback job = Returned tt
  end.

(** The effects that stop, archive or restart a server. *)
Definition touches_server (e : Effect) : bool :=
  match e with
  | EStop _ | EStart _ | EArchive _ _ => true
  | _ => false
  end.

Definition is_upload (e : Effect) : bool :=
  match e with
  | EUpload _ _ _ => true
  | _ => false
  end.

(** The result one server contributes to the job, and its effects. *)
Definition server_result (env : Env) (schedule : BackupSchedule) (server : ServerConfig)
  : ServerBackupResult :=
  let result := fst (BackupService.backup_server env server (backup_path schedule)) in
  if success result && enable_cloud_backup schedule && PyStr.truthy (r_backup_path result)
  then fst (cloud_upload env schedule server result)
  else result.

Definition server_effects (env : Env) (schedule : BackupSchedule) (server : ServerConfig)
  : list Effect :=
  let '(result, e_backup) := BackupService.backup_server env server (backup_path schedule) in
  (if is_server_running env (server_id server)
   then [EStop (server_id server); ESleep 5] else []) ++
  e_backup ++
  (if success result && enable_cloud_backup schedule && PyStr.truthy (r_backup_path result)
   then snd (cloud_upload env schedule server result) else []) ++
  (if success result then [EStart (server_id server)] else []).

End JobFacts.

(** ** A concrete installation, used to instantiate the statements *)

Module Demo.

Import SchedulerService.

Definition server (sid : string) : ServerConfig :=
  {| server_id := sid; server_name := "Server" +:+ sid; game_type := "valheim";
     server_path := "C:/gsm/servers/" +:+ sid;
     save_game_path := "C:/gsm/servers/" +:+ sid +:+ "/saves";
     enabled := true |}.

Definition A : ServerConfig := server "1".
Definition B : ServerConfig := server "2".
Definition C : ServerConfig := server "3".

(** The text of a path on the machine of the example: the segments
    joined by backslashes, every slash written as a backslash, and "."
    for the empty path. *)
Fixpoint backslashes (s : string) : string :=
  match s with
  | EmptyString => EmptyString
  | String c s' => String (if Ascii.eqb c "/" then "\"%char else c) (backslashes s')
  end.

Definition windows_path (parts : list string) : string :=
  match PyStr.join "\" (map backslashes parts) with
  | EmptyString => "."
  | String c rest => String c rest
  end.

Definition windows_path_truthy (parts : list string)
  : PyStr.truthy (windows_path parts) = true :=
  match PyStr.join "\" (map backslashes parts) as s
    return PyStr.truthy (match s with EmptyString => "." | String c rest => String c rest end)
           = true
  with
  | EmptyString => eq_refl
  | String _ _ => eq_refl
  end.

(** Server 1 is running, the save directory of server 2 is gone, the
    OneDrive account is not signed in, no callback is registered. *)
Definition env : Env :=
  {| is_server_running := fun sid => String.eqb sid "1";
     stop_server := fun _ => true;
     start_server := fun _ => true;
     path_exists := fun p => negb (String.eqb p "C:/gsm/servers/2/saves");
     strftime_now := fun _ => "2024-03-01_14-30-00";
     path_str := windows_path;
     path_str_truthy := windows_path_truthy;
     mkdir := fun _ => Returned tt;
     write_zip := fun _ _ => Returned tt;
     stat_size := fun _ => Returned 4096;
     onedrive_is_authenticated := false;
     onedrive_upload_backup := fun _ _ => Raised "Not authenticated. Please authenticate first.";
     google_is_initialized := false;
     google_upload_backup := fun _ _ => Raised "Not initialized.";
     config_servers := [A; B; C];
     uuid4 := "0b0e1c4e-6a56-4c53-9f0e-6a3f7f0d2a11";
     now_iso := "2024-03-01T14:30:00";
     now_time := mk_time 14 30 0;
     backup_completed_callback := None |}.

Definition nightly : BackupSchedule :=
  {| schedule_id := "nightly"; name := "Nightly"; server_ids := ["1"; "2"; "3"];
     schedule_type := DAILY; sched_time := mk_time 3 30 0;
     interval_minutes := 60; days_of_week := [];
     sched_enabled := true; backup_path := "D:/backups"; retention_days := 7;
     enable_cloud_backup := true; cloud_backup_type := ONEDRIVE;
     cloud_backup_path := "WinGSMBackups" |}.

(** The service after [start()] and [add_schedule(nightly)]. *)
Definition state : State := fst (add_schedule nightly (start init)).

End Demo.

(** Schedules of the concrete installation that exercise the weekly
    trigger and the re-registration of an edited schedule. *)

Module DemoSchedules.

Import SchedulerService.

Definition weekly (sid : string) (days : list nat) : BackupSchedule :=
  {| schedule_id := sid; name := "Weekly"; server_ids := ["1"];
     schedule_type := WEEKLY; sched_time := mk_time 3 30 0;
     interval_minutes := 60; days_of_week := days;
     sched_enabled := true; backup_path := "D:/backups"; retention_days := 7;
     enable_cloud_backup := false; cloud_backup_type := NONE;
     cloud_backup_path := "WinGSMBackups" |}.

(** Every Monday at 03:30. *)
Definition mondays : BackupSchedule := weekly "mondays" [0].

(** Every Sunday at 03:30. *)
Definition sundays : BackupSchedule := weekly "sundays" [6].

(** [Demo.nightly] after an edit: same id, another time of day and
    another backup root. *)
Definition nightly_edited : BackupSchedule :=
  {| schedule_id := "nightly"; name := "Nightly"; server_ids := ["1"; "2"; "3"];
     schedule_type := DAILY; sched_time := mk_time 4 45 0;
     interval_minutes := 60; days_of_week := [];
     sched_enabled := true; backup_path := "E:/backups"; retention_days := 7;
     enable_cloud_backup := true; cloud_backup_type := ONEDRIVE;
     cloud_backup_path := "WinGSMBackups" |}.

End DemoSchedules.

(** A string without a given character. *)
Fixpoint char_free (c : ascii) (s : string) : bool :=
  match s with
  | EmptyString => true
  | String a s' => negb (Ascii.eqb a c) && char_free c s'
  end.

(** ** The jobs of a stopped scheduler *)

Module SchedulerFacts.

Import APScheduler.

(** The registrations of a job id that wait for the scheduler to start. *)
Definition pending_of (sch : BackgroundScheduler) (jid : string) : list Job :=
  filter (fun j => String.eqb (id j) jid) (pending_jobs sch).

End SchedulerFacts.

(** ** Retention: what is left of a backup tree *)

Module RetentionFacts.

Import BackupService.

(** The snapshot entries of a backup tree, each with the name of its
    server directory. *)
Definition snapshots (root : option (list RootEntry)) : list (string * SnapshotEntry) :=
  match root with
  | None => []
  | Some entries =>
      flat_map
        (fun e =>
           match e with
           | ServerDir d snaps => map (fun s => (d, s)) snaps
           | _ => []
           end)
        entries
  end.

(** No entry of the tree stops the sweep: every entry tells whether it
    is a directory and every server directory can be listed. *)
Definition snapshot_readable (s : SnapshotEntry) : bool :=
  match s with
  | SnapUnreadable _ => false
  | _ => true
  end.

Definition readable (entries : list RootEntry) : bool :=
  forallb
    (fun e =>
       match e with
       | RootFile _ => true
       | ServerDir _ snaps => forallb snapshot_readable snaps
       | RootUnreadable _ => false
       end)
    entries.

(** Seconds in [d] days. *)
Definition days (d : Z) : Q := inject_Z (d * 24 * 60 * 60).

End RetentionFacts.

(** ** Restore: notions used by the statements *)

Module RestoreFacts.

Import Datetime RestoreService.

(** [strptime] raised. *)
Definition raised {A} (o : Outcome A) : Prop :=
  match o with
  | Raised _ => True
  | Returned _ => False
  end.

(** The first attempt that succeeds, if there is one. *)
Fixpoint first_parsed (attempts : list (Outcome datetime)) : option datetime :=
  match attempts with
  | [] => None
  | Returned dt :: _ => Some dt
  | Raised _ :: rest => first_parsed rest
  end.

(** How often a character occurs in a text. *)
Fixpoint count_char (c : ascii) (s : string) : nat :=
  match s with
  | EmptyString => 0
  | String a s' => (if Ascii.eqb a c then 1 else 0) + count_char c s'
  end.

(** A name matches "*.zip" (case-sensitive file systems). *)
Definition glob_zip (fname : string) : bool := PyStr.endswith fname ".zip".

(** A backup tree with one server directory holding the given files,
    each of 1 KiB. *)
Definition tree_of (sid : string) (fnames : list string) : list Node :=
  [Dir sid (Returned 0) (map (fun f => File f (Returned 1024)) fnames)].

End RestoreFacts.

Module RestoreRun.

Import RestoreService.

(** The components of what [restore_backup] gives. *)
Definition ok (r : (bool * string) * gmap (list string) FsNode * list RestoreEffect) : bool :=
  fst (fst (fst r)).
Definition msg (r : (bool * string) * gmap (list string) FsNode * list RestoreEffect) : string :=
  snd (fst (fst r)).
Definition fs_after (r : (bool * string) * gmap (list string) FsNode * list RestoreEffect)
  : gmap (list string) FsNode := snd (fst r).
Definition effects (r : (bool * string) * gmap (list string) FsNode * list RestoreEffect)
  : list RestoreEffect := snd r.

(** The file of that relative name in a directory of a file system. *)
Definition file_at (fs : gmap (list string) FsNode) (dir : list string) (k : string)
  : option string :=
  match fs !! dir with
  | Some (FsDir files) => files !! k
  | _ => None
  end.

Definition is_extract (e : RestoreEffect) : bool :=
  match e with
  | RExtract _ => true
  | RCopytree _ _ => false
  end.

(** The members written into the destination. *)
Definition extracted (l : list RestoreEffect) : nat := length (filter (fun e => is_extract e) l).

(** The sibling directory of the safety copy. *)
Definition backup_dest (env : RestoreEnv) (dest_path : list string) : list string :=
  PyPath.div (PyPath.parent dest_path)
    (PyPath.name dest_path +:+ "_backup_" +:+ backup_timestamp env).

(** The safety copy cannot be made: the sibling exists already, or the
    copy meets an I/O error. *)
Definition copy_fails (env : RestoreEnv) (fs : gmap (list string) FsNode)
    (dest_path : list string) : Prop :=
  is_Some (fs !! backup_dest env dest_path) \/ is_Some (copytree_error env).

(** An entry that the loop stores when it reaches it: its extension is
    not skip-listed and [zip_ref.extract] returns. *)
Definition extractable (env : RestoreEnv) (file_name : string) : bool :=
  negb (skipped_by_extension file_name) &&
  match extract_result env file_name with
  | Extracted => true
  | _ => false
  end.

(** An entry at which the loop ends: its extension is not skip-listed,
    storing it raises something else than PermissionError, and the
    warning cannot be printed. *)
Definition aborting (env : RestoreEnv) (file_name : string) : bool :=
  negb (skipped_by_extension file_name) &&
  match extract_result env file_name with
  | ExtractError msg => bool_decide (is_Some (print_error env (warning file_name msg)))
  | _ => false
  end.

(** The loop runs to the end of the list. *)
Definition completes (env : RestoreEnv) (file_list : list string) : bool :=
  forallb (fun n => negb (aborting env n)) file_list.

(** The entries the loop reaches: all of them, or those up to the one at
    which it ends. *)
Fixpoint reached (env : RestoreEnv) (file_list : list string) : list string :=
  match file_list with
  | [] => []
  | n :: rest => if aborting env n then [n] else n :: reached env rest
  end.

(** The entries the loop stores, in order, and those of them for which
    a file is written. *)
Definition extracted_names (env : RestoreEnv) (file_list : list string) : list string :=
  filter (fun n => extractable env n) (reached env file_list).

Definition written (env : RestoreEnv) (file_list : list string) : list string :=
  filter (fun n => negb (is_dir n)) (extracted_names env file_list).

(** The files of a directory after these entries were stored in it. *)
Definition stored (env : RestoreEnv) (members : list (string * string))
    (files : gmap string string) (names : list string) : gmap string string :=
  fold_left (fun fl n => store env members n fl) names files.

(** The name cleaning of [ZipFile.extract] for names made of plain
    characters: the parts "", "." and ".." are dropped and the others
    are joined by the separator of the platform. *)
Definition clean_name (sep : string) (file_name : string) : string :=
  PyStr.join sep
    (filter (fun part => negb (bool_decide (part ∈ [""; "."; ".."])))
       (PyStr.split "/" file_name)).

(** A destination with one save file and one executable, an archive of
    the save directory beside it, and an archive that holds only
    executables and scripts. *)
Definition dest : list string := ["C:"; "gsm"; "servers"; "1"; "saves"].
Definition archive : list string := ["D:"; "backups"; "1"; "Server1_2024-03-01_14-30-00.zip"].
Definition exe_archive : list string := ["D:"; "backups"; "1"; "Server1_2024-03-02_14-30-00.zip"].

Definition demo_fs : gmap (list string) FsNode :=
  <[dest := FsDir (<["world.db" := "day 12"]> (<["server.exe" := "v1"]> ∅))]>
  (<[archive := FsFile (ZipEntries [("world.db", "day 11"); ("server.exe", "v0")])]>
  (<[exe_archive := FsFile (ZipEntries [("server.exe", "v0"); ("Start.BAT", "run")])]> ∅)).

Definition info (path : list string) : BackupInfo :=
  mk_BackupInfo path "1" "Server1" None 2048.

Definition demo_strerror (e : OsError) (p : list string) : string :=
  match e with
  | FileExistsError =>
      "[WinError 183] Cannot create a file when that file already exists: '" +:+
      PyStr.join "\" p +:+ "'"
  | NotADirectoryError =>
      "[WinError 267] The directory name is invalid: '" +:+ PyStr.join "\" p +:+ "'"
  | IsADirectoryError =>
      "[Errno 13] Permission denied: '" +:+ PyStr.join "\" p +:+ "'"
  end.

Definition demo_env : RestoreEnv :=
  {| backup_timestamp := "20240303_090000";
     path_text := PyStr.join "\";
     strerror := demo_strerror;
     copytree_error := None;
     arcname := clean_name "\";
     extract_result := fun _ => Extracted;
     print_error := fun _ => None |}.





(** An archive whose entry is stored over the executable of the
    destination: the name of the entry does not end in ".exe", its
    cleaned name is "server.exe". *)
Definition odd_archive : list string := ["D:"; "backups"; "1"; "Server1_2024-03-05_14-30-00.zip"].

Definition odd_fs : gmap (list string) FsNode :=
  <[odd_archive := FsFile (ZipEntries [("server.exe/.", "patched")])]> demo_fs.

End RestoreRun.

(** Variants of the concrete installation. *)

Module DemoVariants.

(** Every server is running when the job starts. *)
Definition env_all_running : Env :=
  {| is_server_running := fun _ => true;
     stop_server := stop_server Demo.env;
     start_server := start_server Demo.env;
     path_exists := path_exists Demo.env;
     strftime_now := strftime_now Demo.env;
     path_str := path_str Demo.env;
     path_str_truthy := path_str_truthy Demo.env;
     mkdir := mkdir Demo.env;
     write_zip := write_zip Demo.env;
     stat_size := stat_size Demo.env;
     onedrive_is_authenticated := onedrive_is_authenticated Demo.env;
     onedrive_upload_backup := onedrive_upload_backup Demo.env;
     google_is_initialized := google_is_initialized Demo.env;
     google_upload_backup := google_upload_backup Demo.env;
     config_servers := config_servers Demo.env;
     uuid4 := uuid4 Demo.env;
     now_iso := now_iso Demo.env;
     now_time := now_time Demo.env;
     backup_completed_callback := None |}.

(** The completion callback raises (the window it reports to is gone). *)
Definition env_callback_raises : Env :=
  {| is_server_running := is_server_running Demo.env;
     stop_server := stop_server Demo.env;
     start_server := start_server Demo.env;
     path_exists := fun _ => true;
     strftime_now := strftime_now Demo.env;
     path_str := path_str Demo.env;
     path_str_truthy := path_str_truthy Demo.env;
     mkdir := mkdir Demo.env;
     write_zip := write_zip Demo.env;
     stat_size := stat_size Demo.env;
     onedrive_is_authenticated := onedrive_is_authenticated Demo.env;
     onedrive_upload_backup := onedrive_upload_backup Demo.env;
     google_is_initialized := google_is_initialized Demo.env;
     google_upload_backup := google_upload_backup Demo.env;
     config_servers := config_servers Demo.env;
     uuid4 := uuid4 Demo.env;
     now_iso := now_iso Demo.env;
     now_time := now_time Demo.env;
     backup_completed_callback := Some (fun _ => Raised "main thread is not in main loop") |}.

(** The service with the Monday schedule (no cloud backup) registered. *)
Definition state_mondays : SchedulerService.State :=
  fst (SchedulerService.add_schedule DemoSchedules.mondays
         (SchedulerService.start SchedulerService.init)).

(** The nightly schedule registered twice (the second time with its
    edited definition) before the scheduler was ever started. *)
Definition state_stopped_twice : SchedulerService.State :=
  fst (SchedulerService.add_schedule DemoSchedules.nightly_edited
         (fst (SchedulerService.add_schedule Demo.nightly SchedulerService.init))).

End DemoVariants.

Module EffectFacts.

Definition is_cleanup (e : Effect) : bool :=
  match e with
  | ECleanup _ _ => true
  | _ => false
  end.

Definition is_callback (e : Effect) : bool :=
  match e with
  | ECallback _ => true
  | _ => false
  end.

End EffectFacts.

(** ** The rest of the restore service *)

Module RestoreMore.

Import RestoreService.

(** [delete_backup(backup_info)]: the pair it returns and the file
    system it leaves. [unlink_error] is the OSError that removing the
    file meets, if any; unlinking a directory always raises. *)
Definition delete_backup (unlink_error : option string) (fs : gmap (list string) FsNode)
    (backup_info : BackupInfo) : (bool * string) * gmap (list string) FsNode :=
  match fs !! filepath backup_info with
  | Some (FsFile _) =>
      match unlink_error with
      | None =>
          ((true, "Deleted backup: " +:+ PyPath.name (filepath backup_info)),
           delete (filepath backup_info) fs)
      | Some e => ((false, "Failed to delete backup: " +:+ e), fs)
      end
  | Some (FsDir _) => ((false, "Failed to delete backup: Is a directory"), fs)
  | None => ((false, "Backup file not found"), fs)
  end.

(** [get_backup_contents(backup_info)]: the member names, or the empty
    list when the archive cannot be opened. *)
Definition get_backup_contents (fs : gmap (list string) FsNode) (backup_info : BackupInfo)
  : list string :=
  match fs !! filepath backup_info with
  | Some (FsFile (ZipEntries members)) => map fst members
  | _ => []
  end.

(** The members a loop has accounted for. *)
Definition total (c : Counts) : nat :=
  extracted_count c + skipped_count c + error_count c.

(** The counts a loop ends with, and the exception that ended it. *)
Definition counts_of
    (r : gmap (list string) FsNode * Counts * list RestoreEffect * option string) : Counts :=
  snd (fst (fst r)).
Definition exit_of
    (r : gmap (list string) FsNode * Counts * list RestoreEffect * option string)
  : option string := snd r.

End RestoreMore.

(** ** Writing a timestamp: [strftime] *)

Module Strftime.

Import Datetime.

(** A decimal digit as a character. *)
Definition digit_char (n : nat) : ascii := ascii_of_nat (48 + n).

(** [%m], [%d], [%H], [%M], [%S]: two digits, zero-padded. *)
Definition pad2 (v : nat) : string :=
  String (digit_char (v / 10)) (String (digit_char (v mod 10)) EmptyString).

(** [%Y] for a year of four digits. *)
Definition pad4 (v : nat) : string :=
  String (digit_char (v / 1000))
    (String (digit_char (v / 100 mod 10))
       (String (digit_char (v / 10 mod 10))
          (String (digit_char (v mod 10)) EmptyString))).

Definition date_part (dt : datetime) : string :=
  pad4 (year dt) +:+ "-" +:+ pad2 (month dt) +:+ "-" +:+ pad2 (day dt).

Definition time_part (dt : datetime) : string :=
  pad2 (dt_hour dt) +:+ "-" +:+ pad2 (dt_minute dt) +:+ "-" +:+ pad2 (dt_second dt).

(** [dt.strftime("%Y-%m-%d_%H-%M-%S")], the timestamp that
    [backup_server] puts in the directory and file name of an archive. *)
Definition strftime_dashed (dt : datetime) : string :=
  date_part dt +:+ "_" +:+ time_part dt.

(** The first alternative of a field that matches the start of the text. *)
Fixpoint first_alt (alts : list (list CharClass)) (s : string) : option (nat * string) :=
  match alts with
  | [] => None
  | alt :: alts' =>
      match match_class_seq alt 0 s with
      | Some r => Some r
      | None => first_alt alts' s
      end
  end.

End Strftime.

(** ** Documents of the data model (models.py, [to_dict] / [from_dict])

    A document is a dictionary from keys to JSON values. The records of
    the model are typed, so [from_dict] is given for the documents whose
    present keys hold a value of the type the application writes there;
    for another document it answers [None] (Python would store the
    foreign value in the field as it is). A [time] is a time of day at
    whole seconds. *)

Module ModelsDict.

Import Datetime Strftime.

Inductive PyValue :=
  | VStr (s : string)
  | VInt (n : nat)
  | VBool (b : bool)
  | VStrList (l : list string)
  | VIntList (l : list nat).

(** [data.get(key, default)] at each type. *)
Definition get_str (data : gmap string PyValue) (key dflt : string) : option string :=
  match data !! key with
  | None => Some dflt
  | Some (VStr s) => Some s
  | Some _ => None
  end.

Definition get_int (data : gmap string PyValue) (key : string) (dflt : nat) : option nat :=
  match data !! key with
  | None => Some dflt
  | Some (VInt n) => Some n
  | Some _ => None
  end.

Definition get_bool (data : gmap string PyValue) (key : string) (dflt : bool) : option bool :=
  match data !! key with
  | None => Some dflt
  | Some (VBool b) => Some b
  | Some _ => None
  end.

Definition get_str_list (data : gmap string PyValue) (key : string) : option (list string) :=
  match data !! key with
  | None => Some []
  | Some (VStrList l) => Some l
  | Some _ => None
  end.

Definition get_int_list (data : gmap string PyValue) (key : string) : option (list nat) :=
  match data !! key with
  | None => Some []
  | Some (VIntList l) => Some l
  | Some _ => None
  end.

(** [ServerConfig.to_dict] *)
Definition ServerConfig_to_dict (s : ServerConfig) : gmap string PyValue :=
  <["server_id" := VStr (server_id s)]>
  (<["server_name" := VStr (server_name s)]>
  (<["game_type" := VStr (game_type s)]>
  (<["server_path" := VStr (server_path s)]>
  (<["save_game_path" := VStr (save_game_path s)]>
  (<["enabled" := VBool (enabled s)]> ∅))))).

(** [ServerConfig.from_dict] *)
Definition ServerConfig_from_dict (data : gmap string PyValue) : option ServerConfig :=
  sid ← get_str data "server_id" "";
  sname ← get_str data "server_name" "";
  gt ← get_str data "game_type" "";
  sp ← get_str data "server_path" "";
  sgp ← get_str data "save_game_path" "";
  en ← get_bool data "enabled" true;
  Some (mk_ServerConfig sid sname gt sp sgp en).

(** The values of the enumerations, and their constructors from a
    value, which raise ValueError on any other string. *)
Definition ScheduleType_value (t : ScheduleType) : string :=
  match t with DAILY => "daily" | WEEKLY => "weekly" | INTERVAL => "interval" end.

Definition ScheduleType_of (v : string) : Outcome ScheduleType :=
  if String.eqb v "daily" then Returned DAILY
  else if String.eqb v "weekly" then Returned WEEKLY
  else if String.eqb v "interval" then Returned INTERVAL
  else Raised (v +:+ " is not a valid ScheduleType").

Definition CloudBackupType_value (t : CloudBackupType) : string :=
  match t with NONE => "none" | ONEDRIVE => "onedrive" | GOOGLE_CLOUD => "google_cloud" end.

Definition CloudBackupType_of (v : string) : Outcome CloudBackupType :=
  if String.eqb v "none" then Returned NONE
  else if String.eqb v "onedrive" then Returned ONEDRIVE
  else if String.eqb v "google_cloud" then Returned GOOGLE_CLOUD
  else Raised (v +:+ " is not a valid CloudBackupType").

(** [t.strftime("%H:%M:%S")] *)
Definition time_strftime (t : time) : string :=
  pad2 (hour t) +:+ ":" +:+ pad2 (minute t) +:+ ":" +:+ pad2 (second t).

(** "%H:%M:%S" *)
Definition format_time : list Item := [re_H; Lit ":"; re_M; Lit ":"; re_S].

(** [datetime.strptime(text, "%H:%M:%S").time()] *)
Definition time_strptime (text : string) : Outcome time :=
  match match_items format_time text with
  | [] => Raised "time data does not match format"
  | (vs, rest) :: _ =>
      match rest with
      | String _ _ => Raised "unconverted data remains"
      | EmptyString =>
          match vs with
          | [h; m; s] =>
              if (s <=? 59)%nat then Returned (mk_time h m s)
              else Raised "second must be in 0..59"
          | _ => Raised "time data does not match format"
          end
      end
  end.

(** [BackupSchedule.to_dict] *)
Definition BackupSchedule_to_dict (s : BackupSchedule) : gmap string PyValue :=
  <["schedule_id" := VStr (schedule_id s)]>
  (<["name" := VStr (name s)]>
  (<["server_ids" := VStrList (server_ids s)]>
  (<["schedule_type" := VStr (ScheduleType_value (schedule_type s))]>
  (<["time" := VStr (time_strftime (sched_time s))]>
  (<["interval_minutes" := VInt (interval_minutes s)]>
  (<["days_of_week" := VIntList (days_of_week s)]>
  (<["enabled" := VBool (sched_enabled s)]>
  (<["backup_path" := VStr (backup_path s)]>
  (<["retention_days" := VInt (retention_days s)]>
  (<["enable_cloud_backup" := VBool (enable_cloud_backup s)]>
  (<["cloud_backup_type" := VStr (CloudBackupType_value (cloud_backup_type s))]>
  (<["cloud_backup_path" := VStr (cloud_backup_path s)]> ∅)))))))))))).

(** [BackupSchedule.from_dict]; [now] is the time of day of the call,
    taken when the "time" entry is not a string. *)
Definition BackupSchedule_from_dict (now : time) (data : gmap string PyValue)
  : option (Outcome BackupSchedule) :=
  let time_obj :=
    match data !! "time" with
    | None => time_strptime "00:00:00"
    | Some (VStr time_str) => time_strptime time_str
    | Some _ => Returned now
    end in
  sid ← get_str data "schedule_id" "";
  nm ← get_str data "name" "";
  ids ← get_str_list data "server_ids";
  ty ← get_str data "schedule_type" "daily";
  im ← get_int data "interval_minutes" 60;
  dow ← get_int_list data "days_of_week";
  en ← get_bool data "enabled" true;
  bp ← get_str data "backup_path" "";
  rd ← get_int data "retention_days" 7;
  ecb ← get_bool data "enable_cloud_backup" false;
  cbt ← get_str data "cloud_backup_type" "none";
  cbp ← get_str data "cloud_backup_path" "WinGSMBackups";
  Some
    match time_obj with
    | Raised m => Raised m
    | Returned t =>
        match ScheduleType_of ty with
        | Raised m => Raised m
        | Returned schedule_type =>
            match CloudBackupType_of cbt with
            | Raised m => Raised m
            | Returned cloud_type =>
                Returned (mk_BackupSchedule sid nm ids schedule_type t im dow en bp rd
                            ecb cloud_type cbp)
            end
        end
    end.

End ModelsDict.
(** * Properties *)

(** ** Lists *)

Lemma filter_cons_bool {A} (p : A -> bool) (x : A) (l : list A) :
  filter (fun y => p y) (x :: l) =
  if p x then x :: filter (fun y => p y) l else filter (fun y => p y) l.
Proof. rewrite filter_cons. by destruct (p x). Qed.

(** ** Strings *)

Lemma string_app_nil_r (s : string) : s +:+ "" = s.
Proof. induction s as [|c s IH]; [done|]. change (String c (s +:+ "") = String c s). by f_equal. Qed.

Lemma split_nonempty sep s : PyStr.split sep s <> [].
Proof.
  destruct s as [|c s]; [done|]. cbn [PyStr.split].
  destruct (Ascii.eqb c sep); [done|]. by destruct (PyStr.split sep s).
Qed.

(** Splitting at a separator splits the two sides independently. *)
Lemma split_app_sep sep a b :
  PyStr.split sep (a +:+ String sep b) = PyStr.split sep a ++ PyStr.split sep b.
Proof.
  induction a as [|c a IH].
  - change (EmptyString +:+ String sep b) with (String sep b).
    cbn [PyStr.split]. by rewrite Ascii.eqb_refl.
  - change (String c a +:+ String sep b) with (String c (a +:+ String sep b)).
    cbn [PyStr.split]. rewrite IH.
    destruct (Ascii.eqb c sep); [done|].
    pose proof (split_nonempty sep a). by destruct (PyStr.split sep a).
Qed.

Lemma string_app_assoc (a b c : string) : (a +:+ b) +:+ c = a +:+ (b +:+ c).
Proof.
  induction a as [|x a IH]; [done|].
  change (String x ((a +:+ b) +:+ c) = String x (a +:+ (b +:+ c))). by f_equal.
Qed.

Lemma char_free_app c a b :
  char_free c (a +:+ b) = char_free c a && char_free c b.
Proof.
  induction a as [|x a IH]; [done|].
  change (char_free c (String x (a +:+ b)) = char_free c (String x a) && char_free c b).
  cbn [char_free]. by rewrite IH, andb_assoc.
Qed.

Lemma nth_last_two {A} (l : list A) (x y d : A) :
  nth (length (l ++ [x; y]) - 2) (l ++ [x; y]) d = x /\
  nth (length (l ++ [x; y]) - 1) (l ++ [x; y]) d = y.
Proof.
  rewrite length_app. cbn [length].
  replace (length l + 2 - 2) with (length l + 0) by lia.
  replace (length l + 2 - 1) with (length l + 1) by lia.
  split; rewrite app_nth2_plus; reflexivity.
Qed.


(** ** The job executor *)

Section JobExecutor.

Import SchedulerService JobFacts.

Context (env : Env) (schedule : BackupSchedule).

Lemma update_last_snoc {A} (f : A -> A) (l : list A) (x : A) :
  update_last f (l ++ [x]) = l ++ [f x].
Proof.
  unfold update_last.
  destruct (l ++ [x]) eqn:E.
  - by destruct l.
  - rewrite <- E. rewrite length_app. simpl.
    replace (length l + 1 - 1) with (length l + 0) by lia.
    by rewrite alter_app_r.
Qed.

(** One turn of the loop appends one result and the server's effects. *)
Lemma backup_one_eq results effects server :
  backup_one env schedule (results, effects) server =
  (results ++ [server_result env schedule server],
   effects ++ server_effects env schedule server).
Proof.
  unfold backup_one, server_result, server_effects.
  destruct (BackupService.backup_server env server (backup_path schedule)) as [result e_backup].
  simpl.
  destruct (success result && enable_cloud_backup schedule && PyStr.truthy (r_backup_path result)).
  - destruct (cloud_upload env schedule server result) as [result' e]. simpl.
    by rewrite update_last_snoc.
  - done.
Qed.

(** The loop: one result per enabled server, in the order of the list,
    whatever happened to the servers before it. *)
Lemma backup_loop_eq servers results effects :
  fold_left (backup_one env schedule) servers (results, effects) =
  (results ++ map (server_result env schedule) servers,
   effects ++ flat_map (server_effects env schedule) servers).
Proof.
  revert results effects.
  induction servers as [|s servers IH]; intros results effects; cbn [fold_left map flat_map].
  - by rewrite !app_nil_r.
  - rewrite backup_one_eq, IH. by rewrite <- !app_assoc.
Qed.

Lemma backup_server_missing server :
  path_exists env (save_game_path server) = false ->
  success (fst (BackupService.backup_server env server (backup_path schedule))) = false.
Proof. intros H. unfold BackupService.backup_server. by rewrite H. Qed.

Lemma archive_path_truthy server root :
  PyStr.truthy (BackupService.archive_path env server root) = true.
Proof. apply path_str_truthy. Qed.

Lemma backup_server_ok server :
  archive_ok env schedule server = true ->
  exists size,
    BackupService.backup_server env server (backup_path schedule) =
    ({| r_server_id := server_id server; r_server_name := server_name server;
        success := true;
        r_backup_path := BackupService.archive_path env server (backup_path schedule);
        r_cloud_backup_path := ""; cloud_backup_success := false;
        error_message := ""; backup_size_bytes := size |},
     [EArchive (save_game_path server)
        (BackupService.archive_path env server (backup_path schedule))]).
Proof.
  unfold archive_ok, BackupService.backup_server. intros H.
  apply andb_prop in H as [H Hs]. apply andb_prop in H as [H Hz].
  apply andb_prop in H as [Hp Hm]. rewrite Hp. cbn [negb].
  destruct (mkdir env _); [|done].
  destruct (write_zip env _ _); [|done].
  destruct (stat_size env _) as [size|]; [|done].
  by exists size.
Qed.

Lemma cloud_upload_success server result :
  success (fst (cloud_upload env schedule server result)) = success result.
Proof.
  unfold cloud_upload.
  repeat (case_match; simpl; try done).
Qed.

Lemma cloud_upload_id server result :
  r_server_id (fst (cloud_upload env schedule server result)) = r_server_id result.
Proof.
  unfold cloud_upload.
  repeat (case_match; simpl; try done).
Qed.

Lemma server_result_id server :
  r_server_id (server_result env schedule server) = server_id server.
Proof.
  unfold server_result. case_match.
  - rewrite cloud_upload_id. unfold BackupService.backup_server.
    repeat (case_match; simpl; try done).
  - unfold BackupService.backup_server.
    repeat (case_match; simpl; try done).
Qed.

Lemma server_result_success server :
  success (server_result env schedule server) = archive_ok env schedule server.
Proof.
  unfold server_result. 
  assert (success (fst (BackupService.backup_server env server (backup_path schedule)))
          = archive_ok env schedule server) as Hs.
  { unfold archive_ok, BackupService.backup_server.
    destruct (path_exists env (save_game_path server)); cbn [negb andb]; [|done].
    destruct (mkdir env _); [|done].
    destruct (write_zip env _ _); [|done].
    by destruct (stat_size env _). }
  case_match; [rewrite cloud_upload_success|]; done.
Qed.

End JobExecutor.

Section JobRun.

Import SchedulerService JobFacts.

Context (env : Env) (st : State) (sid : string) (servers : option (list ServerConfig)).

Let schedule := resolve_schedule env st sid.
Let targets := enabled_servers schedule (resolve_servers env servers).
Let run := execute_backup_async env st sid servers.

(** The job carries one result per enabled server, in registry order. *)
Lemma execute_results :
  server_results (fst run) = map (server_result env schedule) targets.
Proof.
  subst run targets schedule. unfold execute_backup_async.
  rewrite backup_loop_eq. simpl.
  destruct (backup_completed_callback env) as [callback|]; [|done].
  by destruct (callback _).
Qed.

(** The effects of the job: those of the servers in order, the retention
    sweep, then the delivery to the callback when one is registered. *)
Lemma execute_effects :
  exists tail,
    snd run = flat_map (server_effects env schedule) targets ++
              ECleanup (backup_path schedule) (retention_days schedule) :: tail /\
    Forall (fun e => touches_server e = false) tail.
Proof.
  subst run targets schedule. unfold execute_backup_async.
  rewrite backup_loop_eq. simpl.
  destruct (backup_completed_callback env) as [callback|].
  - destruct (callback _); eexists; split; try reflexivity; by repeat constructor.
  - eexists; split; try reflexivity. constructor.
Qed.

(** A job with a failed result is failed, whatever the callback does. *)
Lemma execute_status_failed :
  forallb success (map (server_result env schedule) targets) = false ->
  status (fst run) = FAILED.
Proof.
  intros Hf. subst run targets schedule. unfold execute_backup_async.
  rewrite backup_loop_eq. simpl. rewrite Hf.
  destruct (backup_completed_callback env) as [callback|]; [|done].
  by destruct (callback _).
Qed.

(** A job whose results all succeeded is completed once the callback
    has returned. *)
Lemma execute_status_completed :
  forallb success (map (server_result env schedule) targets) = true ->
  callback_ok env ->
  status (fst run) = COMPLETED.
Proof.
  intros Hf Hcb. subst run targets schedule. unfold execute_backup_async.
  rewrite backup_loop_eq. simpl. rewrite Hf.
  unfold callback_ok in Hcb.
  destruct (backup_completed_callback env) as [callback|]; [|done].
  by rewrite Hcb.
Qed.

End JobRun.

(** An unknown schedule id targets no server: the fallback schedule has
    no server ids. *)
Lemma fallback_targets_nothing env st sid l :
  SchedulerService.get_schedule sid st = None ->
  SchedulerService.enabled_servers (SchedulerService.resolve_schedule env st sid) l = [].
Proof.
  intros H. unfold SchedulerService.resolve_schedule. rewrite H.
  unfold SchedulerService.enabled_servers. simpl.
  induction l as [|s l IH]; [done|].
  rewrite filter_cons, IH. by case_decide.
Qed.

(** The effects of a server whose archive step succeeds: an optional
    stop, the archive, the uploads of the cloud step, the restart. *)
Lemma server_effects_ok env schedule server :
  JobFacts.archive_ok env schedule server = true ->
  exists stop upload,
    JobFacts.server_effects env schedule server =
      stop ++ [EArchive (save_game_path server)
                 (BackupService.archive_path env server (backup_path schedule))] ++
      upload ++ [EStart (server_id server)] /\
    forallb JobFacts.is_upload upload = true.
Proof.
  intros Hok. destruct (backup_server_ok env schedule server Hok) as [size Hb].
  unfold JobFacts.server_effects. rewrite Hb. cbn [success r_backup_path].
  eexists _, _. split; [reflexivity|].
  destruct (true && enable_cloud_backup schedule && _); [|done].
  unfold SchedulerService.cloud_upload.
  repeat (case_match; simpl; try done).
Qed.

(** The cloud step reports the upload, and nothing else, on the result. *)
Lemma server_result_cloud env schedule server :
  JobFacts.archive_ok env schedule server = true ->
  enable_cloud_backup schedule = true ->
  cloud_backup_success (JobFacts.server_result env schedule server) =
  JobFacts.cloud_upload_ok env schedule server.
Proof.
  intros Hok Hcloud. destruct (backup_server_ok env schedule server Hok) as [size Hb].
  unfold JobFacts.server_result. rewrite Hb. cbn [fst success r_backup_path].
  rewrite Hcloud, archive_path_truthy. cbn [andb].
  unfold SchedulerService.cloud_upload, JobFacts.cloud_upload_ok. cbn [r_backup_path].
  destruct (cloud_backup_type schedule); [done| |].
  - destruct (onedrive_is_authenticated env); [|done]. cbn [andb].
    by destruct (onedrive_upload_backup env _ _).
  - destruct (google_is_initialized env); [|done]. cbn [andb].
    by destruct (google_upload_backup env _ _).
Qed.

(** C1. Partial-failure isolation: when a job targets the enabled
    servers [A; B; C], the save path of [B] does not exist and the
    archive steps of [A] and [C] succeed, the job carries exactly three
    results, in server order, [B]'s failed and [A]'s and [C]'s
    successful, its status is failed, and [C] is archived and restarted
    although [B] failed before it. *)
Theorem partial_failure_isolation
    (env : Env) (st : SchedulerService.State) (sid : string)
    (servers : option (list ServerConfig)) (A B C : ServerConfig) :
  SchedulerService.enabled_servers (SchedulerService.resolve_schedule env st sid)
    (SchedulerService.resolve_servers env servers) = [A; B; C] ->
  path_exists env (save_game_path B) = false ->
  JobFacts.archive_ok env (SchedulerService.resolve_schedule env st sid) A = true ->
  JobFacts.archive_ok env (SchedulerService.resolve_schedule env st sid) C = true ->
  map r_server_id (server_results (fst (SchedulerService.execute_backup_async env st sid servers)))
    = [server_id A; server_id B; server_id C] /\
  map success (server_results (fst (SchedulerService.execute_backup_async env st sid servers)))
    = [true; false; true] /\
  status (fst (SchedulerService.execute_backup_async env st sid servers)) = FAILED /\
  EArchive (save_game_path C)
    (BackupService.archive_path env C
       (backup_path (SchedulerService.resolve_schedule env st sid)))
    ∈ snd (SchedulerService.execute_backup_async env st sid servers) /\
  EStart (server_id C) ∈ snd (SchedulerService.execute_backup_async env st sid servers).
Proof.
  intros Htargets HB HA HC.
  assert (JobFacts.archive_ok env (SchedulerService.resolve_schedule env st sid) B = false) as HB'.
  { unfold JobFacts.archive_ok. by rewrite HB. }
  pose proof (execute_results env st sid servers) as Hres.
  rewrite Htargets in Hres. cbn [map] in Hres.
  split; [|split; [|split]].
  - rewrite Hres. cbn [map]. by rewrite !server_result_id.
  - rewrite Hres. cbn [map]. by rewrite !server_result_success, HA, HB', HC.
  - apply execute_status_failed. rewrite Htargets. cbn [map forallb].
    by rewrite !server_result_success, HA, HB', HC.
  - destruct (execute_effects env st sid servers) as (tail & -> & _).
    rewrite Htargets. cbn [flat_map].
    destruct (server_effects_ok env _ C HC) as (stop & upload & -> & _).
    rewrite !elem_of_app, !elem_of_cons. split; left; right; right; left; tauto.
Qed.

Lemma partial_failure_isolation_witness :
  SchedulerService.enabled_servers
    (SchedulerService.resolve_schedule Demo.env Demo.state "nightly")
    (SchedulerService.resolve_servers Demo.env (Some [Demo.A; Demo.B; Demo.C]))
    = [Demo.A; Demo.B; Demo.C] /\
  map success
    (server_results
       (fst (SchedulerService.execute_backup_async Demo.env Demo.state "nightly"
               (Some [Demo.A; Demo.B; Demo.C]))))
    = [true; false; true].
Proof.
  split; [reflexivity|].
  apply (partial_failure_isolation Demo.env Demo.state "nightly"
           (Some [Demo.A; Demo.B; Demo.C]) Demo.A Demo.B Demo.C);
    reflexivity.
Defined.

(** C8. Cloud failure is not fatal and the restart does not depend on
    it: in a job with cloud backup enabled, a server whose archive step
    succeeded has a successful result whatever the cloud step did; its
    [cloud_backup_success] is true only when a ready backend returned
    true (so a missing or unauthenticated backend, a refused or a raising
    upload all leave it false); and the server is restarted right after
    the cloud step. *)
Theorem cloud_failure_non_fatal
    (env : Env) (st : SchedulerService.State) (sid : string)
    (servers : option (list ServerConfig)) (i : nat) (server : ServerConfig) :
  SchedulerService.enabled_servers (SchedulerService.resolve_schedule env st sid)
    (SchedulerService.resolve_servers env servers) !! i = Some server ->
  enable_cloud_backup (SchedulerService.resolve_schedule env st sid) = true ->
  JobFacts.archive_ok env (SchedulerService.resolve_schedule env st sid) server = true ->
  exists r,
    server_results (fst (SchedulerService.execute_backup_async env st sid servers)) !! i = Some r /\
    r_server_id r = server_id server /\
    success r = true /\
    cloud_backup_success r =
      JobFacts.cloud_upload_ok env (SchedulerService.resolve_schedule env st sid) server /\
    exists before upload after,
      snd (SchedulerService.execute_backup_async env st sid servers) =
        before ++
        [EArchive (save_game_path server)
           (BackupService.archive_path env server
              (backup_path (SchedulerService.resolve_schedule env st sid)))] ++
        upload ++ [EStart (server_id server)] ++ after /\
      forallb JobFacts.is_upload upload = true.
Proof.
  intros Hi Hcloud Hok.
  exists (JobFacts.server_result env (SchedulerService.resolve_schedule env st sid) server).
  split; [|split; [|split; [|split]]].
  - rewrite execute_results. change map with (@fmap list _). by rewrite list_lookup_fmap, Hi.
  - apply server_result_id.
  - by rewrite server_result_success.
  - by apply server_result_cloud.
  - destruct (execute_effects env st sid servers) as (tail & -> & _).
    apply take_drop_middle in Hi. rewrite <- Hi.
    rewrite flat_map_app. cbn [flat_map].
    destruct (server_effects_ok env _ server Hok) as (stop & upload & -> & Hup).
    exists (flat_map
              (JobFacts.server_effects env (SchedulerService.resolve_schedule env st sid))
              (take i
                 (SchedulerService.enabled_servers
                    (SchedulerService.resolve_schedule env st sid)
                    (SchedulerService.resolve_servers env servers))) ++ stop),
      upload,
      (flat_map
         (JobFacts.server_effects env (SchedulerService.resolve_schedule env st sid))
         (drop (S i)
            (SchedulerService.enabled_servers
               (SchedulerService.resolve_schedule env st sid)
               (SchedulerService.resolve_servers env servers))) ++
       ECleanup (backup_path (SchedulerService.resolve_schedule env st sid))
         (retention_days (SchedulerService.resolve_schedule env st sid)) :: tail).
    split; [|exact Hup].
    by rewrite <- !app_assoc.
Qed.

Lemma cloud_failure_non_fatal_witness :
  JobFacts.cloud_upload_ok Demo.env
    (SchedulerService.resolve_schedule Demo.env Demo.state "nightly") Demo.C = false /\
  exists r,
    server_results
      (fst (SchedulerService.execute_backup_async Demo.env Demo.state "nightly" None)) !! 2
      = Some r /\
    success r = true /\ cloud_backup_success r = false.
Proof.
  split; [reflexivity|].
  destruct (cloud_failure_non_fatal Demo.env Demo.state "nightly" None 2 Demo.C)
    as (r & Hr & _ & Hs & Hc & _); [reflexivity..|].
  exists r. split; [exact Hr|]. split; [exact Hs|]. exact Hc.
Defined.

(** A job that targets no server and is reported as failed: the schedule
    id is unknown, nothing is backed up, and the completion callback
    raises when it is handed the job; the handler of line 224 then sets
    the status of the job, which the method returns. *)
Lemma vacuous_job_failed_by_callback :
  SchedulerService.get_schedule "unknown" Demo.state = None /\
  server_results
    (fst (SchedulerService.execute_backup_async DemoVariants.env_callback_raises Demo.state
            "unknown" (Some [Demo.A; Demo.B; Demo.C]))) = [] /\
  status
    (fst (SchedulerService.execute_backup_async DemoVariants.env_callback_raises Demo.state
            "unknown" (Some [Demo.A; Demo.B; Demo.C]))) = FAILED /\
  message
    (fst (SchedulerService.execute_backup_async DemoVariants.env_callback_raises Demo.state
            "unknown" (Some [Demo.A; Demo.B; Demo.C])))
    = "main thread is not in main loop".
Proof. by vm_compute. Qed.

(** C10, as the code has it. A job for which no server of the list is
    both named by the schedule and enabled (in particular a job for an
    unknown schedule id, which runs on the fallback schedule) returns
    with no result, and no server is stopped, archived or restarted.
    The job handed to the completion callback is completed. The status
    of the job that is returned is completed when no callback is
    registered or the callback returns; when the callback raises, the
    job is returned as failed, with the text of the exception as its
    message. *)
Theorem vacuous_success
    (env : Env) (st : SchedulerService.State) (sid : string)
    (servers : option (list ServerConfig)) :
  SchedulerService.get_schedule sid st = None \/
  SchedulerService.enabled_servers (SchedulerService.resolve_schedule env st sid)
    (SchedulerService.resolve_servers env servers) = [] ->
  server_results (fst (SchedulerService.execute_backup_async env st sid servers)) = [] /\
  Forall (fun e => JobFacts.touches_server e = false)
    (snd (SchedulerService.execute_backup_async env st sid servers)) /\
  (JobFacts.callback_ok env ->
   status (fst (SchedulerService.execute_backup_async env st sid servers)) = COMPLETED) /\
  (forall callback,
     backup_completed_callback env = Some callback ->
     match callback {| job_id := uuid4 env; job_schedule_id := sid;
                       start_time := Some (now_iso env); end_time := Some (now_iso env);
                       status := COMPLETED; message := ""; server_results := [] |} with
     | Returned _ =>
         status (fst (SchedulerService.execute_backup_async env st sid servers)) = COMPLETED
     | Raised text =>
         status (fst (SchedulerService.execute_backup_async env st sid servers)) = FAILED /\
         message (fst (SchedulerService.execute_backup_async env st sid servers)) = text
     end).
Proof.
  intros Hnone.
  assert (SchedulerService.enabled_servers (SchedulerService.resolve_schedule env st sid)
            (SchedulerService.resolve_servers env servers) = []) as Hempty.
  { destruct Hnone as [Hnone|Hnone]; [|done]. by apply fallback_targets_nothing. }
  split; [|split; [|split]].
  - by rewrite execute_results, Hempty.
  - destruct (execute_effects env st sid servers) as (tail & -> & Htail).
    rewrite Hempty. cbn [flat_map app]. by constructor.
  - intros Hcb. apply execute_status_completed; [|done]. by rewrite Hempty.
  - intros callback Hcb. unfold SchedulerService.execute_backup_async.
    rewrite Hempty, Hcb. cbn [fold_left forallb].
    by destruct (callback _).
Qed.

Lemma vacuous_success_witness :
  SchedulerService.get_schedule "unknown" Demo.state = None /\
  server_results
    (fst (SchedulerService.execute_backup_async Demo.env Demo.state "unknown"
            (Some [Demo.A; Demo.B; Demo.C]))) = [] /\
  status
    (fst (SchedulerService.execute_backup_async Demo.env Demo.state "unknown"
            (Some [Demo.A; Demo.B; Demo.C]))) = COMPLETED.
Proof.
  split; [reflexivity|].
  destruct (vacuous_success Demo.env Demo.state "unknown" (Some [Demo.A; Demo.B; Demo.C]))
    as (Hr & _ & Hs & _); [left; reflexivity |].
  split; [exact Hr | exact (Hs I)].
Defined.

(** ** The scheduler *)

Section JobStore.

Import APScheduler.

Lemma has_job_false_filter jid store :
  has_job jid store = false ->
  filter (fun j => String.eqb (id j) jid) store = [].
Proof.
  unfold has_job. induction store as [|j store IH]; [done|].
  cbn [existsb]. intros H. apply orb_false_elim in H as [Hj Hs].
  rewrite filter_cons, (IH Hs). rewrite Hj. done.
Qed.

Lemma has_job_elem jid store :
  has_job jid store = true <-> jid ∈ map id store.
Proof.
  unfold has_job. induction store as [|j store IH]; cbn [existsb map].
  - rewrite elem_of_nil. split; [done|tauto].
  - rewrite elem_of_cons, orb_true_iff, IH, String.eqb_eq. split; intros [->|?]; auto.
Qed.

Lemma store_update_job_ids store j :
  has_job (id j) store = true -> map id (store_update_job store j) = map id store.
Proof.
  intros _. unfold store_update_job. induction store as [|old store IH]; [done|].
  cbn [map]. rewrite IH. f_equal.
  destruct (String.eqb (id old) (id j)) eqn:E; [|done].
  by apply String.eqb_eq in E.
Qed.

(** The store keeps at most one job per id. *)
Lemma real_add_job_NoDup store j :
  NoDup (map id store) -> NoDup (map id (real_add_job store j)).
Proof.
  intros Hnd. unfold real_add_job, store_add_job.
  destruct (has_job (id j) store) eqn:E.
  - by rewrite store_update_job_ids.
  - rewrite map_app. cbn [map]. apply NoDup_app. split; [done|]. split.
    + intros x Hx Hin. apply list_elem_of_singleton in Hin as ->.
      apply has_job_elem in Hx. congruence.
    + apply NoDup_singleton.
Qed.

Lemma store_update_job_filter store j :
  NoDup (map id store) -> has_job (id j) store = true ->
  filter (fun x => String.eqb (id x) (id j)) (store_update_job store j) = [j].
Proof.
  unfold store_update_job.
  induction store as [|old store IH]; intros Hnd Hhas; [done|].
  cbn [map] in *. apply NoDup_cons in Hnd as [Hnotin Hnd].
  rewrite filter_cons.
  destruct (String.eqb (id old) (id j)) eqn:E.
  - rewrite String.eqb_refl. cbn. f_equal.
    apply String.eqb_eq in E.
    assert (has_job (id j) store = false) as Hno.
    { destruct (has_job (id j) store) eqn:E2; [|done].
      apply has_job_elem in E2. rewrite <- E in E2. done. }
    change (map (fun old0 => if String.eqb (id old0) (id j) then j else old0) store)
      with (store_update_job store j).
    apply has_job_false_filter.
    destruct (has_job (id j) (store_update_job store j)) eqn:E3; [|done].
    apply has_job_elem in E3.
    assert (map id (store_update_job store j) = map id store) as Hids.
    { unfold store_update_job. clear -Hno. induction store as [|o s IHs]; [done|].
      unfold has_job in Hno. cbn [existsb] in Hno.
      apply orb_false_elim in Hno as [Ho Hs]. cbn [map]. rewrite Ho.
      f_equal. by apply IHs. }
    rewrite Hids in E3. apply has_job_elem in E3. congruence.
  - rewrite E. cbn. apply IH; [done|].
    unfold has_job in Hhas. cbn [existsb] in Hhas. by rewrite E in Hhas.
Qed.

(** After [add_job(.., replace_existing=True)] the store holds exactly
    the new job under its id. *)
Lemma real_add_job_filter store j :
  NoDup (map id store) ->
  filter (fun x => String.eqb (id x) (id j)) (real_add_job store j) = [j].
Proof.
  intros Hnd. unfold real_add_job, store_add_job.
  destruct (has_job (id j) store) eqn:E.
  - by apply store_update_job_filter.
  - rewrite filter_app, (has_job_false_filter _ _ E).
    rewrite filter_cons, String.eqb_refl. done.
Qed.

End JobStore.

Section WeeklyTrigger.

Import APScheduler SchedulerService.

Lemma split_char_free sep w : char_free sep w = true -> PyStr.split sep w = [w].
Proof.
  induction w as [|c w IH]; [done|]. cbn [char_free PyStr.split].
  intros H. apply andb_prop in H as [Hc Hw].
  apply negb_true_iff in Hc. rewrite Hc, (IH Hw). done.
Qed.

Lemma split_append sep w rest :
  char_free sep w = true ->
  PyStr.split sep (w +:+ String sep rest) = w :: PyStr.split sep rest.
Proof.
  induction w as [|c w IH]; simpl.
  - intros _. by rewrite Ascii.eqb_refl.
  - intros H. apply andb_prop in H as [Hc Hw].
    apply negb_true_iff in Hc. rewrite Hc, (IH Hw). done.
Qed.

(** Splitting what was joined gives the parts back. *)
Lemma split_join sep (l : list string) :
  l <> [] -> Forall (fun w => char_free sep w = true) l ->
  PyStr.split sep (PyStr.join (String sep EmptyString) l) = l.
Proof.
  induction l as [|w l IH]; [done|]. intros _ Hall.
  apply Forall_cons in Hall as [Hw Hall].
  destruct l as [|w' l].
  - cbn [PyStr.join]. by apply split_char_free.
  - change (PyStr.join (String sep EmptyString) (w :: w' :: l))
      with (w +:+ String sep (PyStr.join (String sep EmptyString) (w' :: l))).
    rewrite split_append by done. f_equal. by apply IH.
Qed.

Lemma weekday_plus_one_compiles d :
  d <= 5 ->
  char_free "," (PyStr.str (d + 1)) = true /\
  compile_weekday (PyStr.str (d + 1)) = Returned (d + 1).
Proof.
  intros H. do 6 (destruct d as [|d]; [by vm_compute|]). lia.
Qed.

Lemma compile_shifted_weekdays days :
  Forall (fun d => d <= 5) days ->
  compile_weekdays (map PyStr.str (map (fun d => d + 1) days)) =
  Returned (map (fun d => d + 1) days).
Proof.
  induction 1 as [|d days Hd _ IH]; [done|].
  cbn [map compile_weekdays].
  destruct (weekday_plus_one_compiles d Hd) as [_ ->]. by rewrite IH.
Qed.

(** X1. The trigger of a weekly schedule whose days are Monday to Saturday:
    every listed day is moved to the next day of the week. *)
Lemma weekly_trigger_shifts_days schedule :
  schedule_type schedule = WEEKLY ->
  hour (sched_time schedule) <= 23 -> minute (sched_time schedule) <= 59 ->
  days_of_week schedule <> [] ->
  Forall (fun d => d <= 5) (days_of_week schedule) ->
  make_trigger schedule =
  Returned (Cron (mk_CronFields (Some (map (fun d => d + 1) (days_of_week schedule)))
                    (hour (sched_time schedule)) (minute (sched_time schedule)))).
Proof.
  intros Hty Hh Hm Hne Hdays. unfold make_trigger, CronTrigger. rewrite Hty.
  apply Nat.leb_le in Hh, Hm. rewrite Hh, Hm. cbn [negb].
  rewrite split_join.
  - by rewrite compile_shifted_weekdays.
  - by destruct (days_of_week schedule).
  - clear -Hdays. induction Hdays as [|d days Hd _ IH]; cbn [map]; constructor; [|done].
    by apply weekday_plus_one_compiles.
Qed.

End WeeklyTrigger.

(** C2. The weekly trigger that [add_schedule] registers does not fire
    on the days of [days_of_week]: each day is incremented before it is
    handed to the cron trigger, whose own numbering is already
    0 = Monday .. 6 = Sunday. A schedule for Monday (0) at 03:30 is armed
    for Tuesday (1) and never fires on a Monday; a schedule for Sunday
    (6) is refused by the trigger, so [add_schedule] raises after having
    stored the schedule and no trigger is armed. *)
Theorem weekly_trigger_fires_a_day_late :
  (exists c,
     APScheduler.active_triggers
       (SchedulerService.scheduler
          (fst (SchedulerService.add_schedule DemoSchedules.mondays
                  (SchedulerService.start SchedulerService.init))))
       "backup_mondays" = [APScheduler.Cron c] /\
     APScheduler.fire_weekdays c = [1] /\
     APScheduler.cron_fires_on c 0 3 30 = false /\
     APScheduler.cron_fires_on c 1 3 30 = true) /\
  (exists msg,
     snd (SchedulerService.add_schedule DemoSchedules.sundays
            (SchedulerService.start SchedulerService.init)) = Raised msg /\
     APScheduler.active_triggers
       (SchedulerService.scheduler
          (fst (SchedulerService.add_schedule DemoSchedules.sundays
                  (SchedulerService.start SchedulerService.init))))
       "backup_sundays" = [] /\
     SchedulerService.get_schedule "sundays"
       (fst (SchedulerService.add_schedule DemoSchedules.sundays
               (SchedulerService.start SchedulerService.init)))
       = Some DemoSchedules.sundays).
Proof.
  split.
  - eexists. split; [reflexivity|]. by vm_compute.
  - eexists. split; [reflexivity|]. by vm_compute.
Qed.

(** C3. Registering an edited schedule under the id of a registered one
    leaves one armed trigger, built from the edited definition, but the
    list of schedules now holds both definitions and [get_schedule]
    answers with the first: the job that the new trigger fires runs on
    the old definition (here it sweeps the old backup root). *)
Theorem readded_schedule_resolves_to_first_definition :
  APScheduler.active_triggers
    (SchedulerService.scheduler
       (fst (SchedulerService.add_schedule DemoSchedules.nightly_edited Demo.state)))
    "backup_nightly" = [APScheduler.Cron (APScheduler.mk_CronFields None 4 45)] /\
  SchedulerService.get_schedule "nightly"
    (fst (SchedulerService.add_schedule DemoSchedules.nightly_edited Demo.state))
    = Some Demo.nightly /\
  Demo.nightly <> DemoSchedules.nightly_edited /\
  ECleanup "D:/backups" 7 ∈
    snd (SchedulerService.execute_backup_async Demo.env
           (fst (SchedulerService.add_schedule DemoSchedules.nightly_edited Demo.state))
           "nightly" None).
Proof.
  split; [by vm_compute|]. split; [by vm_compute|]. split; [discriminate|].
  apply list_elem_of_In. vm_compute. tauto.
Qed.
(** ** The retention sweep *)

Section Retention.

Import BackupService RetentionFacts.

Lemma older_than_lt mtime cutoff : older_than mtime cutoff = true <-> (mtime < cutoff)%Q.
Proof.
  unfold older_than. rewrite negb_true_iff, <- not_true_iff_false, Qle_bool_iff.
  split; [apply Qnot_le_lt | apply Qlt_not_le].
Qed.

(** A server directory whose entries are all readable is swept to its
    end: what survives is what is left. *)
Lemma sweep_server_dir_readable cutoff (snaps : list SnapshotEntry) :
  forallb snapshot_readable snaps = true ->
  sweep_server_dir cutoff snaps = (filter (fun s => survives cutoff s) snaps, false).
Proof.
  induction snaps as [|s snaps IH]; [done|].
  cbn [forallb]. intros [Hs Hrest]%andb_true_iff.
  rewrite (filter_cons_bool (survives cutoff)).
  destruct s as [f|n mtime ok|n]; [| |done]; cbn [sweep_server_dir]; by rewrite (IH Hrest).
Qed.

(** The sweep of a server directory up to an unreadable entry. *)
Lemma sweep_server_dir_cut cutoff (before : list SnapshotEntry) name after :
  forallb snapshot_readable before = true ->
  sweep_server_dir cutoff (before ++ SnapUnreadable name :: after) =
  (filter (fun s => survives cutoff s) before ++ SnapUnreadable name :: after, true).
Proof.
  induction before as [|s before IH]; [done|].
  cbn [forallb]. intros [Hs Hrest]%andb_true_iff.
  rewrite (filter_cons_bool (survives cutoff)).
  destruct s as [f|n mtime ok|n]; [| |done];
    cbn [sweep_server_dir app]; rewrite (IH Hrest); by destruct (survives _ _).
Qed.

(** Whatever the sweep of a server directory leaves was there before,
    and what survives the inner loop body is left. *)
Lemma sweep_server_dir_in cutoff (snaps : list SnapshotEntry) s :
  (In s (sweep_server_dir cutoff snaps).1 -> In s snaps) /\
  (In s snaps -> survives cutoff s = true -> In s (sweep_server_dir cutoff snaps).1).
Proof.
  induction snaps as [|x snaps [IH1 IH2]]; [done|].
  assert (forall e, e = x -> (exists n, x = SnapUnreadable n) \/
            sweep_server_dir cutoff (x :: snaps) =
            ((if survives cutoff x then x :: (sweep_server_dir cutoff snaps).1
              else (sweep_server_dir cutoff snaps).1),
             (sweep_server_dir cutoff snaps).2)) as Hx.
  { intros e _. destruct x as [f|n mtime ok|n]; [right|right|left; eauto];
      cbn [sweep_server_dir]; by destruct (sweep_server_dir cutoff snaps). }
  destruct (Hx x eq_refl) as [[n Hn] | Hx']; [by rewrite Hn|]. rewrite Hx'. cbn [fst].
  split.
  - destruct (survives cutoff x); cbn [In]; tauto.
  - intros [->|Hin] Hs; [rewrite Hs; by left|].
    destruct (survives cutoff x); cbn [In]; auto.
Qed.

Lemma sweep_root_readable cutoff (entries : list RootEntry) :
  readable entries = true ->
  sweep_root cutoff entries =
  map (fun e =>
         match e with
         | ServerDir d snaps => ServerDir d (filter (fun s => survives cutoff s) snaps)
         | other => other
         end) entries.
Proof.
  unfold readable. induction entries as [|e entries IH]; [done|].
  cbn [forallb]. intros [He Hrest]%andb_true_iff.
  destruct e as [f|d snaps|n]; [| |done]; cbn [sweep_root map].
  - by rewrite (IH Hrest).
  - by rewrite (sweep_server_dir_readable _ _ He), (IH Hrest).
Qed.

(** The sweep up to an unreadable entry of the root. *)
Lemma sweep_root_cut cutoff (before : list RootEntry) name after :
  readable before = true ->
  sweep_root cutoff (before ++ RootUnreadable name :: after) =
  sweep_root cutoff before ++ RootUnreadable name :: after.
Proof.
  unfold readable. induction before as [|e before IH]; [done|].
  cbn [forallb]. intros [He Hrest]%andb_true_iff.
  destruct e as [f|d snaps|n]; [| |done]; cbn [sweep_root app].
  - by rewrite (IH Hrest).
  - rewrite (sweep_server_dir_readable _ _ He). by rewrite (IH Hrest).
Qed.

(** The sweep up to an unreadable entry of a server directory. *)
Lemma sweep_root_cut_inside cutoff (before : list RootEntry) d snaps name later after :
  readable before = true ->
  forallb snapshot_readable snaps = true ->
  sweep_root cutoff (before ++ ServerDir d (snaps ++ SnapUnreadable name :: later) :: after) =
  sweep_root cutoff before ++
  ServerDir d (filter (fun s => survives cutoff s) snaps ++ SnapUnreadable name :: later)
    :: after.
Proof.
  unfold readable. intros Hb Hs. induction before as [|e before IH].
  - cbn [app sweep_root]. by rewrite (sweep_server_dir_cut _ _ _ _ Hs).
  - cbn [forallb] in Hb. apply andb_true_iff in Hb as [He Hrest].
    destruct e as [f|d' snaps'|n]; [| |done]; cbn [sweep_root app].
    + by rewrite (IH Hrest).
    + rewrite (sweep_server_dir_readable _ _ He). by rewrite (IH Hrest).
Qed.

(** Whatever the sweep leaves was there before, and what survives the
    inner loop body is left, wherever the sweep ends. *)
Lemma snapshots_sweep_in cutoff (entries : list RootEntry) d s :
  (In (d, s) (snapshots (Some (sweep_root cutoff entries))) ->
   In (d, s) (snapshots (Some entries))) /\
  (In (d, s) (snapshots (Some entries)) -> survives cutoff s = true ->
   In (d, s) (snapshots (Some (sweep_root cutoff entries)))).
Proof.
  unfold snapshots. induction entries as [|e entries [IH1 IH2]]; [done|].
  destruct e as [f|d' snaps|n]; cbn [sweep_root flat_map app]; [by split| |by split].
  pose proof (sweep_server_dir_in cutoff snaps s) as [Hs1 Hs2].
  destruct (sweep_server_dir cutoff snaps) as [snaps' raised]. cbn [fst] in *.
  cbn [flat_map]. rewrite !in_app_iff, !in_map_iff.
  split.
  - intros [(x & [= -> ->] & Hx)|H].
    + left. exists s. auto.
    + right. destruct raised; auto.
  - intros [(x & [= -> ->] & Hx)|H] Hsurv.
    + left. exists s. auto.
    + right. destruct raised; auto.
Qed.

(** A sweep that meets no unreadable entry leaves exactly the entries
    that survive the inner loop body. *)
Lemma snapshots_sweep now entries retention d s :
  readable entries = true ->
  In (d, s) (snapshots (cleanup_old_backups now (Some entries) retention)) <->
  In (d, s) (snapshots (Some entries)) /\
  survives (now - inject_Z (Z.of_nat retention * 24 * 60 * 60))%Q s = true.
Proof.
  intros Hr. unfold cleanup_old_backups.
  rewrite (sweep_root_readable _ _ Hr). unfold snapshots.
  clear Hr. induction entries as [|e entries IH]; cbn [map flat_map].
  - cbn [In]. tauto.
  - rewrite !in_app_iff, IH. clear IH.
    destruct e as [f|d' snaps|n]; cbn [In].
    + tauto.
    + rewrite !in_map_iff.
      split.
      * intros [(x & Hx & Hin)|[H1 H2]]; [|tauto].
        apply list_elem_of_In, list_elem_of_filter in Hin as [Hs Hin].
        apply list_elem_of_In in Hin. inversion Hx; subst.
        split; [left; eauto|]. by apply Is_true_eq_true.
      * intros [[(x & Hx & Hin)|H1] H2]; [|tauto].
        left. exists x. split; [done|]. inversion Hx; subst.
        apply list_elem_of_In, list_elem_of_filter. split; [by apply Is_true_eq_left|].
        by apply list_elem_of_In.
    + tauto.
Qed.

(** Two snapshot directories that are older than the cutoff and stay:
    the sweep ends at a server directory that cannot be listed and never
    reaches the directory behind it; and a directory that [rmtree]
    cannot remove is kept, the exception being swallowed. *)
Lemma retention_expired_directories_kept :
  (inject_Z 1708612200 < inject_Z 1709303400 - days 7)%Q /\
  cleanup_old_backups (inject_Z 1709303400)
    (Some [RootUnreadable "1";
           ServerDir "2" [SnapDir "2024-02-22_14-30-00" (inject_Z 1708612200) true]]) 7 =
  Some [RootUnreadable "1";
        ServerDir "2" [SnapDir "2024-02-22_14-30-00" (inject_Z 1708612200) true]] /\
  cleanup_old_backups (inject_Z 1709303400)
    (Some [ServerDir "2" [SnapDir "2024-02-22_14-30-00" (inject_Z 1708612200) false]]) 7 =
  Some [ServerDir "2" [SnapDir "2024-02-22_14-30-00" (inject_Z 1708612200) false]].
Proof. split; [by vm_compute|]. split; by vm_compute. Qed.

(** C4, as the code has it. Retention boundary: a snapshot directory
    that is not older than [now - retention_days * 24h] is never
    deleted. In a sweep that meets no unreadable entry, a snapshot
    directory that [rmtree] can remove is gone afterwards exactly when
    its modification time is strictly older than that cutoff. The sweep
    ends at the first unreadable entry, of the root or of a server
    directory: what came before it is swept, what comes after it is
    left as it is. With a retention of 7 days, of three directories
    modified 6, 7 and 8 days before [now] only the last is deleted, the
    one at exactly 7 days is kept. *)
Theorem retention_boundary (now : Q) (entries : list RootEntry) (retention : nat)
    (d dname : string) (mtime : Q) (ok : bool) :
  In (d, SnapDir dname mtime ok) (snapshots (Some entries)) ->
  ((now - days (Z.of_nat retention) <= mtime)%Q ->
   In (d, SnapDir dname mtime ok)
      (snapshots (cleanup_old_backups now (Some entries) retention))) /\
  (readable entries = true -> ok = true ->
   (~ In (d, SnapDir dname mtime ok)
        (snapshots (cleanup_old_backups now (Some entries) retention)) <->
    (mtime < now - days (Z.of_nat retention))%Q)) /\
  (forall before name after,
     readable before = true ->
     cleanup_old_backups now (Some (before ++ RootUnreadable name :: after)) retention =
     Some (sweep_root (now - days (Z.of_nat retention)) before ++
           RootUnreadable name :: after)) /\
  (forall before sd snaps name later after,
     readable before = true ->
     forallb snapshot_readable snaps = true ->
     cleanup_old_backups now
       (Some (before ++ ServerDir sd (snaps ++ SnapUnreadable name :: later) :: after))
       retention =
     Some (sweep_root (now - days (Z.of_nat retention)) before ++
           ServerDir sd
             (filter (fun s => survives (now - days (Z.of_nat retention)) s) snaps ++
              SnapUnreadable name :: later) :: after)) /\
  cleanup_old_backups now
    (Some [ServerDir d [SnapDir "6d" (now - days 6) true;
                        SnapDir "7d" (now - days 7) true;
                        SnapDir "8d" (now - days 8) true]]) 7 =
  Some [ServerDir d [SnapDir "6d" (now - days 6) true;
                     SnapDir "7d" (now - days 7) true]].
Proof.
  intros Hin. split; [|split; [|split; [|split]]].
  - intros Hle. apply snapshots_sweep_in; [exact Hin|].
    cbn [survives]. destruct (older_than mtime _) eqn:E; [|done].
    apply older_than_lt in E. unfold days in Hle. exfalso. revert E. by apply Qle_not_lt.
  - intros Hr ->. rewrite (snapshots_sweep _ _ _ _ _ Hr). cbn [survives]. unfold days.
    rewrite <- older_than_lt.
    destruct (older_than mtime _); cbn [negb]; split; try tauto; try done.
    intros _ [_ H]. done.
  - intros before name after Hr. unfold cleanup_old_backups, days.
    by rewrite (sweep_root_cut _ _ _ _ Hr).
  - intros before sd snaps name later after Hr Hs. unfold cleanup_old_backups, days.
    by rewrite (sweep_root_cut_inside _ _ _ _ _ _ _ Hr Hs).
  - unfold cleanup_old_backups. cbn [sweep_root sweep_server_dir]. do 2 f_equal.
    assert (forall k, older_than (now - days k) (now - inject_Z (Z.of_nat 7 * 24 * 60 * 60))
                      = true <-> (7 < k)%Z) as Hk.
    { intros k. rewrite older_than_lt. unfold days.
      assert (forall a b : Q, (now - b < now - a)%Q <-> (a < b)%Q) as E
        by (intros a b; split; intros; lra).
      rewrite E, <- Zlt_Qlt. lia. }
    cbn [survives negb].
    destruct (older_than (now - days 6) _) eqn:E6; [apply Hk in E6; lia|].
    destruct (older_than (now - days 7) _) eqn:E7; [apply Hk in E7; lia|].
    destruct (older_than (now - days 8) _) eqn:E8; [|].
    + done.
    + assert (older_than (now - days 8) (now - inject_Z (Z.of_nat 7 * 24 * 60 * 60)) = true)
        as H8 by (apply Hk; lia).
      congruence.
Qed.

Lemma retention_boundary_witness :
  In ("1", BackupService.SnapDir "2024-02-20_03-30-00" (inject_Z 1708399800) true)
     (RetentionFacts.snapshots
        (Some [BackupService.ServerDir "1"
                 [BackupService.SnapDir "2024-02-20_03-30-00" (inject_Z 1708399800) true]])) /\
  ~ In ("1", BackupService.SnapDir "2024-02-20_03-30-00" (inject_Z 1708399800) true)
      (RetentionFacts.snapshots
         (BackupService.cleanup_old_backups (inject_Z 1709303400)
            (Some [BackupService.ServerDir "1"
                     [BackupService.SnapDir "2024-02-20_03-30-00" (inject_Z 1708399800) true]])
            7)).
Proof.
  split; [left; reflexivity|].
  apply (retention_boundary (inject_Z 1709303400)
           [BackupService.ServerDir "1"
              [BackupService.SnapDir "2024-02-20_03-30-00" (inject_Z 1708399800) true]]
           7 "1" "2024-02-20_03-30-00" (inject_Z 1708399800) true).
  - left; reflexivity.
  - reflexivity.
  - reflexivity.
  - vm_compute; reflexivity.
Defined.

End Retention.
(** ** Timestamps of backup files *)

Section Timestamps.

Import Datetime RestoreService RestoreFacts.

Lemma count_char_free c s : count_char c s = 0 <-> char_free c s = true.
Proof.
  induction s as [|a s IH]; [done|]. cbn [count_char char_free].
  destruct (Ascii.eqb a c); cbn [negb andb]; [split; [lia|done]|].
  by rewrite Nat.add_0_l.
Qed.

Lemma count_char_app c a b : count_char c (a +:+ b) = count_char c a + count_char c b.
Proof.
  induction a as [|x a IH]; [done|].
  change (count_char c (String x (a +:+ b)) = count_char c (String x a) + count_char c b).
  cbn [count_char]. rewrite IH. lia.
Qed.

(** [split] gives one token more than there are separators. *)
Lemma length_split sep s : length (PyStr.split sep s) = count_char sep s + 1.
Proof.
  induction s as [|c s IH]; [done|]. cbn [PyStr.split count_char].
  destruct (Ascii.eqb c sep); cbn [length]; [by rewrite IH|].
  pose proof (split_nonempty sep s).
  destruct (PyStr.split sep s); [done|]. cbn [length] in *. lia.
Qed.

(** A text in which the separator occurs ends with a token behind its
    last occurrence. *)
Lemma split_last sep s :
  0 < count_char sep s ->
  exists before last,
    s = before +:+ String sep last /\ char_free sep last = true /\
    count_char sep s = count_char sep before + 1.
Proof.
  induction s as [|c s IH]; [cbn; lia|]. cbn [count_char]. intros Hc.
  destruct (count_char sep s) as [|n] eqn:En.
  - destruct (Ascii.eqb c sep) eqn:E; [|lia]. apply Ascii.eqb_eq in E as ->.
    exists EmptyString, s. split; [done|]. split; [by apply count_char_free|]. done.
  - destruct IH as (before & last & -> & Hfree & Hcount); [lia|].
    exists (String c before), last. split; [done|]. split; [done|].
    cbn [count_char]. rewrite <- En in *. lia.
Qed.

(** The names that show where the code leaves the two documented
    formats and the plain reading of "the extension" and "the last two
    tokens". The date token of the first is neither "YYYY-MM-DD" nor
    "YYYYMMDD": both formats refuse the text, the third attempt (the
    text without its dashes, read as "%Y%m%d_%H%M%S") accepts it. The
    second has ".zip" inside its time token: once its extension is
    stripped both formats refuse its last two tokens, but every ".zip"
    is removed and the name is accepted. The third has its extension in
    upper case: its last two tokens without the extension are a
    timestamp, but ".ZIP" is not removed and the name parses to null.
    The fourth is a timestamp and nothing else: its two tokens are a
    timestamp, but three tokens are asked for and it parses to null. *)
Lemma extract_timestamp_beyond_two_formats :
  (raised (strptime "2024-0301_143000" format_dashed) /\
   raised (strptime "2024-0301_143000" format_compact) /\
   _extract_timestamp "MyServer_2024-0301_143000.zip" =
     Returned (Some (mk_datetime 2024 3 1 14 30 0))) /\
  (raised (strptime "2024-03-01_14-30.zip-00" format_dashed) /\
   raised (strptime "2024-03-01_14-30.zip-00" format_compact) /\
   raised (strptime (PyStr.remove_char "-" "2024-03-01_14-30.zip-00") format_compact) /\
   _extract_timestamp "MyServer_2024-03-01_14-30.zip-00.zip" =
     Returned (Some (mk_datetime 2024 3 1 14 30 0))) /\
  (strptime "2024-03-01_14-30-00" format_dashed = Returned (mk_datetime 2024 3 1 14 30 0) /\
   _extract_timestamp "MyServer_2024-03-01_14-30-00.ZIP" = Returned None) /\
  (strptime "2024-03-01_14-30-00" format_dashed = Returned (mk_datetime 2024 3 1 14 30 0) /\
   _extract_timestamp "2024-03-01_14-30-00.zip" = Returned None).
Proof. by vm_compute. Qed.

(** C5, as the code has it. [_extract_timestamp] never raises. It
    works on the name with every ".zip" removed. When that text has
    fewer than two underscores, that is fewer than three tokens, the
    result is null. Otherwise the text ends with two tokens [date] and
    [time] behind its last two underscores, and the result is what the
    first successful of three attempts gives: "%Y-%m-%d_%H-%M-%S" on
    [date_time], then "%Y%m%d_%H%M%S" on it, then "%Y%m%d_%H%M%S" on
    the text with its dashes removed; null when all three fail. The
    three names of the specification parse to 2024-03-01T14:30:00, the
    same instant, and null. *)
Theorem extract_timestamp_forms (filename : string) :
  (exists r, _extract_timestamp filename = Returned r) /\
  (count_char "_" (PyStr.remove_sub ".zip" filename) < 2 ->
   _extract_timestamp filename = Returned None) /\
  (2 <= count_char "_" (PyStr.remove_sub ".zip" filename) ->
   exists head date time,
     PyStr.remove_sub ".zip" filename = head +:+ "_" +:+ date +:+ "_" +:+ time /\
     char_free "_" date = true /\ char_free "_" time = true) /\
  (forall head date time,
     PyStr.remove_sub ".zip" filename = head +:+ "_" +:+ date +:+ "_" +:+ time ->
     char_free "_" date = true -> char_free "_" time = true ->
     _extract_timestamp filename =
     Returned
       (first_parsed
          [strptime (date +:+ "_" +:+ time) format_dashed;
           strptime (date +:+ "_" +:+ time) format_compact;
           strptime (PyStr.remove_char "-" (date +:+ "_" +:+ time)) format_compact])) /\
  _extract_timestamp "MyServer_2024-03-01_14-30-00.zip" =
    Returned (Some (mk_datetime 2024 3 1 14 30 0)) /\
  _extract_timestamp "MyServer_20240301_143000.zip" =
    Returned (Some (mk_datetime 2024 3 1 14 30 0)) /\
  _extract_timestamp "MyServer_backup.zip" = Returned None.
Proof.
  split; [|split; [|split; [|split; [|by vm_compute]]]].
  - unfold _extract_timestamp. destruct (extract_timestamp_body filename); eauto.
  - intros Hcount. unfold _extract_timestamp, extract_timestamp_body, timestamp_text.
    rewrite length_split.
    destruct (3 <=? _) eqn:E; [|done]. apply Nat.leb_le in E. lia.
  - intros Hcount.
    destruct (split_last "_" (PyStr.remove_sub ".zip" filename)) as (s1 & time & E1 & Ht & Hc1);
      [lia|].
    destruct (split_last "_" s1) as (head & date & E2 & Hd & _); [lia|].
    exists head, date, time. split; [|done].
    rewrite E1, E2. by rewrite string_app_assoc.
  - intros head date time Hstem Hd Ht.
    unfold _extract_timestamp, extract_timestamp_body, timestamp_text. rewrite Hstem.
    change (head +:+ "_" +:+ date +:+ "_" +:+ time)
      with (head +:+ String "_" (date +:+ String "_" time)).
    rewrite !split_app_sep, (split_char_free _ _ Hd), (split_char_free _ _ Ht).
    change ([date] ++ [time]) with [date; time].
    destruct (nth_last_two (PyStr.split "_" head) date time EmptyString) as [-> ->].
    assert ((3 <=? length (PyStr.split "_" head ++ [date; time])) = true) as ->.
    { apply Nat.leb_le. rewrite length_app. cbn [length].
      pose proof (split_nonempty "_" head). destruct (PyStr.split "_" head); [done|].
      cbn [length]. lia. }
    unfold try_strptime. cbn [first_parsed].
    by repeat destruct (strptime _ _).
Qed.

End Timestamps.

(** ** Discovery order *)

Section DatetimeOrder.

Import Datetime.

Lemma lex_compare_refl a : lex_compare a a = Eq.
Proof. induction a as [|x a IH]; [done|]. cbn. by rewrite Nat.compare_refl. Qed.

Lemma lex_compare_eq a b : lex_compare a b = Eq -> a = b.
Proof.
  revert b. induction a as [|x a IH]; intros [|y b]; cbn; try done.
  destruct (Nat.compare x y) eqn:E; try done.
  apply Nat.compare_eq in E. intros H. f_equal; [done|by apply IH].
Qed.

Lemma lex_compare_antisym a b : lex_compare b a = CompOpp (lex_compare a b).
Proof.
  revert b. induction a as [|x a IH]; intros [|y b]; cbn; try done.
  rewrite (Nat.compare_antisym x y).
  destruct (Nat.compare x y); cbn; [apply IH|done|done].
Qed.

Lemma lex_compare_lt_trans a b c :
  lex_compare a b = Lt -> lex_compare b c = Lt -> lex_compare a c = Lt.
Proof.
  revert b c. induction a as [|x a IH]; intros [|y b] [|z c]; cbn; try done.
  destruct (Nat.compare x y) eqn:E1; try done;
    destruct (Nat.compare y z) eqn:E2; try done.
  - apply Nat.compare_eq in E1, E2. subst. rewrite Nat.compare_refl. apply IH.
  - apply Nat.compare_eq in E1. subst. by rewrite E2.
  - apply Nat.compare_eq in E2. subst. by rewrite E1.
  - apply Nat.compare_lt_iff in E1, E2.
    assert (x < z) as H by lia. apply Nat.compare_lt_iff in H. by rewrite H.
Qed.

Lemma fields_inj a b : fields a = fields b -> a = b.
Proof. destruct a, b. unfold fields. cbn. by intros [= -> -> -> -> -> ->]. Qed.

Lemma ltb_irrefl a : ltb a a = false.
Proof. unfold ltb, compare. by rewrite lex_compare_refl. Qed.

Lemma ltb_trans a b c : ltb a b = true -> ltb b c = true -> ltb a c = true.
Proof.
  unfold ltb, compare.
  destruct (lex_compare (fields a) (fields b)) eqn:E1; try done.
  destruct (lex_compare (fields b) (fields c)) eqn:E2; try done.
  by rewrite (lex_compare_lt_trans _ _ _ E1 E2).
Qed.

(** Two datetimes are equal or one is earlier than the other. *)
Lemma ltb_total a b : ltb a b = false -> ltb b a = false -> a = b.
Proof.
  unfold ltb, compare. rewrite (lex_compare_antisym (fields a) (fields b)).
  destruct (lex_compare (fields a) (fields b)) eqn:E; cbn; try done.
  intros _ _. by apply fields_inj, lex_compare_eq.
Qed.

(** "Not earlier than" is transitive. *)
Lemma geb_trans a b c : ltb a b = false -> ltb b c = false -> ltb a c = false.
Proof.
  intros Hab Hbc.
  destruct (ltb a c) eqn:Hac; [|done].
  destruct (ltb b a) eqn:Hba.
  - by rewrite (ltb_trans _ _ _ Hba Hac) in Hbc.
  - rewrite (ltb_total _ _ Hab Hba) in Hac. congruence.
Qed.

End DatetimeOrder.

Section SortDesc.

Import Datetime RestoreService.

Context {A : Type} (key : A -> datetime).

Lemma insert_desc_perm x l : Permutation (insert_desc key x l) (x :: l).
Proof.
  induction l as [|y l IH]; [done|]. cbn.
  destruct (ltb (key x) (key y)); [|done].
  rewrite IH. apply perm_swap.
Qed.

(** The sort rearranges the list and loses nothing. *)
Lemma sort_desc_perm l : Permutation (sort_desc key l) l.
Proof.
  induction l as [|x l IH]; [done|]. cbn.
  rewrite insert_desc_perm. by constructor.
Qed.

Lemma insert_desc_sorted x l :
  StronglySorted (fun a b => ltb (key a) (key b) = false) l ->
  StronglySorted (fun a b => ltb (key a) (key b) = false) (insert_desc key x l).
Proof.
  induction 1 as [|y l Hs IH Hy]; cbn.
  - by repeat constructor.
  - destruct (ltb (key x) (key y)) eqn:E.
    + constructor; [done|].
      rewrite (Forall_forall _ _). intros z Hz.
      apply list_elem_of_In in Hz.
      apply (Permutation_in _ (insert_desc_perm x l)) in Hz as [<-|Hz].
      * destruct (ltb (key y) (key x)) eqn:E2; [|done].
        pose proof (ltb_trans _ _ _ E E2) as H. by rewrite ltb_irrefl in H.
      * rewrite Forall_forall in Hy. apply Hy. by apply list_elem_of_In.
    + constructor; [by constructor|].
      constructor; [done|].
      rewrite Forall_forall in Hy. rewrite Forall_forall. intros z Hz.
      eapply geb_trans; [exact E|by apply Hy].
Qed.

(** The sorted list is in descending order of key: no element is
    earlier than one that follows it. *)
Lemma sort_desc_sorted l :
  StronglySorted (fun a b => ltb (key a) (key b) = false) (sort_desc key l).
Proof.
  induction l as [|x l IH]; [constructor|]. cbn. by apply insert_desc_sorted.
Qed.

Lemma insert_desc_filter (p : A -> bool) x l :
  (forall y, p x = true -> ltb (key x) (key y) = true -> p y = false) ->
  filter (fun y => p y) (insert_desc key x l) = filter (fun y => p y) (x :: l).
Proof.
  intros Hp. induction l as [|y l IH]; [done|]. cbn.
  destruct (ltb (key x) (key y)) eqn:E; [|done].
  rewrite filter_cons, IH, !filter_cons.
  destruct (p x) eqn:Ex; cbn.
  - rewrite (Hp y eq_refl E). done.
  - done.
Qed.

(** The sort is stable: the elements of one key keep the order they had. *)
Lemma sort_desc_stable k l :
  filter (fun y => bool_decide (key y = k)) (sort_desc key l) =
  filter (fun y => bool_decide (key y = k)) l.
Proof using Type.
  induction l as [|x l IH]; [done|]. cbn [sort_desc foldr].
  change (foldr (insert_desc key) [] l) with (sort_desc key l).
  rewrite (insert_desc_filter (fun y => bool_decide (key y = k))).
  - rewrite !filter_cons, IH. done.
  - intros y Hx Hlt. apply bool_decide_eq_true in Hx.
    apply bool_decide_eq_false. intros Hy. rewrite Hx, Hy, ltb_irrefl in Hlt. done.
Qed.

End SortDesc.

Lemma StronglySorted_lookup {A} (R : A -> A -> Prop) (l : list A) i j a b :
  StronglySorted R l -> l !! i = Some a -> l !! j = Some b -> i < j -> R a b.
Proof.
  intros Hs. revert i j. induction Hs as [|x l Hs IH Hx]; intros i j Hi Hj Hlt.
  - done.
  - destruct j as [|j]; [lia|]. cbn in Hj.
    destruct i as [|i]; cbn in Hi.
    + injection Hi as <-. rewrite Forall_forall in Hx. apply Hx.
      by eapply list_elem_of_lookup_2.
    + eapply IH; [done..|lia].
Qed.

(** A discovery in which a snapshot without timestamp comes before a
    parsed one: the file of year 1 parses to [datetime.min], the key
    that a missing timestamp is given, and the sort keeps the two in
    listing order. *)
Lemma discovery_null_before_parsed :
  map RestoreService.timestamp
    (RestoreService.discover_backups RestoreFacts.glob_zip ["D:"; "backups"]
       (Some (RestoreFacts.tree_of "1"
                ["Server1_backup.zip"; "Server1_0001-01-01_00-00-00.zip"])) [])
  = [None; Some Datetime.min].
Proof. by vm_compute. Qed.

(** C9, as the code has it. [discover_backups] returns the snapshots it
    found, rearranged in descending order of the key "timestamp, or
    [datetime.min] when the timestamp is null"; so a snapshot without
    timestamp comes after every snapshot whose timestamp is later than
    [datetime.min]. Snapshots found as [null, 10:00, 12:00] are returned
    as [12:00, 10:00, null]. *)
Theorem discovery_order (glob_zip : string -> bool) (backup_dir : list string)
    (tree : list RestoreService.Node) (servers : list ServerConfig) :
  Permutation
    (RestoreService.discover_backups glob_zip backup_dir (Some tree) servers)
    (RestoreService.scan glob_zip backup_dir tree servers) /\
  StronglySorted
    (fun a b => Datetime.ltb (RestoreService.sort_key a) (RestoreService.sort_key b) = false)
    (RestoreService.discover_backups glob_zip backup_dir (Some tree) servers) /\
  (forall i j a b t,
     RestoreService.discover_backups glob_zip backup_dir (Some tree) servers !! i = Some a ->
     RestoreService.discover_backups glob_zip backup_dir (Some tree) servers !! j = Some b ->
     RestoreService.timestamp a = Some t -> Datetime.ltb Datetime.min t = true ->
     RestoreService.timestamp b = None ->
     i < j) /\
  map (fun b => (PyPath.name (RestoreService.filepath b), RestoreService.timestamp b))
    (RestoreService.discover_backups RestoreFacts.glob_zip ["D:"; "backups"]
       (Some (RestoreFacts.tree_of "1"
                ["Server1_backup.zip"; "Server1_2024-03-01_10-00-00.zip";
                 "Server1_2024-03-01_12-00-00.zip"])) [])
  = [("Server1_2024-03-01_12-00-00.zip", Some (Datetime.mk_datetime 2024 3 1 12 0 0));
     ("Server1_2024-03-01_10-00-00.zip", Some (Datetime.mk_datetime 2024 3 1 10 0 0));
     ("Server1_backup.zip", None)].
Proof.
  split; [apply sort_desc_perm|]. split; [apply sort_desc_sorted|].
  split; [|by vm_compute].
  intros i j a b t Hi Hj Ha Ht Hb.
  destruct (decide (i < j)) as [|Hge]; [done|]. exfalso.
  destruct (decide (i = j)) as [->|Hne]; [congruence|].
  pose proof (StronglySorted_lookup _ _ j i b a
                (sort_desc_sorted RestoreService.sort_key _) Hj Hi) as H.
  unfold RestoreService.sort_key in H. rewrite Ha, Hb in H.
  rewrite H in Ht; [done|lia].
Qed.

Lemma discovery_order_witness :
  RestoreService.discover_backups RestoreFacts.glob_zip ["D:"; "backups"]
    (Some (RestoreFacts.tree_of "1"
             ["Server1_backup.zip"; "Server1_2024-03-01_10-00-00.zip"])) [] !! 1
  = Some (RestoreService.mk_BackupInfo ["D:"; "backups"; "1"; "Server1_backup.zip"]
            "1" "Server 1" None 1024) /\
  0 < 1.
Proof.
  split; [reflexivity|].
  apply (proj1 (proj2 (proj2
           (discovery_order RestoreFacts.glob_zip ["D:"; "backups"]
              (RestoreFacts.tree_of "1"
                 ["Server1_backup.zip"; "Server1_2024-03-01_10-00-00.zip"]) [])))
         0 1
         (RestoreService.mk_BackupInfo
            ["D:"; "backups"; "1"; "Server1_2024-03-01_10-00-00.zip"]
            "1" "Server 1" (Some (Datetime.mk_datetime 2024 3 1 10 0 0)) 1024)
         (RestoreService.mk_BackupInfo ["D:"; "backups"; "1"; "Server1_backup.zip"]
            "1" "Server 1" None 1024)
         (Datetime.mk_datetime 2024 3 1 10 0 0));
    reflexivity.
Defined.
(** ** Restoring a backup *)

Section Restore.

Import RestoreService RestoreRun RestoreMore.

Context (env : RestoreEnv).

Lemma extracted_app l1 l2 : extracted (l1 ++ l2) = extracted l1 + extracted l2.
Proof. unfold extracted. by rewrite filter_app, length_app. Qed.

Lemma extracted_all l : Forall (fun e => is_extract e = true) l -> extracted l = length l.
Proof.
  unfold extracted. induction 1 as [|e l He _ IH]; [done|].
  rewrite filter_cons_True by (by rewrite He). cbn [length]. by rewrite IH.
Qed.

Lemma extracted_map_RExtract (names : list string) : extracted (map RExtract names) = length names.
Proof.
  rewrite extracted_all, length_map; [done|].
  induction names; by constructor.
Qed.

(** One [extract] touches no path but the destination, and nothing at
    all unless it returns. *)
Lemma extract_other fs dest members file_name k :
  k <> dest -> (extract env fs dest members file_name).1 !! k = fs !! k.
Proof.
  intros Hk. unfold extract.
  destruct (fs !! dest) as [[|files]|]; [done| |done].
  destruct (extract_result env file_name); [|done|done].
  cbn. by rewrite lookup_insert_ne.
Qed.

Lemma extract_not_extracted fs dest members file_name :
  (extract env fs dest members file_name).2 <> Extracted ->
  (extract env fs dest members file_name).1 = fs.
Proof.
  unfold extract.
  destruct (fs !! dest) as [[|files]|]; [done| |done].
  by destruct (extract_result env file_name).
Qed.

(** The loop adds one [RExtract] per extracted entry, counts it,
    accounts for every entry it reaches, and touches no path but the
    destination. *)
Lemma extract_all_spec dest members names fs c effs :
  exists fs' c' new exit,
    extract_all env dest members names (fs, c, effs) = (fs', c', effs ++ new, exit) /\
    extracted_count c' = extracted_count c + length new /\
    Forall (fun e => is_extract e = true) new /\
    (forall k, k <> dest -> fs' !! k = fs !! k) /\
    (forall m, In (RExtract m) new -> In m names /\ skipped_by_extension m = false) /\
    total c' <= total c + length names /\
    (exit = None -> total c' = total c + length names) /\
    (is_Some exit -> error_count c < error_count c').
Proof.
  revert fs c effs. induction names as [|file_name names IH]; intros fs c effs.
  - exists fs, c, [], None. cbn [extract_all length]. rewrite app_nil_r.
    split_and!; [done|lia|done|done|done|lia|lia|by intros [? [=]]].
  - cbn [extract_all].
    destruct (skipped_by_extension file_name) eqn:Hskip.
    { destruct (IH fs (mk_Counts (extracted_count c) (skipped_count c + 1) (error_count c)) effs)
        as (fs' & c' & new & exit & -> & Hc & Hn & Hk & Hm & Ht & Hex & Hab).
      exists fs', c', new, exit. unfold total in *.
      cbn [extracted_count skipped_count error_count length] in *.
      split_and!; [done|done|done|done| |lia| |done].
      - intros m Hin. destruct (Hm m Hin). split; [by right|done].
      - intros E. specialize (Hex E). lia. }
    pose proof (extract_other fs dest members file_name) as Hfs.
    destruct (extract env fs dest members file_name) as [fs1 [| |m]]; cbn [fst] in Hfs.
    + destruct (IH fs1 (mk_Counts (extracted_count c + 1) (skipped_count c) (error_count c))
                  (effs ++ [RExtract file_name]))
        as (fs' & c' & new & exit & -> & Hc & Hn & Hk & Hm & Ht & Hex & Hab).
      exists fs', c', (RExtract file_name :: new), exit.
      rewrite <- app_assoc. unfold total in *.
      cbn [extracted_count skipped_count error_count length app] in *.
      split_and!; [done|lia|by constructor| | |lia| |done].
      * intros k Hne. by rewrite Hk, Hfs.
      * intros m [[= ->]|Hin]; [split; [by left|done]|].
        destruct (Hm m Hin). split; [by right|done].
      * intros E. specialize (Hex E). lia.
    + destruct (IH fs1 (mk_Counts (extracted_count c) (skipped_count c + 1) (error_count c)) effs)
        as (fs' & c' & new & exit & -> & Hc & Hn & Hk & Hm & Ht & Hex & Hab).
      exists fs', c', new, exit. unfold total in *.
      cbn [extracted_count skipped_count error_count length] in *.
      split_and!; [done|done|done| | |lia| |done].
      * intros k Hne. by rewrite Hk, Hfs.
      * intros m' Hin. destruct (Hm m' Hin). split; [by right|done].
      * intros E. specialize (Hex E). lia.
    + destruct (print_error env (warning file_name m)) as [e|].
      * exists fs1, (mk_Counts (extracted_count c) (skipped_count c) (error_count c + 1)),
          [], (Some e).
        rewrite app_nil_r. unfold total.
        cbn [extracted_count skipped_count error_count length].
        split_and!; [done|lia|done|done|done|lia|done|intros _; lia].
      * destruct (IH fs1 (mk_Counts (extracted_count c) (skipped_count c) (error_count c + 1))
                    effs)
          as (fs' & c' & new & exit & -> & Hc & Hn & Hk & Hm & Ht & Hex & Hab).
        exists fs', c', new, exit. unfold total in *.
        cbn [extracted_count skipped_count error_count length] in *.
        split_and!; [done|done|done| | |lia| | ].
        -- intros k Hne. by rewrite Hk, Hfs.
        -- intros m' Hin. destruct (Hm m' Hin). split; [by right|done].
        -- intros E. specialize (Hex E). lia.
        -- intros E. specialize (Hab E). lia.
Qed.


Lemma extracted_names_cons n names :
  extracted_names env (n :: names) =
  if aborting env n then []
  else if extractable env n then n :: extracted_names env names
       else extracted_names env names.
Proof.
  unfold extracted_names. cbn [reached].
  destruct (aborting env n) eqn:Ha.
  - rewrite (filter_cons_bool (extractable env)), filter_nil.
    unfold aborting, extractable in *.
    destruct (skipped_by_extension n); [done|]. by destruct (extract_result env n).
  - by rewrite (filter_cons_bool (extractable env)).
Qed.

(** Into a directory: the entries stored are the extractable ones among
    those the loop reaches, each stored over what the earlier ones left,
    and the loop runs to its end exactly when it meets no entry whose
    warning cannot be printed. *)
Lemma extract_all_directory dest members names fs files c effs :
  fs !! dest = Some (FsDir files) ->
  exists c' exit,
    extract_all env dest members names (fs, c, effs) =
    (<[dest := FsDir (stored env members files (extracted_names env names))]> fs,
     c', effs ++ map RExtract (extracted_names env names), exit) /\
    extracted_count c' = extracted_count c + length (extracted_names env names) /\
    (exit = None <-> completes env names = true).
Proof.
  revert fs files c effs. induction names as [|n names IH]; intros fs files c effs Hd.
  - exists c, None. unfold extracted_names, stored. cbn.
    rewrite app_nil_r, insert_id by done. split_and!; try done; try lia.
  - cbn [extract_all]. rewrite extracted_names_cons.
    unfold completes. cbn [forallb]. fold (completes env names).
    unfold aborting, extractable.
    destruct (skipped_by_extension n) eqn:Hskip; cbn [negb andb].
    { destruct (IH fs files (mk_Counts (extracted_count c) (skipped_count c + 1) (error_count c))
                  effs Hd) as (c' & exit & -> & Hc & Hex).
      by exists c', exit. }
    unfold extract. rewrite Hd.
    destruct (extract_result env n) as [| |m] eqn:Hres.
    + destruct (IH (<[dest := FsDir (store env members n files)]> fs)
                  (store env members n files)
                  (mk_Counts (extracted_count c + 1) (skipped_count c) (error_count c))
                  (effs ++ [RExtract n])) as (c' & exit & -> & Hc & Hex);
        [apply lookup_insert_eq|].
      exists c', exit.
      rewrite insert_insert_eq, <- app_assoc.
      cbn [extracted_count map app length] in *.
      split; [done|]. split; [lia|done].
    + destruct (IH fs files (mk_Counts (extracted_count c) (skipped_count c + 1) (error_count c))
                  effs Hd) as (c' & exit & -> & Hc & Hex).
      by exists c', exit.
    + destruct (print_error env (warning n m)) as [e|] eqn:Hp.
      * exists (mk_Counts (extracted_count c) (skipped_count c) (error_count c + 1)), (Some e).
        rewrite bool_decide_eq_true_2 by eauto. cbn [negb andb].
        unfold stored. cbn.
        rewrite app_nil_r, insert_id by done. split_and!; try done; try lia.
      * destruct (IH fs files
                    (mk_Counts (extracted_count c) (skipped_count c) (error_count c + 1))
                    effs Hd) as (c' & exit & -> & Hc & Hex).
        exists c', exit.
        rewrite bool_decide_eq_false_2 by (by intros [? [=]]). done.
Qed.

(** A loop that runs to its end reaches every entry. *)
Lemma reached_completes names : completes env names = true -> reached env names = names.
Proof.
  unfold completes. induction names as [|n names IH]; [done|].
  cbn [forallb reached]. intros [Hn Hrest]%andb_true_iff.
  apply negb_true_iff in Hn. rewrite Hn. by rewrite IH.
Qed.

Lemma filter_nil_existsb {A} (p : A -> bool) (l : list A) :
  length (filter (fun x => p x) l) = 0 <-> existsb p l = false.
Proof.
  induction l as [|x l IH]; [done|].
  rewrite (filter_cons_bool p). cbn [existsb]. destruct (p x); cbn [orb length]; [|done].
  split; [lia|done].
Qed.

(** What is found in a directory after entries were stored in it: under
    a name, the data of the last file entry stored there, or what the
    directory held before. *)
Lemma stored_lookup members files names k :
  stored env members files names !! k =
  match last (filter (fun n => String.eqb (arcname env n) k)
                (filter (fun n => negb (is_dir n)) names)) with
  | Some n => Some (member_data members n)
  | None => files !! k
  end.
Proof.
  unfold stored. revert files. induction names as [|n names IH]; intros files; [done|].
  cbn [fold_left]. rewrite IH.
  rewrite (filter_cons_bool (fun n => negb (is_dir n))).
  unfold store. destruct (is_dir n) eqn:Hd; cbn [negb]; [done|].
  rewrite (filter_cons_bool (fun n => String.eqb (arcname env n) k)).
  destruct (String.eqb (arcname env n) k) eqn:E.
  - apply String.eqb_eq in E. rewrite last_cons.
    destruct (last _); [done|]. by rewrite E, lookup_insert_eq.
  - apply String.eqb_neq in E. destruct (last _); [done|]. by rewrite lookup_insert_ne.
Qed.


(** The extraction part: what it reports, what it leaves. *)
Lemma extract_backup_spec fs path archive dest effs :
  extracted effs <= extracted (effects (extract_backup env fs path archive dest effs)) /\
  (exists new,
     effects (extract_backup env fs path archive dest effs) = effs ++ new /\
     Forall (fun e => is_extract e = true) new /\
     forall m, In (RExtract m) new ->
       exists members, archive = FsFile (ZipEntries members) /\
                       In m (map fst members) /\ skipped_by_extension m = false) /\
  (forall k, k <> dest -> fs_after (extract_backup env fs path archive dest effs) !! k = fs !! k) /\
  (ok (extract_backup env fs path archive dest effs) = true ->
   extracted effs < extracted (effects (extract_backup env fs path archive dest effs))).
Proof.
  unfold extract_backup.
  destruct archive as [[members| |m]|files].
  2-4: unfold ok, effects, fs_after; cbn [fst snd];
       (split; [lia | split; [exists []; rewrite app_nil_r; split_and!; [done..|by intros ? []]
                             | done]]).
  destruct (extract_all_spec dest members (map fst members) fs (mk_Counts 0 0 0) effs)
    as (fs' & c' & new & exit & -> & Hc & Hn & Hk & Hm & _).
  cbn in Hc. pose proof (extracted_all new Hn) as Hlen.
  assert (extracted (effs ++ new) = extracted effs + length new) as Hex
    by (by rewrite extracted_app, Hlen).
  assert (forall m, In (RExtract m) new ->
            exists members', FsFile (ZipEntries members) = FsFile (ZipEntries members') /\
                             In m (map fst members') /\ skipped_by_extension m = false) as Hm'.
  { intros m Hin. exists members. destruct (Hm m Hin). done. }
  destruct exit as [e|]; [|destruct (extracted_count c' =? 0) eqn:E];
    unfold ok, effects, fs_after; cbn [fst snd]; rewrite Hex;
    (split; [lia|]); (split; [by exists new|]); (split; [done|]); try done.
  intros _. apply Nat.eqb_neq in E. lia.
Qed.

(** The extraction part, from an archive that opens, into a directory. *)
Lemma extract_backup_directory fs path members dest files effs :
  fs !! dest = Some (FsDir files) ->
  fs_after (extract_backup env fs path (FsFile (ZipEntries members)) dest effs) =
    <[dest := FsDir (stored env members files (extracted_names env (map fst members)))]> fs /\
  effects (extract_backup env fs path (FsFile (ZipEntries members)) dest effs) =
    effs ++ map RExtract (extracted_names env (map fst members)) /\
  (ok (extract_backup env fs path (FsFile (ZipEntries members)) dest effs) = true <->
   completes env (map fst members) = true /\
   existsb (extractable env) (map fst members) = true).
Proof.
  intros Hd. unfold extract_backup.
  destruct (extract_all_directory dest members (map fst members) fs files (mk_Counts 0 0 0)
              effs Hd) as (c' & exit & -> & Hc & Hex).
  cbn in Hc.
  destruct exit as [e|].
  - unfold ok, effects, fs_after. cbn [fst snd]. split; [done|]. split; [done|].
    split; [done|]. intros [Hcomp _]. apply Hex in Hcomp. done.
  - assert (completes env (map fst members) = true) as Hcomp by (by apply Hex).
    assert (extracted_count c' = 0 <-> existsb (extractable env) (map fst members) = false)
      as Hzero.
    { rewrite Hc. unfold extracted_names. rewrite (reached_completes _ Hcomp).
      apply filter_nil_existsb. }
    destruct (extracted_count c' =? 0) eqn:E;
      unfold ok, effects, fs_after; cbn [fst snd]; (split; [done|]); (split; [done|]).
    + apply Nat.eqb_eq, Hzero in E. rewrite E. split; [done|]. by intros [_ [=]].
    + split; [|done]. intros _. split; [done|].
      apply not_false_is_true. intros H. apply Hzero in H. apply Nat.eqb_neq in E. lia.
Qed.



End Restore.

Section RestoreClaims.

Import RestoreService RestoreRun RestoreMore.

Lemma string_length_append (a b : string) :
  String.length (a +:+ b) = String.length a + String.length b.
Proof. induction a as [|c a IH]; simpl; [done|]. by rewrite IH. Qed.

(** The safety copy goes to a path other than the destination. *)
Lemma backup_dest_ne env dest : backup_dest env dest <> dest.
Proof.
  unfold backup_dest, PyPath.div, PyPath.parent, PyPath.name.
  destruct dest as [|x dest _] using rev_ind.
  - done.
  - rewrite List.removelast_last, List.last_last. intros H.
    apply app_inv_head in H. injection H as H.
    apply (f_equal String.length) in H.
    rewrite string_length_append in H. simpl in H. lia.
Qed.

(** A restore either stops before the extraction, and then it fails
    with nothing extracted and the destination as it was, or it is the
    extraction part run on the file system as it was or as the safety
    copy left it. *)
Lemma restore_backup_cases env fs backup_info dest_path create_backup :
  ((fs !! filepath backup_info = None \/
    fs !! dest_path = None \/
    (create_backup = true /\ exists zip, fs !! dest_path = Some (FsFile zip)) \/
    (create_backup = true /\
     exists files, fs !! dest_path = Some (FsDir files) /\ files <> ∅ /\
                   copy_fails env fs dest_path)) /\
   ok (restore_backup env fs backup_info dest_path create_backup) = false /\
   (forall m, ~ In (RExtract m)
                 (effects (restore_backup env fs backup_info dest_path create_backup))) /\
   (forall k, k <> backup_dest env dest_path ->
      fs_after (restore_backup env fs backup_info dest_path create_backup) !! k = fs !! k) /\
   (create_backup = false ->
    fs_after (restore_backup env fs backup_info dest_path create_backup) = fs)) \/
  (exists archive fs0 effs0,
     fs !! filepath backup_info = Some archive /\
     is_Some (fs !! dest_path) /\
     restore_backup env fs backup_info dest_path create_backup =
       extract_backup env fs0 (filepath backup_info) archive dest_path effs0 /\
     (forall m, ~ In (RExtract m) effs0) /\
     fs0 !! dest_path = fs !! dest_path /\
     (forall k, k <> backup_dest env dest_path -> fs0 !! k = fs !! k) /\
     (create_backup = false -> fs0 = fs) /\
     (forall files, fs !! dest_path = Some (FsDir files) -> files <> ∅ ->
        create_backup = true -> ~ copy_fails env fs dest_path)).
Proof.
  unfold restore_backup.
  destruct (fs !! filepath backup_info) as [archive|] eqn:Ha.
  2: { left. unfold ok, effects, fs_after. cbn [fst snd]. split_and!; auto. }
  destruct (fs !! dest_path) as [[zip|files]|] eqn:Hd.
  3: { left. unfold ok, effects, fs_after. cbn [fst snd]. split_and!; auto. }
  - destruct create_backup.
    + left. unfold ok, effects, fs_after. cbn [fst snd]. split_and!; eauto 6.
    + right. exists archive, fs, []. split_and!; eauto. by intros files [=].
  - destruct create_backup; cbn [andb].
    2: { right. exists archive, fs, []. split_and!; eauto. by intros ? _ _ [=]. }
    destruct (bool_decide (files = ∅)) eqn:He; cbn [negb].
    { right. exists archive, fs, []. split_and!; eauto.
      intros files' [= <-] Hne. apply bool_decide_eq_true_1 in He. done. }
    apply bool_decide_eq_false_1 in He.
    unfold copytree. fold (backup_dest env dest_path).
    pose proof (backup_dest_ne env dest_path) as Hsib.
    destruct (fs !! backup_dest env dest_path) as [node|] eqn:Hb.
    { left. unfold ok, effects, fs_after, copy_fails. cbn [fst snd].
      split; [|split; [done|split; [|split; [done|by intros [=]]]]].
      - right. right. right. split; [done|]. exists files. rewrite Hb. eauto.
      - intros m [[=]|[]]. }
    destruct (copytree_error env) as [[partial e]|] eqn:Hc.
    { left. unfold ok, effects, fs_after, copy_fails. cbn [fst snd].
      split; [|split; [done|split; [|split; [|by intros [=]]]]].
      - right. right. right. split; [done|]. exists files. rewrite Hc. eauto.
      - intros m [[=]|[]].
      - intros k Hk. by rewrite lookup_insert_ne. }
    right. exists archive, (<[backup_dest env dest_path := FsDir files]> fs),
             [RCopytree dest_path (backup_dest env dest_path)].
    split; [done|]. split; [eauto|]. split; [done|]. split; [|split; [|split; [|split]]].
    + intros m [[=]|[]].
    + by rewrite lookup_insert_ne.
    + intros k Hk. by rewrite lookup_insert_ne.
    + by intros [=].
    + intros files' _ _ _ [[x Hx]|[x Hx]]; congruence.
Qed.






End RestoreClaims.

(** ** More on the scheduler service *)

Section SchedulerLaws.

Import APScheduler SchedulerService SchedulerFacts.

Lemma real_add_job_other store j jid :
  jid <> id j ->
  filter (fun x => String.eqb (id x) jid) (real_add_job store j) =
  filter (fun x => String.eqb (id x) jid) store.
Proof.
  intros Hne. unfold real_add_job, store_add_job.
  assert (String.eqb (id j) jid = false) as Hj.
  { apply String.eqb_neq. congruence. }
  destruct (has_job (id j) store).
  - unfold store_update_job. induction store as [|old store IH]; [done|].
    cbn [map]. rewrite !filter_cons, IH.
    destruct (String.eqb (id old) (id j)) eqn:E; [|done].
    apply String.eqb_eq in E. rewrite E, Hj. reflexivity.
  - rewrite filter_app, filter_cons_False by (rewrite Hj; cbn; tauto).
    by rewrite filter_nil, app_nil_r.
Qed.

Lemma job_id_inj a b : "backup_" +:+ a = "backup_" +:+ b -> a = b.
Proof. simpl. intros H. by injection H. Qed.

(** X2. Registering an enabled schedule on a running scheduler whose store
    has one job per id: the call returns, the trigger built from the
    schedule is the only one armed under its job id, the store still has
    one job per id, and the triggers of the other ids are untouched. *)
Theorem add_schedule_arms_one_trigger (st : State) (schedule : BackupSchedule)
    (trigger : Trigger) :
  running (scheduler st) = true ->
  NoDup (map id (jobstore (scheduler st))) ->
  sched_enabled schedule = true ->
  make_trigger schedule = Returned trigger ->
  snd (add_schedule schedule st) = Returned tt /\
  active_triggers (scheduler (fst (add_schedule schedule st)))
    ("backup_" +:+ schedule_id schedule) = [trigger] /\
  NoDup (map id (jobstore (scheduler (fst (add_schedule schedule st))))) /\
  (forall other, other <> schedule_id schedule ->
     active_triggers (scheduler (fst (add_schedule schedule st))) ("backup_" +:+ other) =
     active_triggers (scheduler st) ("backup_" +:+ other)).
Proof.
  intros Hrun Hnd Hen Htr. unfold add_schedule. rewrite Hen, Htr. cbn [negb fst snd].
  unfold add_job. cbn [scheduler]. rewrite Hrun. cbn [jobstore].
  split; [done|]. split; [|split].
  - unfold active_triggers. cbn [jobstore].
    pose proof (real_add_job_filter (jobstore (scheduler st))
                  (mk_Job ("backup_" +:+ schedule_id schedule) trigger (schedule_id schedule))
                  Hnd) as H.
    cbn [id] in H. by rewrite H.
  - by apply real_add_job_NoDup.
  - intros other Hne. unfold active_triggers. cbn [jobstore].
    rewrite real_add_job_other; [done|]. cbn [id]. intros H.
    by apply job_id_inj in H.
Qed.

Lemma add_schedule_arms_one_trigger_witness :
  make_trigger DemoSchedules.nightly_edited = Returned (Cron (mk_CronFields None 4 45)) /\
  active_triggers (scheduler (fst (add_schedule DemoSchedules.nightly_edited Demo.state)))
    "backup_nightly" = [Cron (mk_CronFields None 4 45)].
Proof.
  split; [reflexivity|].
  apply (add_schedule_arms_one_trigger Demo.state DemoSchedules.nightly_edited
           (Cron (mk_CronFields None 4 45))).
  - reflexivity.
  - vm_compute. repeat constructor. apply not_elem_of_nil.
  - reflexivity.
  - reflexivity.
Defined.

Lemma get_schedule_in_app sid l1 l2 :
  get_schedule_in sid (l1 ++ l2) =
  match get_schedule_in sid l1 with
  | Some s => Some s
  | None => get_schedule_in sid l2
  end.
Proof.
  induction l1 as [|s l1 IH]; [done|]. cbn.
  by destruct (String.eqb (schedule_id s) sid).
Qed.

(** X3. Looking up after registering: a schedule that was already stored
    under the id keeps answering; otherwise the schedule just added
    answers for its own id, and nothing answers for another id. This
    holds whether the schedule is enabled or not and whether the trigger
    was accepted or not. *)
Theorem get_schedule_after_add (st : State) (schedule : BackupSchedule) (sid : string) :
  get_schedule sid (fst (add_schedule schedule st)) =
  match get_schedule sid st with
  | Some old => Some old
  | None => if String.eqb (schedule_id schedule) sid then Some schedule else None
  end.
Proof.
  assert (schedules (fst (add_schedule schedule st)) = schedules st ++ [schedule]) as Hs.
  { unfold add_schedule. destruct (negb (sched_enabled schedule)); [done|].
    by destruct (make_trigger schedule). }
  unfold get_schedule. rewrite Hs, get_schedule_in_app. cbn.
  by destruct (String.eqb (schedule_id schedule) sid).
Qed.

Lemma get_schedule_in_filter_ne sid sid' l :
  sid' <> sid ->
  get_schedule_in sid' (filter (fun s => negb (String.eqb (schedule_id s) sid)) l) =
  get_schedule_in sid' l.
Proof.
  intros Hne. induction l as [|s l IH]; [done|].
  rewrite (filter_cons_bool (fun s => negb (String.eqb (schedule_id s) sid))).
  cbn [get_schedule_in].
  destruct (String.eqb (schedule_id s) sid) eqn:E; cbn [negb get_schedule_in].
  - apply String.eqb_eq in E.
    assert (String.eqb (schedule_id s) sid' = false) as ->; [|done].
    apply String.eqb_neq. congruence.
  - by rewrite IH.
Qed.

Lemma get_schedule_in_filter_eq sid l :
  get_schedule_in sid (filter (fun s => negb (String.eqb (schedule_id s) sid)) l) = None.
Proof.
  induction l as [|s l IH]; [done|].
  rewrite (filter_cons_bool (fun s => negb (String.eqb (schedule_id s) sid))).
  destruct (String.eqb (schedule_id s) sid) eqn:E; cbn [negb get_schedule_in]; [done|].
  by rewrite E.
Qed.

Lemma filter_filter_job jid (store : list Job) :
  filter (fun j => String.eqb (id j) jid)
    (filter (fun j => negb (String.eqb (id j) jid)) store) = [].
Proof.
  induction store as [|j store IH]; [done|].
  rewrite (filter_cons_bool (fun j => negb (String.eqb (id j) jid))).
  destruct (String.eqb (id j) jid) eqn:E; cbn [negb]; [done|].
  by rewrite (filter_cons_bool (fun j => String.eqb (id j) jid)), E.
Qed.

Lemma filter_filter_job_ne jid jid' (store : list Job) :
  jid' <> jid ->
  filter (fun j => String.eqb (id j) jid')
    (filter (fun j => negb (String.eqb (id j) jid)) store) =
  filter (fun j => String.eqb (id j) jid') store.
Proof.
  intros Hne. induction store as [|j store IH]; [done|].
  rewrite (filter_cons_bool (fun j => negb (String.eqb (id j) jid))).
  rewrite (filter_cons_bool (fun j => String.eqb (id j) jid') j store).
  destruct (String.eqb (id j) jid) eqn:E; cbn [negb].
  - apply String.eqb_eq in E.
    assert (String.eqb (id j) jid' = false) as ->; [|done].
    apply String.eqb_neq. congruence.
  - rewrite (filter_cons_bool (fun j => String.eqb (id j) jid')), IH. done.
Qed.

Lemma remove_first_pending_filter jid (pending : list Job) :
  match remove_first_pending jid pending with
  | Some rest =>
      filter (fun j => String.eqb (id j) jid) rest =
        tail (filter (fun j => String.eqb (id j) jid) pending) /\
      forall other, other <> jid ->
        filter (fun j => String.eqb (id j) other) rest =
        filter (fun j => String.eqb (id j) other) pending
  | None => filter (fun j => String.eqb (id j) jid) pending = []
  end.
Proof.
  induction pending as [|j pending IH]; [done|].
  cbn [remove_first_pending].
  rewrite (filter_cons_bool (fun j => String.eqb (id j) jid) j pending).
  destruct (String.eqb (id j) jid) eqn:E.
  - split; [done|]. intros other Hne.
    rewrite (filter_cons_bool (fun j => String.eqb (id j) other) j pending).
    apply String.eqb_eq in E.
    assert (String.eqb (id j) other = false) as ->; [|done].
    apply String.eqb_neq. congruence.
  - destruct (remove_first_pending jid pending) as [rest|]; [|done].
    destruct IH as [IH1 IH2]. split.
    + by rewrite (filter_cons_bool (fun j => String.eqb (id j) jid) j rest), E.
    + intros other Hne.
      rewrite !(filter_cons_bool (fun j => String.eqb (id j) other) j).
      by rewrite IH2.
Qed.

Lemma has_job_filter_nil jid (store : list Job) :
  has_job jid store = true <-> filter (fun j => String.eqb (id j) jid) store <> [].
Proof.
  induction store as [|j store IH]; [done|].
  unfold has_job in *. cbn [existsb].
  rewrite (filter_cons_bool (fun j => String.eqb (id j) jid) j store).
  destruct (String.eqb (id j) jid); cbn [orb]; [done|exact IH].
Qed.

Lemma has_job_update_job jid store j :
  has_job jid (store_update_job store j) = has_job jid store.
Proof.
  unfold has_job, store_update_job. induction store as [|old store IH]; [done|].
  cbn [map existsb]. rewrite IH. f_equal.
  destruct (String.eqb (id old) (id j)) eqn:E; [|done].
  apply String.eqb_eq in E. by rewrite E.
Qed.

Lemma has_job_real_add_job jid store j :
  has_job jid (real_add_job store j) = has_job jid store || String.eqb (id j) jid.
Proof.
  unfold real_add_job, store_add_job.
  destruct (has_job (id j) store) eqn:Hj.
  - rewrite has_job_update_job.
    destruct (String.eqb (id j) jid) eqn:E; [|by rewrite orb_false_r].
    apply String.eqb_eq in E. rewrite <- E, Hj. done.
  - unfold has_job. rewrite existsb_app. cbn [existsb]. by rewrite orb_false_r.
Qed.

Lemma has_job_start jid pending store :
  has_job jid (fold_left real_add_job pending store) = has_job jid store || has_job jid pending.
Proof.
  revert store. induction pending as [|j pending IH]; intros store; cbn [fold_left].
  - unfold has_job at 3. cbn. by rewrite orb_false_r.
  - rewrite IH, has_job_real_add_job. unfold has_job at 4. cbn [existsb].
    by rewrite orb_assoc.
Qed.

(** X4. Removing a schedule: every definition stored under the id is
    forgotten and the definitions of the other ids stay. On a running
    scheduler no trigger stays armed for the id and the triggers of the
    other ids are untouched. On a stopped scheduler only the first
    registration that waits for [start] is dropped: a schedule that was
    registered more than once while the scheduler was stopped is still
    armed by the next [start], although no definition is left for it. *)
Theorem remove_schedule_forgets (st : State) (sid : string) :
  get_schedule sid (remove_schedule sid st) = None /\
  (forall other, other <> sid ->
     get_schedule other (remove_schedule sid st) = get_schedule other st) /\
  running (scheduler (remove_schedule sid st)) = running (scheduler st) /\
  (running (scheduler st) = true ->
     active_triggers (scheduler (remove_schedule sid st)) ("backup_" +:+ sid) = [] /\
     pending_jobs (scheduler (remove_schedule sid st)) = pending_jobs (scheduler st) /\
     forall other, other <> sid ->
       active_triggers (scheduler (remove_schedule sid st)) ("backup_" +:+ other) =
       active_triggers (scheduler st) ("backup_" +:+ other)) /\
  (running (scheduler st) = false ->
     jobstore (scheduler (remove_schedule sid st)) = jobstore (scheduler st) /\
     pending_of (scheduler (remove_schedule sid st)) ("backup_" +:+ sid) =
       tail (pending_of (scheduler st) ("backup_" +:+ sid)) /\
     (forall other, other <> sid ->
        pending_of (scheduler (remove_schedule sid st)) ("backup_" +:+ other) =
        pending_of (scheduler st) ("backup_" +:+ other)) /\
     (tail (pending_of (scheduler st) ("backup_" +:+ sid)) <> [] ->
      active_triggers (scheduler (start (remove_schedule sid st))) ("backup_" +:+ sid) <> [])).
Proof.
  split; [|split].
  { unfold remove_schedule, get_schedule.
    destruct (remove_job _ _); cbn [schedules]; apply get_schedule_in_filter_eq. }
  { intros other Hne. unfold remove_schedule, get_schedule.
    destruct (remove_job _ _); cbn [schedules]; by apply get_schedule_in_filter_ne. }
  destruct st as [[run pending store] scheds].
  unfold remove_schedule, remove_job, active_triggers, pending_of.
  cbn [scheduler running pending_jobs jobstore].
  destruct run.
  - destruct (has_job ("backup_" +:+ sid) store) eqn:E;
      cbn [scheduler running pending_jobs jobstore].
    + split; [done|]. split; [|by intros [=]]. intros _.
      split; [by rewrite filter_filter_job|]. split; [done|].
      intros other Hne. rewrite filter_filter_job_ne; [done|].
      intros H. by apply job_id_inj in H.
    + split; [done|]. split; [|by intros [=]]. intros _.
      split; [by rewrite (has_job_false_filter _ _ E)|]. done.
  - pose proof (remove_first_pending_filter ("backup_" +:+ sid) pending) as H.
    destruct (remove_first_pending ("backup_" +:+ sid) pending) as [rest|];
      cbn [scheduler running pending_jobs jobstore].
    + destruct H as [H1 H2].
      split; [done|]. split; [by intros [=]|]. intros _.
      split; [done|]. split; [done|]. split.
      * intros other Hne. apply H2. intros E. by apply job_id_inj in E.
      * intros Hrest. unfold start. cbn [scheduler running APScheduler.start
                                          pending_jobs jobstore].
        intros Hnil.
        assert (has_job ("backup_" +:+ sid) (fold_left real_add_job rest store) = true) as Hj.
        { rewrite has_job_start. apply orb_true_iff. right.
          apply has_job_filter_nil. by rewrite H1. }
        apply has_job_filter_nil in Hj. apply Hj.
        by apply map_eq_nil in Hnil.
    + split; [done|]. split; [by intros [=]|]. intros _.
      split; [done|]. rewrite H. cbn [tail]. done.
Qed.

Lemma remove_schedule_forgets_witness :
  get_schedule "nightly" (remove_schedule "nightly" DemoVariants.state_stopped_twice) = None /\
  active_triggers
    (scheduler (start (remove_schedule "nightly" DemoVariants.state_stopped_twice)))
    "backup_nightly" <> [].
Proof.
  pose proof (remove_schedule_forgets DemoVariants.state_stopped_twice "nightly")
    as (Hget & _ & _ & _ & Hstopped).
  split; [exact Hget|].
  destruct Hstopped as (_ & _ & _ & Harmed); [reflexivity|].
  apply Harmed. by vm_compute.
Defined.

End SchedulerLaws.

Lemma weekly_trigger_shifts_days_witness :
  days_of_week (DemoSchedules.weekly "weekdays" [0; 2; 4]) <> [] /\
  SchedulerService.make_trigger (DemoSchedules.weekly "weekdays" [0; 2; 4]) =
  Returned (APScheduler.Cron (APScheduler.mk_CronFields (Some [1; 3; 5]) 3 30)).
Proof.
  split; [discriminate|].
  apply (weekly_trigger_shifts_days (DemoSchedules.weekly "weekdays" [0; 2; 4])).
  - reflexivity.
  - vm_compute; lia.
  - vm_compute; lia.
  - discriminate.
  - repeat constructor; lia.
Defined.

Section StartStop.

Import APScheduler SchedulerService.

(** X5. [start] and [stop] are idempotent and keep the list of schedules,
    but stopping a running scheduler empties its job store: no trigger
    is armed afterwards, and a later [start] arms none again, so every
    schedule has to be registered anew after a restart. *)
Theorem stop_disarms_every_schedule (st : State) :
  start (start st) = start st /\
  stop (stop st) = stop st /\
  schedules (stop st) = schedules st /\
  schedules (start st) = schedules st /\
  (running (scheduler st) = true ->
   (forall jid, active_triggers (scheduler (stop st)) jid = []) /\
   (pending_jobs (scheduler st) = [] ->
    running (scheduler (start (stop st))) = true /\
    schedules (start (stop st)) = schedules st /\
    forall jid, active_triggers (scheduler (start (stop st))) jid = [])).
Proof.
  destruct st as [[run pending store] scheds].
  unfold start, stop, active_triggers. cbn [scheduler running schedules].
  destruct run; cbn [scheduler running schedules APScheduler.start APScheduler.shutdown
                     pending_jobs jobstore].
  - do 4 (split; [done|]). intros _. split; [done|]. by intros ->.
  - do 4 (split; [done|]). by intros [=].
Qed.

Lemma stop_disarms_every_schedule_witness :
  active_triggers (scheduler Demo.state) "backup_nightly" = [Cron (mk_CronFields None 3 30)] /\
  get_schedule "nightly" (start (stop Demo.state)) = Some Demo.nightly /\
  active_triggers (scheduler (start (stop Demo.state))) "backup_nightly" = [].
Proof.
  split; [reflexivity|]. split; [reflexivity|].
  apply (proj2 (proj2 (proj2 (proj2 (stop_disarms_every_schedule Demo.state))))); reflexivity.
Defined.

(** X6. A schedule registered while the scheduler is stopped is armed when
    the scheduler starts: after [start], its trigger is the only one
    under its job id and the store has one job per id. *)
Theorem stopped_registration_armed_at_start (st : State) (schedule : BackupSchedule)
    (trigger : Trigger) :
  running (scheduler st) = false ->
  pending_jobs (scheduler st) = [] ->
  NoDup (map id (jobstore (scheduler st))) ->
  sched_enabled schedule = true ->
  make_trigger schedule = Returned trigger ->
  active_triggers (scheduler (fst (add_schedule schedule st)))
    ("backup_" +:+ schedule_id schedule) =
    active_triggers (scheduler st) ("backup_" +:+ schedule_id schedule) /\
  active_triggers (scheduler (start (fst (add_schedule schedule st))))
    ("backup_" +:+ schedule_id schedule) = [trigger] /\
  NoDup (map id (jobstore (scheduler (start (fst (add_schedule schedule st)))))).
Proof.
  intros Hrun Hpending Hnd Hen Htr.
  unfold add_schedule. rewrite Hen, Htr. cbn [negb fst].
  unfold start, add_job. cbn [scheduler]. rewrite Hrun, Hpending.
  cbn [running scheduler APScheduler.start pending_jobs jobstore app fold_left].
  split; [done|]. split.
  - unfold active_triggers. cbn [jobstore].
    pose proof (real_add_job_filter (jobstore (scheduler st))
                  (mk_Job ("backup_" +:+ schedule_id schedule) trigger (schedule_id schedule))
                  Hnd) as H.
    cbn [id] in H. unfold APScheduler.start. cbn [pending_jobs jobstore fold_left].
    by rewrite H.
  - unfold APScheduler.start. cbn [pending_jobs jobstore fold_left].
    by apply real_add_job_NoDup.
Qed.

Lemma stopped_registration_armed_at_start_witness :
  running (scheduler init) = false /\
  active_triggers (scheduler (start (fst (add_schedule Demo.nightly init))))
    "backup_nightly" = [Cron (mk_CronFields None 3 30)].
Proof.
  split; [reflexivity|].
  apply (stopped_registration_armed_at_start init Demo.nightly (Cron (mk_CronFields None 3 30)));
    try reflexivity.
  constructor.
Defined.

End StartStop.

(** ** More on the job executor *)

Section JobLaws.

Import SchedulerService JobFacts EffectFacts.

Lemma backup_server_effects env server root :
  Forall (fun e => exists src zip, e = EArchive src zip)
    (snd (BackupService.backup_server env server root)).
Proof.
  unfold BackupService.backup_server.
  destruct (negb _); [constructor|].
  destruct (mkdir _ _); [|constructor].
  destruct (write_zip _ _ _); [|repeat constructor; eauto].
  destruct (stat_size _ _); repeat constructor; eauto.
Qed.

Lemma cloud_upload_effects env schedule server result :
  Forall (fun e => is_upload e = true) (snd (cloud_upload env schedule server result)).
Proof.
  unfold cloud_upload.
  repeat (case_match; cbn [snd]; try (by repeat constructor)).
Qed.

(** What the turn of one server can do: stop and wait when the server
    is running, archive, upload, and restart only after a successful
    archive. *)
Lemma server_effects_shape env schedule server :
  exists archive upload,
    server_effects env schedule server =
      (if is_server_running env (server_id server)
       then [EStop (server_id server); ESleep 5] else []) ++
      archive ++ upload ++
      (if archive_ok env schedule server then [EStart (server_id server)] else []) /\
    Forall (fun e => exists src zip, e = EArchive src zip) archive /\
    Forall (fun e => is_upload e = true) upload /\
    (enable_cloud_backup schedule = false \/ archive_ok env schedule server = false ->
     upload = []).
Proof.
  unfold server_effects.
  pose proof (backup_server_effects env server (backup_path schedule)) as Harch.
  pose proof (server_result_success env schedule server) as Hs.
  unfold server_result in Hs.
  destruct (BackupService.backup_server env server (backup_path schedule))
    as [result e_backup]. cbn [fst snd] in *.
  assert (success result = archive_ok env schedule server) as Hok.
  { destruct (success result && enable_cloud_backup schedule &&
              PyStr.truthy (r_backup_path result)); [|done].
    by rewrite cloud_upload_success in Hs. }
  rewrite Hok.
  eexists e_backup, _. split; [reflexivity|]. split; [done|]. split.
  - destruct (archive_ok env schedule server && enable_cloud_backup schedule &&
              PyStr.truthy (r_backup_path result));
      [apply cloud_upload_effects|constructor].
  - intros [H|H]; rewrite H; [by rewrite andb_false_r|done].
Qed.

End JobLaws.

(** X7. The job carries exactly one result per targeted server, in the order
    of the server list, and the success of each result is the outcome of
    that server's own archive step: no server's failure changes the
    result of another. *)
Theorem job_results_follow_targets
    (env : Env) (st : SchedulerService.State) (sid : string)
    (servers : option (list ServerConfig)) :
  map r_server_id (server_results (fst (SchedulerService.execute_backup_async env st sid servers)))
    = map server_id
        (SchedulerService.enabled_servers (SchedulerService.resolve_schedule env st sid)
           (SchedulerService.resolve_servers env servers)) /\
  map success (server_results (fst (SchedulerService.execute_backup_async env st sid servers)))
    = map (JobFacts.archive_ok env (SchedulerService.resolve_schedule env st sid))
        (SchedulerService.enabled_servers (SchedulerService.resolve_schedule env st sid)
           (SchedulerService.resolve_servers env servers)).
Proof.
  rewrite execute_results, !map_map. split; apply map_ext; intros s.
  - apply server_result_id.
  - apply server_result_success.
Qed.

(** X8. When the completion callback returns, the job is completed exactly
    when the archive step of every targeted server succeeded, and failed
    otherwise. *)
Theorem job_completed_iff_all_archived
    (env : Env) (st : SchedulerService.State) (sid : string)
    (servers : option (list ServerConfig)) :
  JobFacts.callback_ok env ->
  (status (fst (SchedulerService.execute_backup_async env st sid servers)) = COMPLETED <->
   Forall (fun s => JobFacts.archive_ok env (SchedulerService.resolve_schedule env st sid) s = true)
     (SchedulerService.enabled_servers (SchedulerService.resolve_schedule env st sid)
        (SchedulerService.resolve_servers env servers))) /\
  (status (fst (SchedulerService.execute_backup_async env st sid servers)) = COMPLETED \/
   status (fst (SchedulerService.execute_backup_async env st sid servers)) = FAILED).
Proof.
  intros Hcb.
  set (schedule := SchedulerService.resolve_schedule env st sid).
  set (targets := SchedulerService.enabled_servers schedule
                    (SchedulerService.resolve_servers env servers)).
  assert (forallb success (map (JobFacts.server_result env schedule) targets) = true <->
          Forall (fun s => JobFacts.archive_ok env schedule s = true) targets) as Hall.
  { rewrite forallb_forall, Forall_forall. split.
    - intros H s Hs. rewrite <- server_result_success. apply H.
      apply in_map. by apply list_elem_of_In.
    - intros H r Hr. apply in_map_iff in Hr as (s & <- & Hs).
      rewrite server_result_success. apply H. by apply list_elem_of_In. }
  destruct (forallb success (map (JobFacts.server_result env schedule) targets)) eqn:E.
  - pose proof (execute_status_completed env st sid servers E Hcb) as ->.
    split; [|by left]. split; [intros _; by apply Hall|done].
  - pose proof (execute_status_failed env st sid servers E) as ->.
    split; [|by right]. split; [done|]. intros H. apply Hall in H. done.
Qed.

Lemma job_completed_iff_all_archived_witness :
  JobFacts.callback_ok Demo.env /\
  status (fst (SchedulerService.execute_backup_async Demo.env Demo.state "nightly" None))
    <> COMPLETED.
Proof.
  split; [exact I|].
  intros H.
  apply (proj1 (job_completed_iff_all_archived Demo.env Demo.state "nightly" None I)) in H.
  apply Forall_cons in H as [_ H]. apply Forall_cons in H as [H _]. discriminate H.
Defined.

Section JobEffects.

Import SchedulerService JobFacts EffectFacts.

Context (env : Env) (st : State) (sid : string) (servers : option (list ServerConfig)).

(** The effects of a job, in full. *)
Lemma execute_effects_full :
  exists tail,
    snd (execute_backup_async env st sid servers) =
      flat_map (server_effects env (resolve_schedule env st sid))
        (enabled_servers (resolve_schedule env st sid) (resolve_servers env servers)) ++
      ECleanup (backup_path (resolve_schedule env st sid))
        (retention_days (resolve_schedule env st sid)) :: tail /\
    Forall (fun e => is_callback e = true) tail.
Proof.
  unfold execute_backup_async. rewrite backup_loop_eq. cbn [app].
  destruct (backup_completed_callback env) as [callback|].
  - destruct (callback _); cbn [snd]; eexists; split; try reflexivity; by repeat constructor.
  - cbn [snd]. exists []. split; [done|constructor].
Qed.

Lemma server_effects_no_bookkeeping schedule server :
  Forall (fun e => is_cleanup e = false /\ is_callback e = false)
    (server_effects env schedule server).
Proof.
  destruct (server_effects_shape env schedule server)
    as (archive & upload & -> & Harch & Hup & _).
  rewrite !Forall_app. split; [|split; [|split]].
  - destruct (is_server_running _ _); repeat constructor.
  - eapply Forall_impl; [exact Harch|]. by intros e (src & zip & ->).
  - eapply Forall_impl; [exact Hup|]. by intros [].
  - destruct (archive_ok _ _ _); repeat constructor.
Qed.

End JobEffects.

(** X12. The retention sweep runs exactly once per job, on the backup root
    and retention of the schedule, after the turn of the last server and
    before the delivery to the callback, whether servers failed or not. *)
Theorem cleanup_runs_once_after_servers
    (env : Env) (st : SchedulerService.State) (sid : string)
    (servers : option (list ServerConfig)) :
  exists before after,
    snd (SchedulerService.execute_backup_async env st sid servers) =
      before ++
      ECleanup (backup_path (SchedulerService.resolve_schedule env st sid))
        (retention_days (SchedulerService.resolve_schedule env st sid)) :: after /\
    Forall (fun e => EffectFacts.is_cleanup e = false /\ EffectFacts.is_callback e = false) before /\
    Forall (fun e => EffectFacts.is_callback e = true) after.
Proof.
  destruct (execute_effects_full env st sid servers) as (tail & -> & Htail).
  eexists _, tail. split; [reflexivity|]. split; [|done].
  induction (SchedulerService.enabled_servers _ _) as [|s l IH]; [constructor|].
  cbn [flat_map]. apply Forall_app. split; [apply server_effects_no_bookkeeping|done].
Qed.

(** X9. An exception of the completion callback does not lose the job: the
    job is returned with every server result, but as failed and with the
    text of the exception as its message, even when every server was
    backed up. *)
Theorem callback_exception_fails_job
    (env : Env) (st : SchedulerService.State) (sid : string)
    (servers : option (list ServerConfig))
    (callback : BackupJob -> Outcome unit) (text : string) :
  backup_completed_callback env = Some callback ->
  (forall job, callback job = Raised text) ->
  status (fst (SchedulerService.execute_backup_async env st sid servers)) = FAILED /\
  message (fst (SchedulerService.execute_backup_async env st sid servers)) = text /\
  map success (server_results (fst (SchedulerService.execute_backup_async env st sid servers)))
    = map (JobFacts.archive_ok env (SchedulerService.resolve_schedule env st sid))
        (SchedulerService.enabled_servers (SchedulerService.resolve_schedule env st sid)
           (SchedulerService.resolve_servers env servers)).
Proof.
  intros Hcb Hraise. split; [|split].
  - unfold SchedulerService.execute_backup_async. rewrite backup_loop_eq, Hcb, Hraise. done.
  - unfold SchedulerService.execute_backup_async. rewrite backup_loop_eq, Hcb, Hraise. done.
  - rewrite execute_results, !map_map. apply map_ext. intros s. apply server_result_success.
Qed.

Lemma callback_exception_fails_job_witness :
  map success
    (server_results
       (fst (SchedulerService.execute_backup_async DemoVariants.env_callback_raises
               Demo.state "nightly" None))) = [true; true; true] /\
  status
    (fst (SchedulerService.execute_backup_async DemoVariants.env_callback_raises
            Demo.state "nightly" None)) = FAILED.
Proof.
  split; [reflexivity|].
  apply (callback_exception_fails_job DemoVariants.env_callback_raises Demo.state "nightly"
           None (fun _ => Raised "main thread is not in main loop")
           "main thread is not in main loop").
  - reflexivity.
  - intros job. reflexivity.
Defined.

(** X10. A running server whose archive step fails is stopped by the job and
    not restarted: the job issues [stop_server] for it and never
    [start_server], provided no other targeted server shares its id with
    a successful archive. *)
Theorem failed_archive_leaves_server_stopped
    (env : Env) (st : SchedulerService.State) (sid : string)
    (servers : option (list ServerConfig)) (server : ServerConfig) :
  server ∈ SchedulerService.enabled_servers (SchedulerService.resolve_schedule env st sid)
             (SchedulerService.resolve_servers env servers) ->
  is_server_running env (server_id server) = true ->
  (forall other,
     other ∈ SchedulerService.enabled_servers (SchedulerService.resolve_schedule env st sid)
               (SchedulerService.resolve_servers env servers) ->
     server_id other = server_id server ->
     JobFacts.archive_ok env (SchedulerService.resolve_schedule env st sid) other = false) ->
  EStop (server_id server) ∈ snd (SchedulerService.execute_backup_async env st sid servers) /\
  EStart (server_id server) ∉ snd (SchedulerService.execute_backup_async env st sid servers).
Proof.
  intros Hin Hrun Hfail.
  destruct (execute_effects_full env st sid servers) as (tail & -> & Htail).
  split.
  - apply elem_of_app. left. apply list_elem_of_In, in_flat_map.
    exists server. split; [by apply list_elem_of_In|].
    destruct (server_effects_shape env (SchedulerService.resolve_schedule env st sid) server) as (archive & upload & -> & _).
    rewrite Hrun. by left.
  - intros H. apply elem_of_app in H as [H|H].
    + apply list_elem_of_In, in_flat_map in H as (other & Ho & H).
      apply list_elem_of_In in Ho.
      destruct (server_effects_shape env (SchedulerService.resolve_schedule env st sid) other) as (archive & upload & Heq & Harch & Hup & _).
      rewrite Heq in H. apply list_elem_of_In in H.
      rewrite !elem_of_app in H. destruct H as [H|[H|[H|H]]].
      * destruct (is_server_running env (server_id other)); [|by apply elem_of_nil in H].
        apply elem_of_cons in H as [H|H]; [done|].
        apply list_elem_of_singleton in H. done.
      * rewrite Forall_forall in Harch. apply Harch in H as (src & zip & H). done.
      * rewrite Forall_forall in Hup. apply Hup in H. done.
      * destruct (JobFacts.archive_ok env _ other) eqn:E; [|by apply elem_of_nil in H].
        apply list_elem_of_singleton in H. injection H as H.
        rewrite (Hfail other Ho) in E; done.
    + apply elem_of_cons in H as [H|H]; [done|].
      rewrite Forall_forall in Htail. apply Htail in H. done.
Qed.

Lemma failed_archive_leaves_server_stopped_witness :
  is_server_running DemoVariants.env_all_running (server_id Demo.B) = true /\
  EStop (server_id Demo.B) ∈
    snd (SchedulerService.execute_backup_async DemoVariants.env_all_running
           Demo.state "nightly" None).
Proof.
  split; [reflexivity|].
  apply (failed_archive_leaves_server_stopped DemoVariants.env_all_running Demo.state
           "nightly" None Demo.B).
  - apply list_elem_of_In. vm_compute. tauto.
  - reflexivity.
  - intros other Ho Hid. apply list_elem_of_In in Ho. vm_compute in Ho.
    destruct Ho as [<-|[<-|[<-|[]]]]; [discriminate Hid | reflexivity | discriminate Hid].
Defined.

(** X11. A schedule with cloud backup disabled never uploads: the job calls
    no cloud backend and no result reports a cloud copy. *)
Theorem cloud_disabled_never_uploads
    (env : Env) (st : SchedulerService.State) (sid : string)
    (servers : option (list ServerConfig)) :
  enable_cloud_backup (SchedulerService.resolve_schedule env st sid) = false ->
  Forall (fun e => JobFacts.is_upload e = false)
    (snd (SchedulerService.execute_backup_async env st sid servers)) /\
  Forall (fun r => cloud_backup_success r = false /\ r_cloud_backup_path r = "")
    (server_results (fst (SchedulerService.execute_backup_async env st sid servers))).
Proof.
  intros Hoff. split.
  - destruct (execute_effects_full env st sid servers) as (tail & -> & Htail).
    apply Forall_app. split.
    + induction (SchedulerService.enabled_servers _ _) as [|s l IH]; [constructor|].
      cbn [flat_map]. apply Forall_app. split; [|done].
      destruct (server_effects_shape env (SchedulerService.resolve_schedule env st sid) s) as (archive & upload & -> & Harch & _ & Hnone).
      rewrite (Hnone (or_introl Hoff)), !Forall_app. split; [|split; [|split]].
      * destruct (is_server_running _ _); repeat constructor.
      * eapply Forall_impl; [exact Harch|]. by intros e (src & zip & ->).
      * constructor.
      * destruct (JobFacts.archive_ok _ _ _); repeat constructor.
    + constructor; [done|]. eapply Forall_impl; [exact Htail|]. by intros [].
  - rewrite execute_results. apply Forall_forall. intros r Hr.
    apply list_elem_of_In, in_map_iff in Hr as (s & <- & _).
    unfold JobFacts.server_result. rewrite Hoff, andb_false_r. cbn [andb].
    unfold BackupService.backup_server.
    destruct (negb _); [done|]. destruct (mkdir _ _); [|done].
    destruct (write_zip _ _ _); [|done]. by destruct (stat_size _ _).
Qed.

Lemma cloud_disabled_never_uploads_witness :
  enable_cloud_backup
    (SchedulerService.resolve_schedule Demo.env DemoVariants.state_mondays "mondays") = false /\
  Forall (fun e => JobFacts.is_upload e = false)
    (snd (SchedulerService.execute_backup_async Demo.env DemoVariants.state_mondays
            "mondays" None)).
Proof.
  split; [reflexivity|].
  apply (cloud_disabled_never_uploads Demo.env DemoVariants.state_mondays "mondays" None).
  reflexivity.
Defined.

(** X13. What [backup_server] reports. It is always a result for the
    server asked for, with the cloud fields untouched. A successful
    result names the archive it wrote (a non-empty path) with the size
    read from it and no error message, and the save path existed. A
    failed result has size 0; it has no archive path, except when the
    archive was written and only the reading of its size failed: then
    the failed result names the archive. *)
Theorem backup_server_result_invariant (env : Env) (server : ServerConfig) (root : string) :
  r_server_id (BackupService.backup_server env server root).1 = server_id server /\
  r_server_name (BackupService.backup_server env server root).1 = server_name server /\
  cloud_backup_success (BackupService.backup_server env server root).1 = false /\
  r_cloud_backup_path (BackupService.backup_server env server root).1 = "" /\
  (if success (BackupService.backup_server env server root).1
   then r_backup_path (BackupService.backup_server env server root).1
          = BackupService.archive_path env server root /\
        PyStr.truthy (r_backup_path (BackupService.backup_server env server root).1) = true /\
        error_message (BackupService.backup_server env server root).1 = "" /\
        path_exists env (save_game_path server) = true /\
        stat_size env (BackupService.archive_path env server root) =
          Returned (backup_size_bytes (BackupService.backup_server env server root).1)
   else backup_size_bytes (BackupService.backup_server env server root).1 = 0 /\
        r_backup_path (BackupService.backup_server env server root).1 =
          (if path_exists env (save_game_path server) &&
              JobFacts.returns (mkdir env (BackupService.archive_dir env server root)) &&
              JobFacts.returns (write_zip env (save_game_path server)
                         (BackupService.archive_path env server root))
           then BackupService.archive_path env server root
           else "")).
Proof.
  unfold BackupService.backup_server.
  destruct (path_exists env (save_game_path server)); cbn [negb andb]; [|done].
  destruct (mkdir env _); cbn [JobFacts.returns andb]; [|done].
  destruct (write_zip env _ _); cbn [JobFacts.returns]; [|done].
  destruct (stat_size env _); cbn [fst success r_backup_path]; [|done].
  repeat split; try done. apply archive_path_truthy.
Qed.

(** ** More on the retention sweep *)

Section RetentionLaws.

Import BackupService RetentionFacts.

Lemma sweep_server_dir_cons cutoff (s : SnapshotEntry) (snaps : list SnapshotEntry) :
  snapshot_readable s = true ->
  sweep_server_dir cutoff (s :: snaps) =
  ((if survives cutoff s then s :: (sweep_server_dir cutoff snaps).1
    else (sweep_server_dir cutoff snaps).1),
   (sweep_server_dir cutoff snaps).2).
Proof.
  intros Hs. destruct s as [f|n mtime ok|n]; [| |done];
    cbn [sweep_server_dir]; by destruct (sweep_server_dir cutoff snaps).
Qed.

Lemma sweep_server_dir_idem cutoff (snaps : list SnapshotEntry) :
  sweep_server_dir cutoff (sweep_server_dir cutoff snaps).1 = sweep_server_dir cutoff snaps.
Proof.
  induction snaps as [|s snaps IH]; [done|].
  destruct (snapshot_readable s) eqn:Hs; [|by destruct s].
  rewrite (sweep_server_dir_cons _ _ _ Hs). cbn [fst].
  destruct (survives cutoff s) eqn:E.
  - rewrite (sweep_server_dir_cons _ _ _ Hs), E, IH. done.
  - rewrite IH. by destruct (sweep_server_dir cutoff snaps).
Qed.

Lemma sweep_root_idem cutoff (entries : list RootEntry) :
  sweep_root cutoff (sweep_root cutoff entries) = sweep_root cutoff entries.
Proof.
  induction entries as [|e entries IH]; [done|].
  destruct e as [f|d snaps|n]; cbn [sweep_root]; [by rewrite IH| |done].
  pose proof (sweep_server_dir_idem cutoff snaps) as Hs.
  destruct (sweep_server_dir cutoff snaps) as [snaps' raised]. cbn [fst] in Hs.
  cbn [sweep_root]. rewrite Hs. destruct raised; [done|by rewrite IH].
Qed.

(** Whether the sweep of a server directory is cut short does not depend
    on the cutoff. *)
Lemma sweep_server_dir_raised c1 c2 (snaps : list SnapshotEntry) :
  (sweep_server_dir c1 snaps).2 = (sweep_server_dir c2 snaps).2.
Proof.
  induction snaps as [|s snaps IH]; [done|].
  destruct (snapshot_readable s) eqn:Hs; [|by destruct s].
  by rewrite !(sweep_server_dir_cons _ _ _ Hs).
Qed.

Lemma sweep_server_dir_mono c1 c2 (snaps : list SnapshotEntry) s :
  (survives c1 s = true -> survives c2 s = true) ->
  In s (sweep_server_dir c1 snaps).1 -> In s (sweep_server_dir c2 snaps).1.
Proof.
  intros Hsurv. induction snaps as [|x snaps IH]; [done|].
  destruct (snapshot_readable x) eqn:Hx; [|by destruct x].
  rewrite !(sweep_server_dir_cons _ _ _ Hx). cbn [fst].
  destruct (survives c1 x) eqn:E1; destruct (survives c2 x) eqn:E2; cbn [In]; try tauto.
  intros [->|H]; [|tauto]. rewrite (Hsurv E1) in E2. done.
Qed.

Lemma sweep_root_mono c1 c2 (entries : list RootEntry) d s :
  (survives c1 s = true -> survives c2 s = true) ->
  In (d, s) (snapshots (Some (sweep_root c1 entries))) ->
  In (d, s) (snapshots (Some (sweep_root c2 entries))).
Proof.
  intros Hsurv. unfold snapshots.
  induction entries as [|e entries IH]; [done|].
  destruct e as [f|d' snaps|n]; cbn [sweep_root flat_map app]; [done| |done].
  pose proof (sweep_server_dir_mono c1 c2 snaps s Hsurv) as Hs.
  pose proof (sweep_server_dir_raised c1 c2 snaps) as Hr.
  destruct (sweep_server_dir c1 snaps) as [snaps1 raised1].
  destruct (sweep_server_dir c2 snaps) as [snaps2 raised2].
  cbn [fst snd] in *. subst raised2.
  cbn [flat_map]. rewrite !in_app_iff, !in_map_iff.
  intros [(x & [= -> ->] & Hx)|H].
  - left. exists s. auto.
  - right. destruct raised1; auto.
Qed.

Lemma sweep_root_names cutoff (entries : list RootEntry) :
  map (fun e => match e with RootFile f => f | ServerDir n _ => n | RootUnreadable n => n end)
    (sweep_root cutoff entries) =
  map (fun e => match e with RootFile f => f | ServerDir n _ => n | RootUnreadable n => n end)
    entries.
Proof.
  induction entries as [|e entries IH]; [done|].
  destruct e as [f|d snaps|n]; cbn [sweep_root map]; [by rewrite IH| |done].
  destruct (sweep_server_dir cutoff snaps) as [snaps' raised]. cbn [map].
  destruct raised; [done|by rewrite IH].
Qed.

(** X14. Sweeping again at the same instant deletes nothing more. *)
Theorem cleanup_idempotent (now : Q) (root : option (list RootEntry)) (retention : nat) :
  cleanup_old_backups now (cleanup_old_backups now root retention) retention =
  cleanup_old_backups now root retention.
Proof.
  destruct root as [entries|]; [|done]. unfold cleanup_old_backups. f_equal.
  apply sweep_root_idem.
Qed.

(** X15. What the sweep never deletes: the entries of the root (server
    directories, stray files and unreadable entries alike, in their
    order), the files and unreadable entries that lie beside the
    snapshot directories, the snapshot directories that are not older
    than the cutoff, and those that [rmtree] fails to remove. A root
    that does not exist stays absent. *)
Theorem cleanup_keeps (now : Q) (entries : list RootEntry) (retention : nat)
    (d : string) (s : SnapshotEntry) :
  In (d, s) (snapshots (Some entries)) ->
  match s with
  | SnapFile _ => True
  | SnapDir _ mtime ok =>
      ok = false \/ (now - days (Z.of_nat retention) <= mtime)%Q
  | SnapUnreadable _ => True
  end ->
  In (d, s) (snapshots (cleanup_old_backups now (Some entries) retention)) /\
  (exists swept,
     cleanup_old_backups now (Some entries) retention = Some swept /\
     map (fun e => match e with
                   | RootFile f => f | ServerDir n _ => n | RootUnreadable n => n
                   end) swept =
     map (fun e => match e with
                   | RootFile f => f | ServerDir n _ => n | RootUnreadable n => n
                   end) entries) /\
  cleanup_old_backups now None retention = None.
Proof.
  intros Hin Hs. split; [|split; [|done]].
  - apply snapshots_sweep_in; [done|].
    destruct s as [f|n mtime ok|n]; [done| |done]. cbn [survives].
    destruct (older_than mtime _) eqn:E; [|done].
    apply older_than_lt in E. destruct Hs as [->|Hle]; [done|].
    unfold days in Hle. exfalso. revert E. by apply Qle_not_lt.
  - eexists. split; [reflexivity|]. apply sweep_root_names.
Qed.

Lemma cleanup_keeps_witness :
  In ("1", SnapDir "2024-02-20_03-30-00" (inject_Z 1708399800) false)
     (snapshots
        (Some [ServerDir "1" [SnapDir "2024-02-20_03-30-00" (inject_Z 1708399800) false]])) /\
  In ("1", SnapDir "2024-02-20_03-30-00" (inject_Z 1708399800) false)
     (snapshots
        (cleanup_old_backups (inject_Z 1709303400)
           (Some [ServerDir "1" [SnapDir "2024-02-20_03-30-00" (inject_Z 1708399800) false]])
           7)).
Proof.
  split; [left; reflexivity|].
  apply (cleanup_keeps (inject_Z 1709303400)
           [ServerDir "1" [SnapDir "2024-02-20_03-30-00" (inject_Z 1708399800) false]]
           7 "1" (SnapDir "2024-02-20_03-30-00" (inject_Z 1708399800) false)).
  - left; reflexivity.
  - left; reflexivity.
Defined.

(** X16. A longer retention keeps at least what a shorter one keeps. *)
Theorem cleanup_monotone (now : Q) (entries : list RootEntry) (shorter longer : nat)
    (d : string) (s : SnapshotEntry) :
  shorter <= longer ->
  In (d, s) (snapshots (cleanup_old_backups now (Some entries) shorter)) ->
  In (d, s) (snapshots (cleanup_old_backups now (Some entries) longer)).
Proof.
  intros Hle. unfold cleanup_old_backups. apply sweep_root_mono.
  destruct s as [f|n mtime ok|n]; [done| |done]. cbn [survives].
  destruct (older_than mtime (now - inject_Z (Z.of_nat longer * 24 * 60 * 60))) eqn:E;
    [|done].
  apply older_than_lt in E.
  assert (older_than mtime (now - inject_Z (Z.of_nat shorter * 24 * 60 * 60)) = true) as Hsh;
    [|by rewrite Hsh].
  apply older_than_lt. eapply Qlt_le_trans; [exact E|].
  assert (inject_Z (Z.of_nat shorter * 24 * 60 * 60) <=
          inject_Z (Z.of_nat longer * 24 * 60 * 60))%Q as H.
  { rewrite <- Zle_Qle. lia. }
  lra.
Qed.

Lemma cleanup_monotone_witness :
  7 <= 30 /\
  In ("1", SnapDir "2024-02-25_03-30-00" (inject_Z 1708831800) true)
     (snapshots
        (cleanup_old_backups (inject_Z 1709303400)
           (Some [ServerDir "1" [SnapDir "2024-02-25_03-30-00" (inject_Z 1708831800) true]])
           30)).
Proof.
  split; [lia|].
  apply (cleanup_monotone (inject_Z 1709303400)
           [ServerDir "1" [SnapDir "2024-02-25_03-30-00" (inject_Z 1708831800) true]]
           7 30 "1" (SnapDir "2024-02-25_03-30-00" (inject_Z 1708831800) true)).
  - lia.
  - vm_compute. left; reflexivity.
Defined.

End RetentionLaws.

(** ** More on the restore *)

Section RestoreLaws.

Import RestoreService RestoreRun RestoreMore.

Context (env : RestoreEnv).

Lemma reached_in names n : In n (reached env names) -> In n names.
Proof.
  induction names as [|x names IH]; [done|]. cbn [reached].
  destruct (aborting env x); cbn [In]; tauto.
Qed.

Lemma extracted_names_in names n :
  In n (extracted_names env names) -> In n names /\ skipped_by_extension n = false.
Proof.
  unfold extracted_names. intros Hin.
  apply list_elem_of_In, list_elem_of_filter in Hin as [He Hin].
  apply list_elem_of_In, reached_in in Hin. split; [done|].
  apply Is_true_eq_true in He. unfold extractable in He.
  by destruct (skipped_by_extension n).
Qed.

Lemma written_in names n :
  In n (written env names) <-> In n (extracted_names env names) /\ is_dir n = false.
Proof.
  unfold written. rewrite <- !list_elem_of_In, list_elem_of_filter.
  destruct (is_dir n); cbn; split; intros []; done.
Qed.

(** What a restore into a directory leaves there: the entries for which
    a file was written are entries of the archive that are neither
    skip-listed nor directory entries; every entry reported as
    extracted is among them or is a directory entry; and a name of the
    destination holds the data of the last of them stored there, or
    what it held. *)
Lemma restore_destination fs backup_info dest_path create_backup files :
  fs !! dest_path = Some (FsDir files) ->
  exists members names,
    (forall n, In n names ->
       In n (get_backup_contents fs backup_info) /\
       skipped_by_extension n = false /\ is_dir n = false /\
       fs !! filepath backup_info = Some (FsFile (ZipEntries members))) /\
    (forall m,
       In (RExtract m) (effects (restore_backup env fs backup_info dest_path create_backup)) ->
       In m (get_backup_contents fs backup_info) /\
       skipped_by_extension m = false /\
       (is_dir m = false -> In m names)) /\
    (forall k,
       file_at (fs_after (restore_backup env fs backup_info dest_path create_backup))
         dest_path k =
       match last (filter (fun n => String.eqb (arcname env n) k) names) with
       | Some n => Some (member_data members n)
       | None => files !! k
       end).
Proof.
  intros Hd.
  pose proof (backup_dest_ne env dest_path) as Hsib.
  destruct (restore_backup_cases env fs backup_info dest_path create_backup)
    as [(_ & _ & Hno & Hk & _)|(archive & fs0 & effs0 & Ha & _ & -> & Hno & Hd0 & _)].
  { exists [], []. split; [done|]. split; [intros m Hin; by destruct (Hno m)|].
    intros k. unfold file_at. rewrite Hk by done. by rewrite Hd. }
  rewrite Hd in Hd0.
  destruct archive as [[members| |e]|files'].
  2-4: exists [], []; (split; [done|]);
       (split; [intros m Hin; by destruct (Hno m)|]);
       intros k; unfold file_at, fs_after, extract_backup; cbn [fst snd]; by rewrite Hd0.
  destruct (extract_backup_directory env fs0 (filepath backup_info) members dest_path files
              effs0 Hd0) as (Hfs & Heff & _).
  exists members, (written env (map fst members)).
  assert (get_backup_contents fs backup_info = map fst members) as Hc.
  { unfold get_backup_contents. by rewrite Ha. }
  split; [|split].
  - intros n [Hin Hdir]%written_in. apply extracted_names_in in Hin as [Hin Hs].
    by rewrite Hc.
  - intros m Hin. rewrite Heff in Hin. apply in_app_or in Hin as [Hin|Hin];
      [by destruct (Hno m)|].
    apply in_map_iff in Hin as (x & [= ->] & Hin).
    pose proof (extracted_names_in _ _ Hin) as [Hmem Hs].
    rewrite Hc. split; [done|]. split; [done|]. intros Hdir. by apply written_in.
  - intros k. unfold file_at. rewrite Hfs, lookup_insert_eq. apply stored_lookup.
Qed.


Lemma last_filter_none {A} (p : A -> bool) (l : list A) :
  (forall x, In x l -> p x = false) -> last (filter (fun a => p a) l) = None.
Proof.
  intros H. apply last_None.
  induction l as [|x l IH]; [done|].
  rewrite (filter_cons_bool p), (H x) by (by left). apply IH.
  intros y Hy. apply H. by right.
Qed.

End RestoreLaws.

Section RestoreTheorems.

Import RestoreService RestoreRun RestoreMore.

(** X17. The extraction loop accounts for every entry it is given exactly
    once, as extracted, skipped or failed, when it runs to its end; a
    loop that an exception ends has accounted for no more entries than
    it was given, the last of them as failed. *)
Theorem extract_all_counts_every_member (env : RestoreEnv) (dest : list string)
    (members : list (string * string)) (file_list : list string)
    (fs : gmap (list string) FsNode) (c : Counts) (effs : list RestoreEffect) :
  match exit_of (extract_all env dest members file_list (fs, c, effs)) with
  | None =>
      total (counts_of (extract_all env dest members file_list (fs, c, effs))) =
      total c + length file_list
  | Some _ =>
      total (counts_of (extract_all env dest members file_list (fs, c, effs))) <=
      total c + length file_list /\
      error_count c < error_count (counts_of (extract_all env dest members file_list (fs, c, effs)))
  end.
Proof.
  destruct (extract_all_spec env dest members file_list fs c effs)
    as (fs' & c' & new & exit & -> & _ & _ & _ & _ & Hle & Hnone & Hsome).
  unfold exit_of, counts_of. cbn [fst snd].
  destruct exit as [e|]; [|by apply Hnone].
  split; [done|]. apply Hsome. eauto.
Qed.

(** X18. What a restore into a directory can overwrite. No entry with a
    skip-listed extension is extracted. A name of the destination holds
    afterwards what it held before unless it is the name to which the
    library cleans an entry that is not skip-listed. So when the
    entries of the archive are stored under their own names, every file
    of the destination whose name ends in ".exe", ".dll", ".bat" or
    ".cmd" is left as it was. *)
Theorem restore_overwrites_only_cleaned_names (env : RestoreEnv)
    (fs : gmap (list string) FsNode) (backup_info : BackupInfo)
    (dest_path : list string) (create_backup : bool) (files : gmap string string) :
  fs !! dest_path = Some (FsDir files) ->
  (forall m,
     In (RExtract m) (effects (restore_backup env fs backup_info dest_path create_backup)) ->
     skipped_by_extension m = false) /\
  (forall k,
     (forall n, In n (get_backup_contents fs backup_info) ->
                skipped_by_extension n = false -> arcname env n <> k) ->
     file_at (fs_after (restore_backup env fs backup_info dest_path create_backup)) dest_path k
       = files !! k) /\
  ((forall n, In n (get_backup_contents fs backup_info) -> arcname env n = n) ->
   forall k, skipped_by_extension k = true ->
     file_at (fs_after (restore_backup env fs backup_info dest_path create_backup)) dest_path k
       = files !! k).
Proof.
  intros Hd.
  destruct (restore_destination env fs backup_info dest_path create_backup files Hd)
    as (members & names & Hnames & Heff & Hfiles).
  assert (forall k,
            (forall n, In n (get_backup_contents fs backup_info) ->
                       skipped_by_extension n = false -> arcname env n <> k) ->
            file_at (fs_after (restore_backup env fs backup_info dest_path create_backup))
              dest_path k = files !! k) as Hkeep.
  { intros k Hk. rewrite Hfiles, last_filter_none; [done|].
    intros n Hn. destruct (Hnames n Hn) as (Hin & Hs & _).
    apply String.eqb_neq. by apply Hk. }
  split; [|split; [exact Hkeep|]].
  - intros m Hin. by destruct (Heff m Hin) as (_ & Hs & _).
  - intros Hclean k Hk. apply Hkeep. intros n Hin Hs. rewrite (Hclean n Hin).
    intros ->. congruence.
Qed.

Lemma restore_overwrites_only_cleaned_names_witness :
  demo_fs !! dest
    = Some (FsDir (<["world.db" := "day 12"]> (<["server.exe" := "v1"]> ∅))) /\
  file_at (fs_after (restore_backup demo_env demo_fs (info archive) dest true)) dest
    "server.exe" = Some "v1" /\
  file_at (fs_after (restore_backup demo_env odd_fs (info odd_archive) dest true)) dest
    "server.exe" = Some "patched".
Proof.
  split; [reflexivity|]. split; [|by vm_compute].
  destruct (restore_overwrites_only_cleaned_names demo_env demo_fs (info archive) dest true
              (<["world.db" := "day 12"]> (<["server.exe" := "v1"]> ∅)))
    as (_ & _ & Hkeep); [reflexivity|].
  rewrite (Hkeep ltac:(by intros n [<-|[<-|[]]]) "server.exe"); reflexivity.
Defined.

End RestoreTheorems.

Section RestoreTheorems2.

Import RestoreService RestoreRun RestoreMore.



(** X20. A restore changes nothing outside the destination directory and the
    sibling of the safety copy; without a safety copy it changes nothing
    outside the destination. In particular the archive it reads stays. *)
Theorem restore_touches_only_destination (env : RestoreEnv)
    (fs : gmap (list string) FsNode) (backup_info : BackupInfo)
    (dest_path : list string) (create_backup : bool) (k : list string) :
  k <> dest_path ->
  create_backup = false \/ k <> backup_dest env dest_path ->
  fs_after (restore_backup env fs backup_info dest_path create_backup) !! k = fs !! k.
Proof.
  intros Hk Hsib.
  destruct (restore_backup_cases env fs backup_info dest_path create_backup)
    as [(_ & _ & _ & Hother & Hsame)|(archive & fs0 & effs0 & _ & _ & -> & _ & _ & Hother & Hsame & _)].
  - destruct Hsib as [Hcb|Hne]; [by rewrite (Hsame Hcb)|by apply Hother].
  - destruct (extract_backup_spec env fs0 (filepath backup_info) archive dest_path effs0)
      as (_ & _ & Hfs & _).
    rewrite (Hfs k Hk).
    destruct Hsib as [Hcb|Hne]; [by rewrite (Hsame Hcb)|by apply Hother].
Qed.

Lemma restore_touches_only_destination_witness :
  archive <> dest /\
  fs_after (restore_backup demo_env demo_fs (info archive) dest true) !! archive
    = demo_fs !! archive.
Proof.
  split; [discriminate|].
  apply (restore_touches_only_destination demo_env demo_fs (info archive) dest true archive).
  - discriminate.
  - right. discriminate.
Defined.

(** X21. Deleting a snapshot and what follows: a successful delete removes
    the archive and nothing else; after it, a second delete reports
    "Backup file not found", the snapshot lists no contents, and a
    restore from it fails, naming the path of the archive, without
    touching the file system. *)
Theorem delete_backup_then (env : RestoreEnv) (fs : gmap (list string) FsNode)
    (backup_info : BackupInfo) (dest_path : list string) (create_backup : bool)
    (zip : ZipContent) :
  fs !! filepath backup_info = Some (FsFile zip) ->
  (delete_backup None fs backup_info).1.1 = true /\
  (delete_backup None fs backup_info).2 !! filepath backup_info = None /\
  (forall k, k <> filepath backup_info ->
     (delete_backup None fs backup_info).2 !! k = fs !! k) /\
  delete_backup None (delete_backup None fs backup_info).2 backup_info =
    ((false, "Backup file not found"), (delete_backup None fs backup_info).2) /\
  get_backup_contents (delete_backup None fs backup_info).2 backup_info = [] /\
  restore_backup env (delete_backup None fs backup_info).2 backup_info dest_path create_backup =
    ((false, "Backup file not found: " +:+ path_text env (filepath backup_info)),
     (delete_backup None fs backup_info).2, []).
Proof.
  intros Hfile.
  assert (delete_backup None fs backup_info =
          ((true, "Deleted backup: " +:+ PyPath.name (filepath backup_info)),
           delete (filepath backup_info) fs)) as ->.
  { unfold delete_backup. by rewrite Hfile. }
  cbn [fst snd].
  split; [done|]. split; [apply lookup_delete_eq|].
  split; [intros k Hk; by apply lookup_delete_ne|].
  unfold delete_backup, get_backup_contents, restore_backup.
  rewrite !lookup_delete_eq. done.
Qed.

Lemma delete_backup_then_witness :
  demo_fs !! filepath (info archive)
    = Some (FsFile (ZipEntries [("world.db", "day 11"); ("server.exe", "v0")])) /\
  (delete_backup None demo_fs (info archive)).2 !! filepath (info archive) = None.
Proof.
  split; [reflexivity|].
  apply (delete_backup_then demo_env demo_fs (info archive) dest true
           (ZipEntries [("world.db", "day 11"); ("server.exe", "v0")])).
  reflexivity.
Defined.

(** X22. A delete that cannot be done changes nothing: a snapshot that is
    already gone, a path that is a directory, or a file that the system
    refuses to unlink all give a failure and the same file system. *)
Theorem delete_backup_failure_keeps (unlink_error : option string)
    (fs : gmap (list string) FsNode) (backup_info : BackupInfo) :
  (delete_backup unlink_error fs backup_info).1.1 = false ->
  (delete_backup unlink_error fs backup_info).2 = fs /\
  (fs !! filepath backup_info = None \/
   (exists files, fs !! filepath backup_info = Some (FsDir files)) \/
   is_Some unlink_error).
Proof.
  unfold delete_backup.
  destruct (fs !! filepath backup_info) as [[zip|files]|].
  - destruct unlink_error as [e|]; [|done]. intros _. split; [done|]. right; right; eauto.
  - intros _. split; [done|]. right; left; eauto.
  - intros _. split; [done|]. by left.
Qed.

Lemma delete_backup_failure_keeps_witness :
  (delete_backup (Some "Permission denied") demo_fs (info archive)).1.1 = false /\
  (delete_backup (Some "Permission denied") demo_fs (info archive)).2 = demo_fs.
Proof.
  split; [reflexivity|].
  apply (delete_backup_failure_keeps (Some "Permission denied") demo_fs (info archive)).
  reflexivity.
Defined.

End RestoreTheorems2.

(** ** Writing and reading back the timestamp of an archive *)

Section StrptimeRoundTrip.

Import Datetime Strftime.

(** When the first alternative that matches lets the rest of the
    expression match, the first match of the whole expression goes
    through it. *)
Lemma match_items_field alts items s v rest vs r tl :
  first_alt alts s = Some (v, rest) ->
  match_items items rest = (vs, r) :: tl ->
  exists tl', match_items (Field alts :: items) s = (v :: vs, r) :: tl'.
Proof.
  cbn [match_items]. induction alts as [|alt alts IH]; [done|].
  cbn [first_alt flat_map]. intros Hfirst Hrest.
  destruct (match_class_seq alt 0 s) as [[v' rest']|].
  - injection Hfirst as -> ->. rewrite Hrest. cbn [map app]. eauto.
  - cbn [app]. by apply IH.
Qed.

Lemma match_items_lit c items s :
  match_items (Lit c :: items) (String c s) = match_items items s.
Proof. cbn [match_items]. by rewrite Ascii.eqb_refl. Qed.

Lemma digit_step d acc cs rest :
  d < 10 ->
  match_class_seq (digit :: cs) acc (String (digit_char d) rest) =
  match_class_seq cs (10 * acc + d) rest.
Proof.
  intros H. do 10 (destruct d as [|d]; [reflexivity|]). lia.
Qed.

Lemma year_reads_back y rest :
  y <= 99 * 101 ->
  first_alt [[digit; digit; digit; digit]] (pad4 y +:+ rest) = Some (y, rest).
Proof.
  intros Hy.
  change (pad4 y +:+ rest) with
    (String (digit_char (y / 1000))
       (String (digit_char (y / 100 mod 10))
          (String (digit_char (y / 10 mod 10))
             (String (digit_char (y mod 10)) rest)))).
  cbn [first_alt].
  replace (y / 100) with (y / 10 / 10) by (by rewrite Nat.Div0.div_div).
  replace (y / 1000) with (y / 10 / 10 / 10) by (by rewrite !Nat.Div0.div_div).
  pose proof (Nat.div_mod_eq y 10) as H1.
  pose proof (Nat.div_mod_eq (y / 10) 10) as H2.
  pose proof (Nat.div_mod_eq (y / 10 / 10) 10) as H3.
  pose proof (Nat.mod_upper_bound y 10) as B1.
  pose proof (Nat.mod_upper_bound (y / 10) 10) as B2.
  pose proof (Nat.mod_upper_bound (y / 10 / 10) 10) as B3.
  set (a := y / 10) in *. set (b := a / 10) in *. set (c := b / 10) in *.
  assert (c < 10) as B4 by lia.
  rewrite !digit_step by lia. cbn [match_class_seq].
  do 2 f_equal. lia.
Qed.

Lemma month_reads_back m rest :
  1 <= m <= 12 ->
  first_alt [[exactly "1"; between "0" "2"]; [exactly "0"; between "1" "9"]; [between "1" "9"]]
    (pad2 m +:+ rest) = Some (m, rest).
Proof. intros H. do 13 (destruct m as [|m]; [try lia; reflexivity|]). lia. Qed.

Lemma day_reads_back d rest :
  1 <= d <= 31 ->
  first_alt
    [[exactly "3"; between "0" "1"]; [between "1" "2"; digit];
     [exactly "0"; between "1" "9"]; [between "1" "9"]; [exactly " "; between "1" "9"]]
    (pad2 d +:+ rest) = Some (d, rest).
Proof. intros H. do 32 (destruct d as [|d]; [try lia; reflexivity|]). lia. Qed.

Lemma hour_reads_back h rest :
  h <= 23 ->
  first_alt [[exactly "2"; between "0" "3"]; [between "0" "1"; digit]; [digit]]
    (pad2 h +:+ rest) = Some (h, rest).
Proof. intros H. do 24 (destruct h as [|h]; [reflexivity|]). lia. Qed.

Lemma minute_reads_back m rest :
  m <= 59 ->
  first_alt [[between "0" "5"; digit]; [digit]] (pad2 m +:+ rest) = Some (m, rest).
Proof. intros H. do 60 (destruct m as [|m]; [reflexivity|]). lia. Qed.

Lemma second_reads_back s rest :
  s <= 59 ->
  first_alt [[exactly "6"; between "0" "1"]; [between "0" "5"; digit]; [digit]]
    (pad2 s +:+ rest) = Some (s, rest).
Proof. intros H. do 60 (destruct s as [|s]; [reflexivity|]). lia. Qed.

End StrptimeRoundTrip.

Section ArchiveNames.

Import Datetime Strftime RestoreService.

Lemma strftime_dashed_eq dt rest :
  strftime_dashed dt +:+ rest =
  pad4 (year dt) +:+ String "-" (pad2 (month dt) +:+ String "-" (pad2 (day dt) +:+
    String "_" (pad2 (dt_hour dt) +:+ String "-" (pad2 (dt_minute dt) +:+
      String "-" (pad2 (dt_second dt) +:+ rest))))).
Proof. reflexivity. Qed.

Lemma valid_bounds dt :
  valid dt = true ->
  year dt <= 99 * 101 /\ 1 <= month dt <= 12 /\ 1 <= day dt <= 31 /\
  dt_hour dt <= 23 /\ dt_minute dt <= 59 /\ dt_second dt <= 59.
Proof.
  unfold valid. rewrite !andb_true_iff, !Nat.leb_le.
  intros ((((((((Hy1 & Hy2) & Hm1) & Hm2) & Hd1) & Hd2) & Hh) & Hmi) & Hs).
  assert (days_in_month (year dt) (month dt) <= 31) as Hdm.
  { unfold days_in_month.
    destruct (month dt) as [|[|[|[|[|[|[|[|[|[|[|[|]]]]]]]]]]]];
      try destruct (is_leap (year dt)); lia. }
  lia.
Qed.

(** The dashed format reads back what [strftime] wrote. *)
Lemma strptime_strftime_dashed dt :
  valid dt = true ->
  strptime (strftime_dashed dt) format_dashed = Returned dt.
Proof.
  intros Hvalid.
  destruct (valid_bounds dt Hvalid) as (Hy & Hm & Hd & Hh & Hmi & Hs).
  assert (exists tl, match_items format_dashed (strftime_dashed dt) =
                     ([year dt; month dt; day dt; dt_hour dt; dt_minute dt; dt_second dt],
                      EmptyString) :: tl) as [tl Hmatch].
  { replace (strftime_dashed dt) with (strftime_dashed dt +:+ "")
      by apply string_app_nil_r.
    rewrite strftime_dashed_eq.
    unfold format_dashed, re_Y, re_m, re_d, re_H, re_M, re_S.
    edestruct (match_items_field _ [] _ _ _ [] EmptyString []
                 (second_reads_back (dt_second dt) EmptyString Hs)) as [t6 H6];
      [reflexivity|].
    rewrite <- (match_items_lit "-") in H6.
    edestruct (match_items_field _ _ _ _ _ _ _ _
                 (minute_reads_back (dt_minute dt) _ Hmi) H6) as [t5 H5].
    rewrite <- (match_items_lit "-") in H5.
    edestruct (match_items_field _ _ _ _ _ _ _ _
                 (hour_reads_back (dt_hour dt) _ Hh) H5) as [t4 H4].
    rewrite <- (match_items_lit "_") in H4.
    edestruct (match_items_field _ _ _ _ _ _ _ _
                 (day_reads_back (day dt) _ Hd) H4) as [t3 H3].
    rewrite <- (match_items_lit "-") in H3.
    edestruct (match_items_field _ _ _ _ _ _ _ _
                 (month_reads_back (month dt) _ Hm) H3) as [t2 H2].
    rewrite <- (match_items_lit "-") in H2.
    edestruct (match_items_field _ _ _ _ _ _ _ _
                 (year_reads_back (year dt) _ Hy) H2) as [t1 H1].
    eauto. }
  unfold strptime. rewrite Hmatch.
  replace (mk_datetime (year dt) (month dt) (day dt) (dt_hour dt) (dt_minute dt) (dt_second dt))
    with dt by (by destruct dt).
  by rewrite Hvalid.
Qed.

End ArchiveNames.

Section FileNames.

Import Datetime Strftime RestoreService.

Lemma startswith_zip_boundary c name rest :
  PyStr.startswith ".zip" (String c (name +:+ String "_" rest)) = true ->
  3 <= String.length name.
Proof.
  destruct name as [|c1 [|c2 [|c3 name]]]; simpl; intros H; try lia;
    repeat (case_match; try discriminate).
Qed.

(** Removing ".zip" from a name followed by an underscore never eats
    into what follows the underscore. *)
Lemma remove_sub_prefix name k :
  k <= String.length name ->
  exists kept, forall rest,
    PyStr.remove_sub_aux ".zip" k (name +:+ String "_" rest) =
    kept +:+ String "_" (PyStr.remove_sub_aux ".zip" 0 rest).
Proof.
  revert k. induction name as [|c name IH]; intros k Hk.
  - assert (k = 0) as -> by (simpl in Hk; lia). exists EmptyString. intros rest. reflexivity.
  - destruct k as [|k].
    + destruct (PyStr.startswith ".zip" (String c name)) eqn:E.
      * assert (3 <= String.length name) as Hlen.
        { destruct name as [|c1 [|c2 [|c3 name]]]; simpl in E |- *; try lia;
            repeat (case_match; try discriminate). }
        destruct (IH 3 Hlen) as [kept Hkept]. exists kept. intros rest.
        change (String c name +:+ String "_" rest) with (String c (name +:+ String "_" rest)).
        cbn [PyStr.remove_sub_aux].
        assert (PyStr.startswith ".zip" (String c (name +:+ String "_" rest)) = true) as ->.
        { clear -E Hlen. destruct name as [|c1 [|c2 [|c3 name]]]; simpl in *; try lia. done. }
        apply Hkept.
      * destruct (IH 0 (Nat.le_0_l _)) as [kept Hkept]. exists (String c kept). intros rest.
        change (String c name +:+ String "_" rest) with (String c (name +:+ String "_" rest)).
        cbn [PyStr.remove_sub_aux].
        assert (PyStr.startswith ".zip" (String c (name +:+ String "_" rest)) = false) as ->.
        { destruct (PyStr.startswith ".zip" (String c (name +:+ String "_" rest))) eqn:E2;
            [|done].
          pose proof (startswith_zip_boundary _ _ _ E2) as Hlen.
          clear -E E2 Hlen. destruct name as [|c1 [|c2 [|c3 name]]]; simpl in *; try lia.
          congruence. }
        rewrite Hkept. reflexivity.
    + simpl in Hk. destruct (IH k ltac:(lia)) as [kept Hkept]. exists kept. intros rest.
      change (String c name +:+ String "_" rest) with (String c (name +:+ String "_" rest)).
      cbn [PyStr.remove_sub_aux]. apply Hkept.
Qed.

Lemma remove_sub_keep s rest :
  char_free "." s = true ->
  PyStr.remove_sub_aux ".zip" 0 (s +:+ rest) = s +:+ PyStr.remove_sub_aux ".zip" 0 rest.
Proof.
  induction s as [|c s IH]; [done|]. cbn [char_free]. intros H.
  apply andb_prop in H as [Hc Hs]. apply negb_true_iff in Hc.
  change (String c s +:+ rest) with (String c (s +:+ rest)).
  cbn [PyStr.remove_sub_aux PyStr.startswith].
  rewrite Ascii.eqb_sym, Hc, (IH Hs). reflexivity.
Qed.

Lemma digit_char_free d :
  d < 10 -> Ascii.eqb (digit_char d) "." = false /\ Ascii.eqb (digit_char d) "_" = false.
Proof. intros H. do 10 (destruct d as [|d]; [by split|]). lia. Qed.

Lemma pad2_free v rest c :
  v < 100 -> (c = "."%char \/ c = "_"%char) ->
  char_free c (pad2 v +:+ rest) = char_free c rest.
Proof.
  intros Hv Hc. unfold pad2.
  change (char_free c (String (digit_char (v / 10)) (String (digit_char (v mod 10)) rest))
          = char_free c rest).
  cbn [char_free].
  assert (v / 10 < 10) as H1 by (apply Nat.Div0.div_lt_upper_bound; lia).
  assert (v mod 10 < 10) as H2 by (apply Nat.mod_upper_bound; lia).
  destruct (digit_char_free _ H1) as [A1 A2], (digit_char_free _ H2) as [B1 B2].
  destruct Hc as [-> | ->]; by rewrite ?A1, ?A2, ?B1, ?B2.
Qed.

Lemma pad4_free v rest c :
  v <= 99 * 101 -> (c = "."%char \/ c = "_"%char) ->
  char_free c (pad4 v +:+ rest) = char_free c rest.
Proof.
  intros Hv Hc. unfold pad4.
  change (char_free c
            (String (digit_char (v / 1000))
               (String (digit_char (v / 100 mod 10))
                  (String (digit_char (v / 10 mod 10))
                     (String (digit_char (v mod 10)) rest))))
          = char_free c rest).
  cbn [char_free].
  assert (v / 1000 < 10) as H1 by (apply Nat.Div0.div_lt_upper_bound; lia).
  assert (v / 100 mod 10 < 10) as H2 by (apply Nat.mod_upper_bound; lia).
  assert (v / 10 mod 10 < 10) as H3 by (apply Nat.mod_upper_bound; lia).
  assert (v mod 10 < 10) as H4 by (apply Nat.mod_upper_bound; lia).
  destruct (digit_char_free _ H1) as [A1 A2], (digit_char_free _ H2) as [B1 B2],
           (digit_char_free _ H3) as [C1 C2], (digit_char_free _ H4) as [D1 D2].
  destruct Hc as [-> | ->]; by rewrite ?A1, ?A2, ?B1, ?B2, ?C1, ?C2, ?D1, ?D2.
Qed.

Lemma date_part_free dt c :
  valid dt = true -> (c = "."%char \/ c = "_"%char) -> char_free c (date_part dt) = true.
Proof.
  intros Hv Hc. destruct (valid_bounds dt Hv) as (Hy & Hm & Hd & _).
  unfold date_part.
  change (char_free c
            (pad4 (year dt) +:+ String "-" (pad2 (month dt) +:+ String "-"
               (pad2 (day dt) +:+ EmptyString))) = true).
  rewrite pad4_free by done. cbn [char_free].
  rewrite pad2_free by (done || lia). cbn [char_free].
  rewrite pad2_free by (done || lia).
  destruct Hc as [-> | ->]; reflexivity.
Qed.

Lemma time_part_free dt c :
  valid dt = true -> (c = "."%char \/ c = "_"%char) -> char_free c (time_part dt) = true.
Proof.
  intros Hv Hc. destruct (valid_bounds dt Hv) as (_ & _ & _ & Hh & Hmi & Hs).
  unfold time_part.
  change (char_free c
            (pad2 (dt_hour dt) +:+ String "-" (pad2 (dt_minute dt) +:+ String "-"
               (pad2 (dt_second dt) +:+ EmptyString))) = true).
  rewrite pad2_free by (done || lia). cbn [char_free].
  rewrite pad2_free by (done || lia). cbn [char_free].
  rewrite pad2_free by (done || lia).
  destruct Hc as [-> | ->]; reflexivity.
Qed.

End FileNames.

Section ReadBack.

Import Datetime Strftime RestoreService.

(** The text that discovery reads from the name of an archive written at
    [dt] is the timestamp that was written. *)
Lemma timestamp_text_of_archive_name server_name dt :
  valid dt = true ->
  timestamp_text (server_name +:+ "_" +:+ strftime_dashed dt +:+ ".zip") =
  Some (strftime_dashed dt).
Proof.
  intros Hv. unfold timestamp_text, PyStr.remove_sub.
  destruct (remove_sub_prefix server_name 0 (Nat.le_0_l _)) as [kept Hkept].
  change (server_name +:+ "_" +:+ strftime_dashed dt +:+ ".zip")
    with (server_name +:+ String "_" (strftime_dashed dt +:+ ".zip")).
  rewrite Hkept.
  rewrite remove_sub_keep.
  2: { unfold strftime_dashed. rewrite char_free_app.
       rewrite (date_part_free dt "." Hv (or_introl eq_refl)).
       change ("_" +:+ time_part dt) with (String "_" (time_part dt)). cbn [char_free andb].
       by rewrite (time_part_free dt "." Hv (or_introl eq_refl)). }
  change (PyStr.remove_sub_aux ".zip" 0 ".zip") with EmptyString.
  rewrite string_app_nil_r.
  rewrite split_app_sep.
  assert (PyStr.split "_" (strftime_dashed dt) = [date_part dt; time_part dt]) as Hsplit.
  { unfold strftime_dashed.
    change (date_part dt +:+ "_" +:+ time_part dt)
      with (date_part dt +:+ String "_" (time_part dt)).
    rewrite split_app_sep.
    rewrite (split_char_free "_" (date_part dt)) by (apply date_part_free; auto).
    by rewrite (split_char_free "_" (time_part dt)) by (apply time_part_free; auto). }
  rewrite !Hsplit.
  destruct (nth_last_two (PyStr.split "_" kept) (date_part dt) (time_part dt) EmptyString)
    as [-> ->].
  assert ((3 <=? length (PyStr.split "_" kept ++ [date_part dt; time_part dt])) = true) as ->.
  { apply Nat.leb_le. rewrite length_app. cbn [length].
    pose proof (split_nonempty "_" kept). destruct (PyStr.split "_" kept); [done|].
    cbn [length]. lia. }
  reflexivity.
Qed.

End ReadBack.

(** X23. An archive is found under the time it was written: the file name
    that [backup_server] builds from a server name and the clock,
    "<server_name>_<YYYY-MM-DD_HH-MM-SS>.zip", is parsed back by
    [_extract_timestamp] to that very instant, whatever the server name
    is (underscores, dots and ".zip" inside it included). *)
Theorem archive_name_reads_back (server_name : string) (dt : Datetime.datetime) :
  Datetime.valid dt = true ->
  1000 <= Datetime.year dt ->
  RestoreService._extract_timestamp
    (server_name +:+ "_" +:+ Strftime.strftime_dashed dt +:+ ".zip")
  = Returned (Some dt).
Proof.
  intros Hv _.
  unfold RestoreService._extract_timestamp, RestoreService.extract_timestamp_body.
  rewrite timestamp_text_of_archive_name by done.
  unfold RestoreService.try_strptime at 1.
  by rewrite strptime_strftime_dashed.
Qed.

Lemma archive_name_reads_back_witness :
  Datetime.valid (Datetime.mk_datetime 2024 2 29 23 59 7) = true /\
  RestoreService._extract_timestamp
    ("My_Server.zip.v2" +:+ "_" +:+
     Strftime.strftime_dashed (Datetime.mk_datetime 2024 2 29 23 59 7) +:+ ".zip")
  = Returned (Some (Datetime.mk_datetime 2024 2 29 23 59 7)).
Proof.
  split; [reflexivity|].
  apply (archive_name_reads_back "My_Server.zip.v2" (Datetime.mk_datetime 2024 2 29 23 59 7)).
  - reflexivity.
  - vm_compute. lia.
Defined.

(** ** More on discovery *)

Section DiscoverLaws.

Import Datetime RestoreService.

Context (glob_zip : string -> bool).

Lemma server_map_fold (servers : list ServerConfig) (m : gmap string string) (sid : string) :
  fold_left (fun m s => <[server_id s := server_name s]> m) servers m !! sid =
  match last (filter (fun s => String.eqb (server_id s) sid) servers) with
  | Some s => Some (server_name s)
  | None => m !! sid
  end.
Proof.
  revert m. induction servers as [|s servers IH]; intros m; [done|].
  cbn [fold_left]. rewrite IH, (filter_cons_bool (fun s => String.eqb (server_id s) sid)).
  destruct (String.eqb (server_id s) sid) eqn:E.
  - apply String.eqb_eq in E. rewrite last_cons.
    destruct (last (filter _ servers)); [done|]. by rewrite <- E, lookup_insert_eq.
  - apply String.eqb_neq in E.
    destruct (last (filter _ servers)); [done|]. by rewrite lookup_insert_ne.
Qed.

(** What [collect] gathers from a directory. *)
Lemma in_collect dir entries sid sname b :
  In b (collect glob_zip dir entries sid sname) <->
  exists n size ts,
    In n entries /\ glob_zip (node_name n) = true /\
    node_size n = Returned size /\
    _extract_timestamp (node_name n) = Returned ts /\
    b = mk_BackupInfo (PyPath.div dir (node_name n)) sid sname ts size.
Proof.
  unfold collect. rewrite in_flat_map. split.
  - intros (n & Hn & Hb). exists n.
    destruct (glob_zip (node_name n)) eqn:Hg; [|done].
    unfold BackupInfo_new in Hb.
    destruct (_extract_timestamp (node_name n)) as [ts|]; [|done].
    destruct (node_size n) as [size|]; [|done].
    destruct Hb as [<-|[]]. by exists size, ts.
  - intros (n & size & ts & Hn & Hg & Hsize & Hts & ->). exists n. split; [done|].
    rewrite Hg. unfold BackupInfo_new. rewrite Hts, Hsize. by left.
Qed.

End DiscoverLaws.

(** X24. Every snapshot that discovery returns is an entry matched by "*.zip"
    that lies directly in a server directory or one level below; it
    carries the name of that directory as server id, the name of the
    last configured server with that id (or "Server <id>" when there is
    none), and the timestamp parsed from its own file name. *)
Theorem discovered_snapshots_are_labelled (glob_zip : string -> bool)
    (backup_dir : list string) (tree : option (list RestoreService.Node))
    (servers : list ServerConfig) (b : RestoreService.BackupInfo) :
  In b (RestoreService.discover_backups glob_zip backup_dir tree servers) ->
  glob_zip (PyPath.name (RestoreService.filepath b)) = true /\
  RestoreService._extract_timestamp (PyPath.name (RestoreService.filepath b))
    = Returned (RestoreService.timestamp b) /\
  RestoreService.bi_server_name b =
    match last (filter (fun s => String.eqb (server_id s) (RestoreService.bi_server_id b))
                  servers) with
    | Some s => server_name s
    | None => "Server " +:+ RestoreService.bi_server_id b
    end /\
  (exists fname,
     RestoreService.filepath b = backup_dir ++ [RestoreService.bi_server_id b; fname] \/
     exists sub,
       RestoreService.filepath b = backup_dir ++ [RestoreService.bi_server_id b; sub; fname]).
Proof.
  destruct tree as [entries|]; [|by intros []].
  cbn [RestoreService.discover_backups]. intros Hb.
  apply (Permutation_in _ (sort_desc_perm RestoreService.sort_key _)) in Hb.
  unfold RestoreService.scan in Hb. apply in_flat_map in Hb as (server_dir & _ & Hb).
  destruct server_dir as [f st|sid st dir]; [done|].
  assert (default ("Server " +:+ sid) (RestoreService.server_map servers !! sid) =
          match last (filter (fun s => String.eqb (server_id s) sid) servers) with
          | Some s => server_name s
          | None => "Server " +:+ sid
          end) as Hname.
  { unfold RestoreService.server_map. rewrite server_map_fold.
    by destruct (last (filter _ servers)). }
  rewrite Hname in Hb. clear Hname.
  apply in_app_iff in Hb as [Hb|Hb].
  - apply in_collect in Hb as (n & size & ts & _ & Hg & _ & Hts & ->).
    cbn [RestoreService.filepath RestoreService.timestamp RestoreService.bi_server_name
         RestoreService.bi_server_id].
    unfold PyPath.name, PyPath.div. rewrite List.last_last.
    split; [done|]. split; [done|]. split; [done|].
    exists (RestoreService.node_name n). left. by rewrite <- app_assoc.
  - apply in_flat_map in Hb as (subdir & _ & Hb).
    destruct subdir as [f st'|d st' sub]; [done|].
    apply in_collect in Hb as (n & size & ts & _ & Hg & _ & Hts & ->).
    cbn [RestoreService.filepath RestoreService.timestamp RestoreService.bi_server_name
         RestoreService.bi_server_id].
    unfold PyPath.name, PyPath.div. rewrite List.last_last.
    split; [done|]. split; [done|]. split; [done|].
    exists (RestoreService.node_name n). right. exists d. by rewrite <- !app_assoc.
Qed.

Lemma discovered_snapshots_are_labelled_witness :
  In (RestoreService.mk_BackupInfo ["D:"; "backups"; "1"; "Server1_backup.zip"]
        "1" "Server 1" None 1024)
     (RestoreService.discover_backups RestoreFacts.glob_zip ["D:"; "backups"]
        (Some (RestoreFacts.tree_of "1" ["Server1_backup.zip"])) []) /\
  RestoreFacts.glob_zip "Server1_backup.zip" = true.
Proof.
  split; [left; reflexivity|].
  apply (discovered_snapshots_are_labelled RestoreFacts.glob_zip ["D:"; "backups"]
           (Some (RestoreFacts.tree_of "1" ["Server1_backup.zip"])) []
           (RestoreService.mk_BackupInfo ["D:"; "backups"; "1"; "Server1_backup.zip"]
              "1" "Server 1" None 1024)).
  left; reflexivity.
Defined.

(** X26. Discovery keeps listing order among snapshots of equal sort key: in
    particular the snapshots without timestamp come out in the order in
    which the directory scan met them. *)
Theorem discovery_is_stable (glob_zip : string -> bool)
    (backup_dir : list string) (tree : list RestoreService.Node)
    (servers : list ServerConfig) (k : Datetime.datetime) :
  filter (fun b => bool_decide (RestoreService.sort_key b = k))
    (RestoreService.discover_backups glob_zip backup_dir (Some tree) servers) =
  filter (fun b => bool_decide (RestoreService.sort_key b = k))
    (RestoreService.scan glob_zip backup_dir tree servers).
Proof. apply sort_desc_stable. Qed.

(** ** Documents of the data model *)

Section ModelsRoundTrip.

Import Datetime Strftime ModelsDict.

(** X27. A server written to a document and read back is the same server,
    and an empty document reads as the server with every default
    (empty strings, enabled). *)
Theorem ServerConfig_round_trip (s : ServerConfig) :
  ServerConfig_from_dict (ServerConfig_to_dict s) = Some s /\
  ServerConfig_from_dict ∅ = Some (mk_ServerConfig "" "" "" "" "" true).
Proof. split; [by destruct s|reflexivity]. Qed.

Lemma time_round_trip t :
  hour t <= 23 -> minute t <= 59 -> second t <= 59 ->
  time_strptime (time_strftime t) = Returned t.
Proof.
  intros Hh Hm Hs.
  assert (exists tl, match_items format_time (time_strftime t) =
                     ([hour t; minute t; second t], EmptyString) :: tl) as [tl Hmatch].
  { unfold time_strftime.
    change (pad2 (hour t) +:+ ":" +:+ pad2 (minute t) +:+ ":" +:+ pad2 (second t))
      with (pad2 (hour t) +:+ String ":" (pad2 (minute t) +:+ String ":"
              (pad2 (second t) +:+ EmptyString))).
    unfold format_time, re_H, re_M, re_S.
    edestruct (match_items_field _ [] _ _ _ [] EmptyString []
                 (second_reads_back (second t) EmptyString Hs)) as [t3 H3];
      [reflexivity|].
    rewrite <- (match_items_lit ":") in H3.
    edestruct (match_items_field _ _ _ _ _ _ _ _
                 (minute_reads_back (minute t) _ Hm) H3) as [t2 H2].
    rewrite <- (match_items_lit ":") in H2.
    edestruct (match_items_field _ _ _ _ _ _ _ _
                 (hour_reads_back (hour t) _ Hh) H2) as [t1 H1].
    eauto. }
  unfold time_strptime. rewrite Hmatch.
  apply Nat.leb_le in Hs. rewrite Hs. by destruct t.
Qed.

(** X28. A schedule written to a document and read back is the same
    schedule, time of day and enumerations included. *)
Theorem BackupSchedule_round_trip (now : time) (s : BackupSchedule) :
  hour (sched_time s) <= 23 ->
  minute (sched_time s) <= 59 ->
  second (sched_time s) <= 59 ->
  BackupSchedule_from_dict now (BackupSchedule_to_dict s) = Some (Returned s).
Proof.
  intros Hh Hm Hs. pose proof (time_round_trip (sched_time s) Hh Hm Hs) as Ht.
  destruct s as [sid nm ids ty t im dow en bp rd ecb cbt cbp]. cbn in Ht.
  unfold BackupSchedule_from_dict, BackupSchedule_to_dict.
  cbn [schedule_id name server_ids schedule_type sched_time interval_minutes days_of_week
       sched_enabled backup_path retention_days enable_cloud_backup cloud_backup_type
       cloud_backup_path].
  replace ((<["schedule_id":=VStr sid]> (<["name":=VStr nm]> (<["server_ids":=VStrList ids]>
            (<["schedule_type":=VStr (ScheduleType_value ty)]>
            (<["time":=VStr (time_strftime t)]> (<["interval_minutes":=VInt im]>
            (<["days_of_week":=VIntList dow]> (<["enabled":=VBool en]>
            (<["backup_path":=VStr bp]> (<["retention_days":=VInt rd]>
            (<["enable_cloud_backup":=VBool ecb]>
            (<["cloud_backup_type":=VStr (CloudBackupType_value cbt)]>
            (<["cloud_backup_path":=VStr cbp]> (∅ : gmap string PyValue)))))))))))))) !! "time")
    with (Some (VStr (time_strftime t))) by reflexivity.
  rewrite Ht.
  destruct ty, cbt; reflexivity.
Qed.

Lemma BackupSchedule_round_trip_witness :
  hour (sched_time Demo.nightly) <= 23 /\
  BackupSchedule_from_dict (mk_time 9 0 0) (BackupSchedule_to_dict Demo.nightly)
    = Some (Returned Demo.nightly).
Proof.
  split; [vm_compute; lia|].
  apply (BackupSchedule_round_trip (mk_time 9 0 0) Demo.nightly); vm_compute; lia.
Defined.

End ModelsRoundTrip.
